(** * Motion3D Transformer: the orchestration layer, embedded and verified

    A shallow embedding of the Python sources
    - [backend/utils/video_processing.py]  (frame helpers),
    - [backend/inference/predictor.py]     (decoding, inference, benchmark),
    - [backend/models/model_loader.py]     (the model manager),
    - [backend/models/motion_clone.py], [backend/models/fomm_model.py]
                                           (the two loaders),
    - [backend/inference/api.py]           (the task table and the endpoints),
    - [scripts/download_models.py], [scripts/run_demo.py]  (the two scripts),
    followed by the properties proved about it.

    Python dictionaries are finite maps ([gmap]) keyed by strings, Python
    [int]s are [Z], exceptions are values of [exn] carried by [result], and
    code that mutates module globals runs in a state-and-exception monad over
    the record [World]. *)

From Stdlib Require Import ZArith List Lia Bool Ascii String.
From Stdlib Require Import Floats.SpecFloat.
From stdpp Require Import base option list gmap strings.

Local Open Scope string_scope.
Local Open Scope list_scope.
Local Open Scope Z_scope.

(** ** Exceptions *)

(** The exception classes the sources raise or let through.  [OSError]
    and [RuntimeError] stand for failures of the libraries underneath
    (PIL, OpenCV, torch, imageio, shutil, os). *)
Inductive exn : Type :=
  | ValueError (msg : string)
  | FileNotFoundError (msg : string)
  | KeyError (key : string)
  | AttributeError (msg : string)
  | TypeError (msg : string)
  | OSError (msg : string)
  | RuntimeError (msg : string)
  | NameError (msg : string)
  | HTTPException (status_code : Z) (detail : string).

(** Python's [str(e)].  A [KeyError] prints the [repr] of its key. *)
Definition str (e : exn) : string :=
  match e with
  | ValueError msg | FileNotFoundError msg | AttributeError msg
  | TypeError msg | OSError msg | RuntimeError msg | NameError msg => msg
  | KeyError key => "'" +:+ key +:+ "'"
  | HTTPException _ detail => detail
  end.

(** The [FileNotFoundError] of an [open], a [rename] or an [unlink] on a
    path that is not there. *)
Definition no_such_file (path : string) : exn :=
  FileNotFoundError ("[Errno 2] No such file or directory: '" +:+ path +:+ "'").

Inductive result (A : Type) : Type :=
  | Ok (a : A)
  | Raise (e : exn).
Arguments Ok {A} a.
Arguments Raise {A} e.

Definition is_ok {A} (r : result A) : bool :=
  match r with Ok _ => true | Raise _ => false end.

(** ** Media helpers: [backend/utils/video_processing.py] and the decoders
       of [backend/inference/predictor.py] *)

(** An opened [cv2.VideoCapture]: whether the container could be opened and
    the frames [read()] will still deliver, in presentation order. *)
Record VideoCapture (Frame : Type) : Type := mkCapture {
  isOpened : bool;
  pending : list Frame
}.
Arguments mkCapture {Frame} _ _.
Arguments isOpened {Frame} _.
Arguments pending {Frame} _.

(** The number of frames a capture can deliver. *)
Definition totalFrames {Frame} (cap : VideoCapture Frame) : nat :=
  if isOpened cap then length (pending cap) else 0%nat.

(** Python truthiness of an [Optional[int]]. *)
Definition truthy (n : option Z) : bool :=
  match n with
  | None => false
  | Some k => negb (k =? 0)
  end.

Module VideoProcessor.
Section Frames.
Context {Frame : Type}.

(** The [while cap.isOpened():] loop of [extract_frames], entered with the
    capture opened; [cap.read()] takes the head of [pending]. *)
Fixpoint extract_loop (max_frames : option Z) (pend : list Frame)
    (frames : list Frame) (frame_count : Z) : list Frame :=
  match pend with
  | [] => frames                                   (* not ret: break *)
  | frame :: rest =>
      let frames := frames ++ [frame] in
      let frame_count := frame_count + 1 in
      match max_frames with
      | Some k =>
          if truthy max_frames && (k <=? frame_count) then frames
          else extract_loop max_frames rest frames frame_count
      | None => extract_loop max_frames rest frames frame_count
      end
  end.

Definition extract_frames (cap : VideoCapture Frame)
    (max_frames : option Z) : list Frame :=
  if isOpened cap then extract_loop max_frames (pending cap) [] 0 else [].
End Frames.

(** A [uint8] image is the flat list of its channel values; a [float32]
    image the flat list of IEEE binary32 numbers. *)
Definition float32 : Type := spec_float.
Definition prec32 : Z := 24.
Definition emax32 : Z := 128.

(** [ndarray.astype(np.float32)] on an integer value. *)
Definition f32_of_Z (z : Z) : float32 := binary_normalize prec32 emax32 z 0 false.

(** [ndarray.astype(np.uint8)] on a binary32 value: the fraction is dropped
    (C conversion); a value outside [0, 255] is reduced modulo 256, which is
    what the conversion through a wider integer yields. *)
Definition uint8_of_f32 (x : float32) : Z :=
  match x with
  | S754_finite s m e =>
      let mag := if 0 <=? e then Z.pos m * 2 ^ e else Z.pos m / 2 ^ (- e) in
      (if s then - mag else mag) mod 256
  | _ => 0
  end.

Definition normalize_pixel (p : Z) : float32 :=
  SFdiv prec32 emax32 (f32_of_Z p) (f32_of_Z 255).

Definition denormalize_pixel (x : float32) : Z :=
  uint8_of_f32 (SFmul prec32 emax32 x (f32_of_Z 255)).

(** [[frame.astype(np.float32) / 255.0 for frame in frames]] *)
Definition normalize_frames (frames : list (list Z)) : list (list float32) :=
  map (map normalize_pixel) frames.

(** [[(frame * 255).astype(np.uint8) for frame in frames]] *)
Definition denormalize_frames (frames : list (list float32)) : list (list Z) :=
  map (map denormalize_pixel) frames.

(** A well-formed [uint8] frame. *)
Definition is_uint8_frame (frame : list Z) : Prop :=
  Forall (fun p => 0 <= p < 256) frame.
End VideoProcessor.

(** ** The runtime underneath: torch, PIL, OpenCV, imageio, the OS *)

(** The two model classes, [MotionClonePredictor] and [FOMMPredictor]. *)
Inductive ModelClass : Type := MotionClonePredictor | FOMMPredictor.

Global Instance ModelClass_eq_dec : EqDecision ModelClass.
Proof. solve_decision. Defined.

(** A model object on the Python heap.  [obj_id] is its identity ([id(m)]):
    every construction of a model object takes the next identifier. *)
Record Model : Type := mkModel {
  obj_id : nat;
  model_class : ModelClass;
  checkpoint : option string;       (* the file its weights were read from *)
  on_device : string
}.

Global Instance Model_eq_dec : EqDecision Model.
Proof. solve_decision. Defined.

(** What [imageio.mimsave] did: the whole container written, or an
    exception, possibly with a truncated file left behind. *)
Inductive WriteOutcome : Type :=
  | Written (content : string)
  | WriteFailed (e : exn) (partial : option string).

(** The calls into [shutil] and [os] that may fail for reasons outside the
    program (permissions, a full disk, ...). *)
Inductive Syscall : Type :=
  | SysMove (src dst : string)
  | SysRemove (path : string).

(** Everything the sources take from their libraries.  File contents are
    byte strings; the decoders map them to images and captures. *)
Class Runtime : Type := {
  Frame : Type;                     (* an H x W x 3 uint8 ndarray *)
  Image : Type;                     (* a PIL image *)
  Tensor : Type;                    (* a torch tensor [3, H, W] *)
  PyFloat : Type;                   (* Python and numpy floats *)
  base_dir : string;                (* Path(__file__).parent.parent.parent *)
  splitext : string -> string * string;          (* os.path.splitext *)
  basename : string -> string;                   (* os.path.basename *)
  Image_open_RGB : string -> result Image;       (* Image.open(_).convert('RGB') *)
  VideoCapture_of : string -> VideoCapture Frame;   (* cv2.VideoCapture *)
  cvtColor_BGR2RGB : Frame -> Frame;
  Image_fromarray : Frame -> Image;
  transform : Image -> Tensor;                   (* Resize, ToTensor, Normalize *)
  cuda_is_available : bool;
  torch_to : string -> option exn;               (* tensor.to(device) refusing a device *)
  torch_load_state : ModelClass -> string -> option exn;
                                                 (* torch.load and load_state_dict refusing a file *)
  forward : Model -> Tensor -> list Tensor -> result (list Tensor);
  to_uint8_frame : Tensor -> Frame;              (* denormalise, clamp, permute, astype *)
  imageio_mimsave : list Frame -> WriteOutcome;
  os_fault : Syscall -> option exn;
  time_time : nat -> PyFloat;                    (* the n-th reading of the clock *)
  float_sub : PyFloat -> PyFloat -> PyFloat;
  float_lt : PyFloat -> PyFloat -> bool;
  np_mean : list PyFloat -> PyFloat;
  int_div_float : Z -> PyFloat -> PyFloat
}.

(** ** The state of the process *)

(** [ModelManager]: the fields set by [__init__]. *)
Record ModelManager : Type := mkManager {
  mm_device : string;
  loaded_models : gmap string Model;
  current_model : option Model;
  current_model_name : option string
}.

(** [Motion3DPredictor]; its [model_manager] field is the module-level
    singleton, kept in the world. *)
Record Predictor : Type := mkPredictor {
  model : option Model;
  model_name : string;
  device : string
}.

(** A task dictionary of [current_tasks]: the keys ["status"] and
    ["progress"] are in every dictionary the code builds, ["output_path"]
    and ["error"] in some. *)
Record Task : Type := mkTask {
  status : string;
  progress : Z;
  output_path : option string;
  error : option string
}.

(** The arguments [background_tasks.add_task] records for one call of
    [process_motion_transfer]. *)
Record Job : Type := mkJob {
  job_task_id : string;
  job_source_path : string;
  job_driving_path : string;
  job_model_name : string
}.

Section WorldDef.
Context `{RT : Runtime}.

(** The calls that leave the process, in the order they were made. *)
Inductive Event : Type :=
  | EvTorchLoad (path : string)
  | EvImageOpen (path : string)
  | EvVideoCapture (path : string)
  | EvForward (m : Model) (source : Tensor) (driving : list Tensor)
  | EvMimsave (path : string)
  | EvWrite (path : string)
  | EvMove (src dst : string)
  | EvRemove (path : string).

Record World : Type := mkWorld {
  files : gmap string string;             (* the file system *)
  model_manager : ModelManager;           (* model_loader._model_manager *)
  predictor : option Predictor;           (* api.predictor *)
  current_tasks : gmap string Task;       (* api.current_tasks *)
  scheduled : list Job;                   (* background tasks added, not yet run *)
  trace : list Event;
  next_obj : nat;                         (* the next object identity *)
  clock_reads : nat                       (* readings of time.time() so far *)
}.

Definition set_files f (w : World) : World :=
  mkWorld f (model_manager w) (predictor w) (current_tasks w) (scheduled w)
          (trace w) (next_obj w) (clock_reads w).
Definition set_model_manager m (w : World) : World :=
  mkWorld (files w) m (predictor w) (current_tasks w) (scheduled w)
          (trace w) (next_obj w) (clock_reads w).
Definition set_predictor p (w : World) : World :=
  mkWorld (files w) (model_manager w) p (current_tasks w) (scheduled w)
          (trace w) (next_obj w) (clock_reads w).
Definition set_current_tasks t (w : World) : World :=
  mkWorld (files w) (model_manager w) (predictor w) t (scheduled w)
          (trace w) (next_obj w) (clock_reads w).
Definition set_scheduled s (w : World) : World :=
  mkWorld (files w) (model_manager w) (predictor w) (current_tasks w) s
          (trace w) (next_obj w) (clock_reads w).
Definition set_trace t (w : World) : World :=
  mkWorld (files w) (model_manager w) (predictor w) (current_tasks w)
          (scheduled w) t (next_obj w) (clock_reads w).
Definition set_next_obj n (w : World) : World :=
  mkWorld (files w) (model_manager w) (predictor w) (current_tasks w)
          (scheduled w) (trace w) n (clock_reads w).
Definition set_clock_reads n (w : World) : World :=
  mkWorld (files w) (model_manager w) (predictor w) (current_tasks w)
          (scheduled w) (trace w) (next_obj w) n.

(** *** The monad: state with exceptions.  An exception keeps the state
    reached when it was raised. *)
Definition M (A : Type) : Type := World -> result A * World.

Definition ret {A} (a : A) : M A := fun w => (Ok a, w).
Definition raise {A} (e : exn) : M A := fun w => (Raise e, w).
Definition bind {A B} (m : M A) (k : A -> M B) : M B :=
  fun w => match m w with
           | (Ok a, w') => k a w'
           | (Raise e, w') => (Raise e, w')
           end.
Definition gets {A} (f : World -> A) : M A := fun w => (Ok (f w), w).
Definition modify (f : World -> World) : M unit := fun w => (Ok tt, f w).
Definition lift {A} (r : result A) : M A := fun w => (r, w).

(** [try: body  except Exception as e: handler(e)] *)
Definition try_except {A} (body : M A) (handler : exn -> M A) : M A :=
  fun w => match body w with
           | (Ok a, w') => (Ok a, w')
           | (Raise e, w') => handler e w'
           end.

(** [try: body  finally: cleanup]: an exception of [cleanup] replaces the
    outcome of [body]. *)
Definition try_finally {A} (body : M A) (cleanup : M unit) : M A :=
  fun w => match body w with
           | (r, w') =>
               match cleanup w' with
               | (Ok _, w'') => (r, w'')
               | (Raise e, w'') => (Raise e, w'')
               end
           end.

Definition emit (ev : Event) : M unit :=
  modify (fun w => set_trace (trace w ++ [ev]) w).

(** [m] never changes the component [f] of the world. *)
Definition preserves {A B} (f : World -> B) (m : M A) : Prop :=
  forall w, f (snd (m w)) = f w.
End WorldDef.

Declare Scope monad_scope.
Delimit Scope monad_scope with monad.
Notation "'let*' x ':=' m 'in' k" := (bind m (fun x => k))
  (at level 10, x name, m at level 100, k at level 200) : monad_scope.
Notation "m '>>' k" := (bind m (fun _ => k))
  (at level 100, k at level 200, right associativity) : monad_scope.
Local Open Scope monad_scope.

(** ** Files *)

Section Os.
Context `{RT : Runtime}.

Definition os_path_exists (path : string) : M bool :=
  gets (fun w => bool_decide (is_Some (files w !! path))).

(** [os.path.join] of a directory and a relative name. *)
Definition os_path_join (dir name : string) : string := dir +:+ "/" +:+ name.

(** [with open(path, "wb") as f: shutil.copyfileobj(src, f)] *)
Definition write_file (path content : string) : M unit :=
  emit (EvWrite path) >>
  modify (fun w => set_files (<[path := content]> (files w)) w).

(** [shutil.move(src, dst)] between two file names. *)
Definition shutil_move (src dst : string) : M string :=
  emit (EvMove src dst) >>
  match os_fault (SysMove src dst) with
  | Some e => raise e
  | None =>
      let* fs := gets files in
      match fs !! src with
      | None => raise (no_such_file src)
      | Some content =>
          modify (fun w => set_files (<[dst := content]> (delete src (files w))) w) >>
          ret dst
      end
  end.

(** [os.remove(path)], which is also [os.unlink(path)]. *)
Definition os_remove (path : string) : M unit :=
  emit (EvRemove path) >>
  match os_fault (SysRemove path) with
  | Some e => raise e
  | None =>
      let* fs := gets files in
      match fs !! path with
      | None => raise (no_such_file path)
      | Some _ => modify (fun w => set_files (delete path (files w)) w)
      end
  end.
End Os.

(** ** [backend/models/model_loader.py] and the two loaders *)

Module ModelManager.
Section Defs.
Context `{RT : Runtime}.

(** [ModelManager.__init__] *)
Definition init (device : string) : ModelManager :=
  let device :=
    if String.eqb device "auto"
    then (if cuda_is_available then "cuda" else "cpu")
    else device in
  mkManager device ∅ None None.

Definition _get_default_model_path (model_name : string) : result string :=
  if String.eqb model_name "motion_clone"
  then Ok (base_dir +:+ "/models/motion_clone/checkpoint.pth")
  else if String.eqb model_name "fomm"
  then Ok (base_dir +:+ "/models/fomm/vox-cpk.pth.tar")
  else Raise (ValueError ("Unknown model: " +:+ model_name)).

(** The name [os] in [motion_clone.py] and [fomm_model.py]: neither
    module imports [os], so looking the name up raises [NameError]. *)
Definition os_in_model_module : result unit :=
  Raise (NameError "name 'os' is not defined").

(** [load_motion_clone_model] and [load_fomm_model] differ in the class
    they construct only: build the object, ask [os.path.exists] for the
    checkpoint, read it if the file is there, move to the device.  The
    look-up of [os] raises, so the statements after it never run. *)
Definition load_checkpoint_model (cls : ModelClass)
    (model_path device : string) : M Model :=
  let* n := gets next_obj in
  modify (set_next_obj (S n)) >>                     (* model = Cls(config) *)
  let* _ := lift os_in_model_module in               (* os.path.exists *)
  let* fs := gets files in
  let* ckpt :=
    match fs !! model_path with
    | Some bytes =>
        emit (EvTorchLoad model_path) >>
        match torch_load_state cls bytes with
        | Some e => raise e
        | None => ret (Some model_path)
        end
    | None => ret None                               (* random weights *)
    end in
  match torch_to device with
  | Some e => raise e
  | None => ret (mkModel n cls ckpt device)
  end.

Definition load_motion_clone_model := load_checkpoint_model MotionClonePredictor.
Definition load_fomm_model := load_checkpoint_model FOMMPredictor.

Definition set_loaded (name : string) (m : Model) (mm : ModelManager) :=
  mkManager (mm_device mm) (<[name := m]> (loaded_models mm))
            (current_model mm) (current_model_name mm).

Definition load_model (model_name : string) (model_path : option string)
    : M Model :=
  let* mm := gets model_manager in
  match loaded_models mm !! model_name with
  | Some m => ret m                                  (* already loaded *)
  | None =>
      let* model_path :=
        match model_path with
        | None => lift (_get_default_model_path model_name)
        | Some p => ret p
        end in
      let* present := os_path_exists model_path in
      if negb present
      then raise (FileNotFoundError ("Model not found at " +:+ model_path))
      else
        let* m :=
          (if String.eqb model_name "motion_clone"
           then load_motion_clone_model model_path (mm_device mm)
           else if String.eqb model_name "fomm"
           then load_fomm_model model_path (mm_device mm)
           else raise (ValueError ("Unknown model: " +:+ model_name))) in
        modify (fun w => set_model_manager
                           (set_loaded model_name m (model_manager w)) w) >>
        ret m
  end.

Definition set_current_model (model_name : string) : M Model :=
  let* mm := gets model_manager in
  (if bool_decide (is_Some (loaded_models mm !! model_name))
   then ret tt
   else let* _ := load_model model_name None in ret tt) >>
  let* mm := gets model_manager in
  match loaded_models mm !! model_name with
  | None => raise (KeyError model_name)
  | Some m =>
      modify (set_model_manager
                (mkManager (mm_device mm) (loaded_models mm)
                           (Some m) (Some model_name))) >>
      ret m
  end.

Definition get_current_model : M (option Model) :=
  gets (fun w => current_model (model_manager w)).

Definition unload_model (model_name : string) : M unit :=
  let* mm := gets model_manager in
  if bool_decide (is_Some (loaded_models mm !! model_name)) then
    let loaded := delete model_name (loaded_models mm) in
    if bool_decide (current_model_name mm = Some model_name)
    then modify (set_model_manager (mkManager (mm_device mm) loaded None None))
    else modify (set_model_manager
                   (mkManager (mm_device mm) loaded
                              (current_model mm) (current_model_name mm)))
  else ret tt.

(** [get_available_models]: the known models whose default checkpoint is
    on disk, with the path of each. *)
Definition get_available_models : M (gmap string string) :=
  let models : gmap string string := ∅ in
  let* motion_clone_path := lift (_get_default_model_path "motion_clone") in
  let* present := os_path_exists motion_clone_path in
  let models :=
    if present then <["motion_clone" := motion_clone_path]> models
    else models in
  let* fomm_path := lift (_get_default_model_path "fomm") in
  let* present := os_path_exists fomm_path in
  let models :=
    if present then <["fomm" := fomm_path]> models else models in
  ret models.
End Defs.
End ModelManager.

(** ** [backend/inference/predictor.py] *)

(** A value of the dictionary [benchmark_performance] returns. *)
Inductive Value `{RT : Runtime} : Type :=
  | VFloat (x : PyFloat)
  | VInt (z : Z)
  | VStr (s : string).

Module Motion3DPredictor.
Section Defs.
Context `{RT : Runtime}.

(** [Motion3DPredictor.__init__]: the manager is the singleton of the
    world; [self.device] keeps the string it was given. *)
Definition init (model_name device : string) : M Predictor :=
  let* m := ModelManager.load_model model_name None in
  ret (mkPredictor (Some m) model_name device).

(** [tensor.to(self.device)] *)
Definition to_device {A} (device : string) (t : A) : M A :=
  match torch_to device with
  | Some e => raise e
  | None => ret t
  end.

Definition preprocess_image (self : Predictor) (image_path : string)
    : M Tensor :=
  emit (EvImageOpen image_path) >>
  let* fs := gets files in
  match fs !! image_path with
  | None => raise (no_such_file image_path)
  | Some bytes =>
      let* image := lift (Image_open_RGB bytes) in
      to_device (device self) (transform image)
  end.

Definition frame_tensor (frame : Frame) : Tensor :=
  transform (Image_fromarray (cvtColor_BGR2RGB frame)).

(** The loop [while cap.isOpened() and frame_count < max_frames:] of
    [preprocess_video], entered with the capture opened. *)
Fixpoint preprocess_loop (max_frames : Z) (pend : list Frame)
    (frames : list Tensor) (frame_count : Z) : list Tensor :=
  if frame_count <? max_frames then
    match pend with
    | [] => frames                                 (* not ret: break *)
    | frame :: rest =>
        preprocess_loop max_frames rest
          (frames ++ [frame_tensor frame]) (frame_count + 1)
    end
  else frames.

(** The decoding of [preprocess_video] on an opened capture: the frame
    list, or the [ValueError] of an empty one. *)
Definition decode_frames (cap : VideoCapture Frame) (max_frames : Z)
    : result (list Tensor) :=
  let frames :=
    if isOpened cap then preprocess_loop max_frames (pending cap) [] 0
    else [] in
  match frames with
  | [] => Raise (ValueError "No frames could be extracted from video")
  | _ => Ok frames
  end.

(** [cv2.VideoCapture(video_path)]: a missing file gives a capture that is
    not opened. *)
Definition capture_at (fs : gmap string string) (video_path : string)
    : VideoCapture Frame :=
  match fs !! video_path with
  | None => mkCapture false []
  | Some bytes => VideoCapture_of bytes
  end.

Definition open_capture (video_path : string) : M (VideoCapture Frame) :=
  emit (EvVideoCapture video_path) >>
  let* fs := gets files in
  ret (capture_at fs video_path).

(** [preprocess_video]; the tensor [1, T, 3, H, W] is the list of its
    [T] frames. *)
Definition preprocess_video (self : Predictor) (video_path : string)
    (max_frames : Z) : M (list Tensor) :=
  let* cap := open_capture video_path in
  let* video_tensor := lift (decode_frames cap max_frames) in
  to_device (device self) video_tensor.

Definition default_max_frames : Z := 100.

(** [self.model(source_tensor, driving_tensor)] *)
Definition call_model (self : Predictor) (source : Tensor)
    (driving : list Tensor) : M (list Tensor) :=
  match model self with
  | None => raise (TypeError "'NoneType' object is not callable")
  | Some m =>
      emit (EvForward m source driving) >>
      lift (forward m source driving)
  end.

Definition _get_default_output_path (self : Predictor)
    (source_image_path driving_video_path : string) : string :=
  let source_name := fst (splitext (basename source_image_path)) in
  let driving_name := fst (splitext (basename driving_video_path)) in
  "data/examples/results/" +:+ source_name +:+ "_" +:+ driving_name
    +:+ "_" +:+ model_name self +:+ ".mp4".

Definition _save_output_video (output_tensor : list Tensor)
    (output_path : string) : M unit :=
  let frame_list := map to_uint8_frame output_tensor in
  emit (EvMimsave output_path) >>
  match imageio_mimsave frame_list with
  | Written content =>
      modify (fun w => set_files (<[output_path := content]> (files w)) w)
  | WriteFailed e partial =>
      match partial with
      | Some content =>
          modify (fun w => set_files (<[output_path := content]> (files w)) w)
      | None => ret tt
      end >>
      raise e
  end.

(** [generate_motion]; [output_path or default] takes the default for
    [None] and for the empty string. *)
Definition generate_motion (self : Predictor)
    (source_image_path driving_video_path : string)
    (output_path : option string) : M string :=
  let* source_tensor := preprocess_image self source_image_path in
  let* driving_tensor :=
    preprocess_video self driving_video_path default_max_frames in
  let* output_tensor := call_model self source_tensor driving_tensor in
  let output_path :=
    match output_path with
    | Some p => if String.eqb p "" then
                  _get_default_output_path self source_image_path driving_video_path
                else p
    | None => _get_default_output_path self source_image_path driving_video_path
    end in
  _save_output_video output_tensor output_path >>
  ret output_path.

(** [time.time()] *)
Definition time : M PyFloat :=
  let* n := gets clock_reads in
  modify (set_clock_reads (S n)) >>
  ret (time_time n).

(** The body of [for i in range(num_runs):], run [n] more times. *)
Fixpoint benchmark_loop (self : Predictor) (source : Tensor)
    (driving : list Tensor) (n : nat) (times : list PyFloat)
    : M (list PyFloat) :=
  match n with
  | O => ret times
  | S n' =>
      let* start_time := time in
      let* _ := call_model self source driving in
      let* end_time := time in
      benchmark_loop self source driving n'
        (times ++ [float_sub end_time start_time])
  end.

(** Python's [min] and [max] on a list. *)
Fixpoint min_from (best : PyFloat) (l : list PyFloat) : PyFloat :=
  match l with
  | [] => best
  | x :: r => min_from (if float_lt x best then x else best) r
  end.
Fixpoint max_from (best : PyFloat) (l : list PyFloat) : PyFloat :=
  match l with
  | [] => best
  | x :: r => max_from (if float_lt best x then x else best) r
  end.
Definition py_min (l : list PyFloat) : result PyFloat :=
  match l with
  | [] => Raise (ValueError "min() arg is an empty sequence")
  | x :: r => Ok (min_from x r)
  end.
Definition py_max (l : list PyFloat) : result PyFloat :=
  match l with
  | [] => Raise (ValueError "max() arg is an empty sequence")
  | x :: r => Ok (max_from x r)
  end.

(** The durations [benchmark_loop] measures in [n] runs when the clock
    has been read [c] times before: each run reads it twice. *)
Fixpoint run_times (c n : nat) : list PyFloat :=
  match n with
  | O => []
  | S n' => float_sub (time_time (S c)) (time_time c) :: run_times (S (S c)) n'
  end.

Definition benchmark_performance (self : Predictor)
    (test_image test_video : string) (num_runs : Z)
    : M (list (string * Value)) :=
  let* source_tensor := preprocess_image self test_image in
  let* driving_tensor :=
    preprocess_video self test_video default_max_frames in
  let* times :=
    benchmark_loop self source_tensor driving_tensor (Z.to_nat num_runs) [] in
  let avg_time := np_mean times in
  let input_frames := Z.of_nat (length driving_tensor) in
  let fps := int_div_float input_frames avg_time in
  let* min_time := lift (py_min times) in
  let* max_time := lift (py_max times) in
  ret [ ("avg_time_seconds", VFloat avg_time);
        ("min_time_seconds", VFloat min_time);
        ("max_time_seconds", VFloat max_time);
        ("fps", VFloat fps);
        ("model_name", VStr (model_name self));
        ("input_frames", VInt input_frames);
        ("device", VStr (device self)) ].
End Defs.
End Motion3DPredictor.

(** ** [backend/inference/api.py] *)

(** A FastAPI [UploadFile]. *)
Record UploadFile : Type := mkUpload {
  filename : string;
  content_type : string;
  file : string
}.

Record MotionResponse : Type := mkMotionResponse {
  resp_task_id : string;
  resp_status : string;
  resp_output_path : option string;
  resp_error : option string
}.

(** The fields the class [BenchmarkResult] declares. *)
Record BenchmarkResult `{RT : Runtime} : Type := mkBenchmarkResult {
  avg_time_seconds : PyFloat;
  fps : PyFloat;
  bench_model_name : string;
  bench_device : string
}.
Arguments mkBenchmarkResult {RT} _ _ _ _.

(** The local variables of [process_motion_transfer] that are assigned
    from a call: [result_path]. *)
Definition Locals : Type := option string.

(** A call of [process_motion_transfer] under way: its arguments, the
    statement it is at and its locals. *)
Record Worker : Type := mkWorker {
  worker_job : Job;
  worker_pc : nat;
  worker_locals : Locals
}.

(** The class [ModelInfo]. *)
Record ModelInfo : Type := mkModelInfo {
  info_name : string;
  info_device : string;
  info_parameters : Z;
  info_size_mb : Z;
  info_available : bool
}.

(** The dictionary [health_check] returns. *)
Record Health : Type := mkHealth {
  health_status : string;
  predictor_loaded : bool;
  health_device : option string
}.

Module Api.
Section Defs.
Context `{RT : Runtime}.

Definition UPLOAD_DIR : string := "uploads".
Definition RESULTS_DIR : string := "results".

Definition startswith (s pre : string) : bool := String.prefix pre s.

Definition no_predictor {A} : M A :=
  raise (HTTPException 503 "No models loaded").

(** [predictor.<attr>] on the global: [None] has no attributes. *)
Definition the_predictor (attr : string) : M Predictor :=
  let* p := gets predictor in
  match p with
  | Some p => ret p
  | None => raise (AttributeError
                     ("'NoneType' object has no attribute '" +:+ attr +:+ "'"))
  end.

(** The three statements that switch the predictor to [name]. *)
Definition switch_predictor (name : string) : M unit :=
  let* _ := the_predictor "model_manager" in
  let* _ := ModelManager.set_current_model name in
  let* cur := ModelManager.get_current_model in
  let* p := the_predictor "model" in
  modify (set_predictor (Some (mkPredictor cur (model_name p) (device p)))) >>
  let* p := the_predictor "model_name" in
  modify (set_predictor (Some (mkPredictor (model p) name (device p)))).

(** [if predictor.model_name != model_name: ...] *)
Definition switch_if_needed (name : string) : M unit :=
  let* p := the_predictor "model_name" in
  if String.eqb (model_name p) name then ret tt else switch_predictor name.

(** [POST /model/switch/{model_name}] *)
Definition switch_model (name : string) : M string :=
  let* p := gets predictor in
  match p with
  | None => no_predictor
  | Some _ =>
      if negb (String.eqb name "motion_clone" || String.eqb name "fomm")
      then raise (HTTPException 400 "Invalid model name")
      else
        try_except
          (switch_predictor name >> ret ("Switched to " +:+ name))
          (fun e => raise (HTTPException 500 (str e)))
  end.

Definition source_path_of (task_id : string) (up : UploadFile) : string :=
  os_path_join UPLOAD_DIR (task_id +:+ "_source" +:+ snd (splitext (filename up))).
Definition driving_path_of (task_id : string) (up : UploadFile) : string :=
  os_path_join UPLOAD_DIR (task_id +:+ "_driving" +:+ snd (splitext (filename up))).
Definition output_path_of (task_id : string) : string :=
  os_path_join RESULTS_DIR (task_id +:+ "_output.mp4").
Definition final_path_of (task_id : string) : string :=
  os_path_join RESULTS_DIR (task_id +:+ ".mp4").

Definition set_task (task_id : string) (t : Task) : M unit :=
  modify (fun w => set_current_tasks (<[task_id := t]> (current_tasks w)) w).

(** [current_tasks[task_id][key] = value]: a [KeyError] when the task is
    not in the table. *)
Definition update_task (task_id : string) (f : Task -> Task) : M unit :=
  let* ts := gets current_tasks in
  match ts !! task_id with
  | None => raise (KeyError task_id)
  | Some t => set_task task_id (f t)
  end.

Definition with_status (s : string) (t : Task) : Task :=
  mkTask s (progress t) (output_path t) (error t).
Definition with_progress (p : Z) (t : Task) : Task :=
  mkTask (status t) p (output_path t) (error t).

(** [POST /generate]; [task_id] is the value of [str(uuid.uuid4())]. *)
Definition generate_motion (task_id : string)
    (source_image driving_video : UploadFile) (name : string)
    : M MotionResponse :=
  let* p := gets predictor in
  match p with
  | None => no_predictor
  | Some _ =>
      if negb (startswith (content_type source_image) "image/")
      then raise (HTTPException 400 "Source file must be an image")
      else if negb (startswith (content_type driving_video) "video/")
      then raise (HTTPException 400 "Driving file must be a video")
      else
        let source_path := source_path_of task_id source_image in
        let driving_path := driving_path_of task_id driving_video in
        write_file source_path (file source_image) >>
        write_file driving_path (file driving_video) >>
        set_task task_id (mkTask "processing" 0 None None) >>
        modify (fun w => set_scheduled
                  (scheduled w ++ [mkJob task_id source_path driving_path name]) w) >>
        ret (mkMotionResponse task_id "processing" None None)
  end.

(** The statements of the [try] block of [process_motion_transfer], one
    list element each (the model switch counts as one), for the event loop
    to run them one at a time. *)
Definition stages (j : Job) : list (Locals -> M Locals) :=
  let task_id := job_task_id j in
  [ (fun l => update_task task_id (with_status "processing") >> ret l);
    (fun l => update_task task_id (with_progress 25) >> ret l);
    (fun l => switch_if_needed (job_model_name j) >> ret l);
    (fun l => update_task task_id (with_progress 50) >> ret l);
    (fun l => let* p := the_predictor "generate_motion" in
              let* result_path :=
                Motion3DPredictor.generate_motion p (job_source_path j)
                  (job_driving_path j) (Some (output_path_of task_id)) in
              ret (Some result_path));
    (fun l => update_task task_id (with_progress 75) >> ret l);
    (fun l => match l with
              | None => raise (RuntimeError "local variable 'result_path' referenced before assignment")
              | Some result_path =>
                  shutil_move result_path (final_path_of task_id) >> ret l
              end);
    (fun l => os_remove (job_source_path j) >> ret l);
    (fun l => os_remove (job_driving_path j) >> ret l);
    (fun l => set_task task_id
                (mkTask "completed" 100 (Some (final_path_of task_id)) None) >>
              ret l) ].

(** The [except Exception as e:] block. *)
Definition on_exception (j : Job) (e : exn) : M unit :=
  set_task (job_task_id j) (mkTask "error" 0 None (Some (str e))).

Fixpoint run_stages (ss : list (Locals -> M Locals)) (l : Locals) : M Locals :=
  match ss with
  | [] => ret l
  | s :: ss' => let* l' := s l in run_stages ss' l'
  end.

(** [process_motion_transfer], as it is written: the [try] block and its
    [except] block. *)
Definition process_motion_transfer (j : Job) : M unit :=
  let task_id := job_task_id j in
  try_except
    (update_task task_id (with_status "processing") >>
     update_task task_id (with_progress 25) >>
     let output_path := output_path_of task_id in
     switch_if_needed (job_model_name j) >>
     update_task task_id (with_progress 50) >>
     let* p := the_predictor "generate_motion" in
     let* result_path :=
       Motion3DPredictor.generate_motion p (job_source_path j)
         (job_driving_path j) (Some output_path) in
     update_task task_id (with_progress 75) >>
     let final_path := final_path_of task_id in
     let* _ := shutil_move result_path final_path in
     os_remove (job_source_path j) >>
     os_remove (job_driving_path j) >>
     set_task task_id (mkTask "completed" 100 (Some final_path) None))
    (on_exception j).

(** The same, statement by statement. *)
Definition process_motion_transfer_staged (j : Job) : M unit :=
  try_except (run_stages (stages j) None >> ret tt) (on_exception j).

(** One statement of a worker; [None] when the call has returned. *)
Definition worker_step (wk : Worker) : M (option Worker) :=
  match stages (worker_job wk) !! worker_pc wk with
  | None => ret None
  | Some stage =>
      try_except
        (let* l' := stage (worker_locals wk) in
         if bool_decide (S (worker_pc wk) < length (stages (worker_job wk)))%nat
         then ret (Some (mkWorker (worker_job wk) (S (worker_pc wk)) l'))
         else ret None)
        (fun e => on_exception (worker_job wk) e >> ret None)
  end.

(** A worker run to its end, one statement at a time. *)
Fixpoint run_worker (fuel : nat) (wk : Worker) : M unit :=
  match fuel with
  | O => ret tt
  | S fuel' =>
      let* next := worker_step wk in
      match next with
      | None => ret tt
      | Some wk' => run_worker fuel' wk'
      end
  end.

(** [GET /task/{task_id}] *)
Definition get_task_status (task_id : string) : M Task :=
  let* ts := gets current_tasks in
  match ts !! task_id with
  | None => raise (HTTPException 404 "Task not found")
  | Some t => ret t
  end.

(** [GET /download/{task_id}]: the path handed to [FileResponse]. *)
Definition download_result (task_id : string) : M string :=
  let* ts := gets current_tasks in
  match ts !! task_id with
  | None => raise (HTTPException 404 "Task not found")
  | Some task =>
      if negb (String.eqb (status task) "completed")
      then raise (HTTPException 400 "Task not completed")
      else
        match output_path task with
        | None => raise (KeyError "output_path")
        | Some path =>
            let* present := os_path_exists path in
            if negb present
            then raise (HTTPException 404 "Output file not found")
            else ret path
        end
  end.

(** [DELETE /task/{task_id}] *)
Definition cleanup_task (task_id : string) : M string :=
  let* ts := gets current_tasks in
  match ts !! task_id with
  | None => raise (HTTPException 404 "Task not found")
  | Some task =>
      match output_path task with
      | Some path =>
          let* present := os_path_exists path in
          if present then os_remove path else ret tt
      | None => ret tt
      end >>
      modify (fun w => set_current_tasks (delete task_id (current_tasks w)) w) >>
      ret "Task cleaned up successfully"
  end.

(** [GET /tasks] *)
Definition list_tasks : M (gmap string Task) := gets current_tasks.

(** A keyword argument of the call of [BenchmarkResult] on the unpacked
    dictionary [results]. *)
Fixpoint dict_get (d : list (string * Value)) (key : string) : option Value :=
  match d with
  | [] => None
  | (k, v) :: d' => if String.eqb k key then Some v else dict_get d' key
  end.

Definition float_field (d : list (string * Value)) (key : string)
    : result PyFloat :=
  match dict_get d key with
  | Some (VFloat x) => Ok x
  | _ => Raise (ValueError ("validation error for BenchmarkResult: " +:+ key))
  end.
Definition str_field (d : list (string * Value)) (key : string)
    : result string :=
  match dict_get d key with
  | Some (VStr x) => Ok x
  | _ => Raise (ValueError ("validation error for BenchmarkResult: " +:+ key))
  end.

(** The constructor call on the unpacked dictionary: the declared fields are read from the
    keyword arguments, the other keywords are ignored (pydantic's
    default). *)
Definition BenchmarkResult_init (d : list (string * Value))
    : result BenchmarkResult :=
  match float_field d "avg_time_seconds", float_field d "fps",
        str_field d "model_name", str_field d "device" with
  | Ok a, Ok f, Ok m, Ok dv => Ok (mkBenchmarkResult a f m dv)
  | Raise e, _, _, _ | _, Raise e, _, _
  | _, _, Raise e, _ | _, _, _, Raise e => Raise e
  end.

(** The JSON object sent for a [BenchmarkResult]. *)
Definition BenchmarkResult_json (r : BenchmarkResult)
    : list (string * Value) :=
  [ ("avg_time_seconds", VFloat (avg_time_seconds r));
    ("fps", VFloat (fps r));
    ("model_name", VStr (bench_model_name r));
    ("device", VStr (bench_device r)) ].

(** [POST /benchmark]; [tmp_source] and [tmp_driving] are the names the
    two [NamedTemporaryFile]s get. *)
Definition benchmark_model (tmp_source tmp_driving : string)
    (source_image driving_video : UploadFile) (name : string)
    (num_runs : Z) : M BenchmarkResult :=
  let* p := gets predictor in
  match p with
  | None => no_predictor
  | Some _ =>
      write_file tmp_source (file source_image) >>
      write_file tmp_driving (file driving_video) >>
      try_finally
        (switch_if_needed name >>
         let* p := the_predictor "benchmark_performance" in
         let* results :=
           Motion3DPredictor.benchmark_performance p tmp_source tmp_driving
             num_runs in
         lift (BenchmarkResult_init results))
        (os_remove tmp_source >> os_remove tmp_driving)
  end.

(** The world once [benchmark_model] has written its two temporary
    files. *)
Definition uploaded (tmp_source tmp_driving : string)
    (source_image driving_video : UploadFile) (w : World) : World :=
  snd ((write_file tmp_source (file source_image) >>
        write_file tmp_driving (file driving_video)) w).

(** [startup_event]: the default model, [fomm] as the fallback, no
    predictor if both fail. *)
Definition startup_event : M unit :=
  try_except
    (let* p := Motion3DPredictor.init "motion_clone" "auto" in
     modify (set_predictor (Some p)))
    (fun _ =>
       try_except
         (let* p := Motion3DPredictor.init "fomm" "auto" in
          modify (set_predictor (Some p)))
         (fun _ => modify (set_predictor None))).

(** [result_path] is unassigned or the output path of the job. *)
Definition ok_locals (j : Job) (l : Locals) : Prop :=
  l = None ∨ l = Some (output_path_of (job_task_id j)).

(** A statement of the worker of [j] that leaves the file at [p] alone. *)
Definition spares (j : Job) (p : string) (stage : Locals → M Locals) : Prop :=
  ∀ l w, ok_locals j l →
    files (snd (stage l w)) !! p = files w !! p ∧
    ∀ l', fst (stage l w) = Ok l' → ok_locals j l'.

(** The content-type check of [generate_motion]. *)
Definition valid_uploads (source_image driving_video : UploadFile) : bool :=
  startswith (content_type source_image) "image/" &&
  startswith (content_type driving_video) "video/".

(** Statement number [k] of the worker raises [e], the earlier ones
    having run through. *)
Definition fails_at (j : Job) (w : World) (k : nat) (e : exn) : Prop :=
  ∃ l wk stage,
    run_stages (take k (stages j)) None w = (Ok l, wk) ∧
    stages j !! k = Some stage ∧
    fst (stage l wk) = Raise e.

(** The world when statement [k] has raised. *)
Definition world_at_failure (j : Job) (w : World) (k : nat) : World :=
  match run_stages (take k (stages j)) None w with
  | (Ok l, wk) =>
      match stages j !! k with
      | Some stage => snd (stage l wk)
      | None => wk
      end
  | (Raise _, wk) => wk
  end.

(** [GET /health] *)
Definition health_check : M Health :=
  let* p := gets predictor in
  ret (mkHealth "healthy"
         (bool_decide (is_Some p))
         (match p with Some p => Some (device p) | None => None end)).

(** [GET /models]: one entry for each of the two names, in that order. *)
Definition get_available_models : M (list ModelInfo) :=
  let* p := gets predictor in
  match p with
  | None => no_predictor
  | Some _ =>
      let* model_manager := gets model_manager in
      let* available_models := ModelManager.get_available_models in
      ret (map (fun model_name =>
                  mkModelInfo model_name (mm_device model_manager) 0 0
                    (bool_decide (is_Some (available_models !! model_name))))
               ["motion_clone"; "fomm"])
  end.
End Defs.
End Api.

(** ** The server at run time

    FastAPI runs the endpoints and, after a response, the background tasks
    that were added.  The transition system below lets the statements of
    every started [process_motion_transfer] interleave with the endpoints
    and with each other, which covers every schedule of the event loop. *)

Module EventLoop.
Section Defs.
Context `{RT : Runtime}.

Record System : Type := mkSystem {
  world : World;
  workers : list Worker;              (* calls under way *)
  issued : list string                (* the values uuid4 has returned *)
}.

Inductive Op : Type :=
  | OpGenerate (task_id : string) (source_image driving_video : UploadFile)
               (name : string)
  | OpStart (i : nat)                 (* the i-th scheduled job starts *)
  | OpStage (i : nat)                 (* the i-th worker runs a statement *)
  | OpStatus (task_id : string)
  | OpDownload (task_id : string)
  | OpList
  | OpCleanup (task_id : string)
  | OpSwitch (name : string)
  | OpBenchmark (tmp_source tmp_driving : string)
                (source_image driving_video : UploadFile) (name : string)
                (num_runs : Z).

Definition after {A} (m : M A) (s : System) : System :=
  mkSystem (snd (m (world s))) (workers s) (issued s).

(** One operation; [None] when it cannot happen ([uuid4] never repeats a
    value, and only existing jobs and workers run). *)
Definition step (op : Op) (s : System) : option System :=
  match op with
  | OpGenerate task_id src drv name =>
      if bool_decide (task_id ∈ issued s) then None
      else
        let s' := after (Api.generate_motion task_id src drv name) s in
        Some (mkSystem (world s') (workers s') (task_id :: issued s))
  | OpStart i =>
      match scheduled (world s) !! i with
      | None => None
      | Some j =>
          Some (mkSystem
                  (set_scheduled (delete i (scheduled (world s))) (world s))
                  (workers s ++ [mkWorker j 0 None]) (issued s))
      end
  | OpStage i =>
      match workers s !! i with
      | None => None
      | Some wk =>
          match Api.worker_step wk (world s) with
          | (Ok (Some wk'), w') =>
              Some (mkSystem w' (<[i := wk']> (workers s)) (issued s))
          | (_, w') =>
              Some (mkSystem w' (delete i (workers s)) (issued s))
          end
      end
  | OpStatus task_id => Some (after (Api.get_task_status task_id) s)
  | OpDownload task_id => Some (after (Api.download_result task_id) s)
  | OpList => Some (after Api.list_tasks s)
  | OpCleanup task_id => Some (after (Api.cleanup_task task_id) s)
  | OpSwitch name => Some (after (Api.switch_model name) s)
  | OpBenchmark ts td src drv name n =>
      Some (after (Api.benchmark_model ts td src drv name n) s)
  end.

Fixpoint run (ops : list Op) (s : System) : option System :=
  match ops with
  | [] => Some s
  | op :: ops' =>
      match step op s with
      | Some s' => run ops' s'
      | None => None
      end
  end.

(** The server as it starts: no task, nothing scheduled, nothing under
    way. *)
Definition initial (s : System) : Prop :=
  current_tasks (world s) = ∅ ∧ scheduled (world s) = [] ∧
  workers s = [] ∧ issued s = [].

Definition reachable (s : System) : Prop :=
  ∃ s0 ops, initial s0 ∧ run ops s0 = Some s.

Definition task_status (s : System) (task_id : string) : option string :=
  status <$> current_tasks (world s) !! task_id.

(** The statuses the code never leaves: ["completed"] and ["error"]. *)
Definition terminal (st : string) : Prop := st = "completed" ∨ st = "error".

(** The tasks whose call of [process_motion_transfer] is under way or
    still to start. *)
Definition pending_ids (s : System) : list string :=
  ((λ wk, job_task_id (worker_job wk)) <$> workers s) ++
  (job_task_id <$> scheduled (world s)).

(** The task is absent from the table or has status ["processing"]. *)
Definition in_progress (w : World) (task_id : string) : Prop :=
  ∀ t, current_tasks w !! task_id = Some t → status t = "processing".

(** An action of the worker of [task_id] writes the task table at
    [task_id] only, and schedules nothing. *)
Definition local_to (task_id : string) {A} (m : M A) : Prop :=
  ∀ w, scheduled (snd (m w)) = scheduled w ∧
       ∀ id, id ≠ task_id →
             current_tasks (snd (m w)) !! id = current_tasks w !! id.

(** An action that leaves a task in progress in progress. *)
Definition keeps_in_progress (task_id : string) {A} (m : M A) : Prop :=
  ∀ w, in_progress w task_id → in_progress (snd (m w)) task_id.

(** What holds in every reachable state: a task has at most one call,
    every task id came from [uuid4], and a task with a call under way or
    to come is absent or ["processing"]. *)
Record invariant (s : System) : Prop := mkInvariant {
  inv_nodup : NoDup (pending_ids s);
  inv_pending_issued : ∀ id, id ∈ pending_ids s → id ∈ issued s;
  inv_tasks_issued :
    ∀ id, is_Some (current_tasks (world s) !! id) → id ∈ issued s;
  inv_pending_status : ∀ id, id ∈ pending_ids s → in_progress (world s) id
}.
End Defs.
End EventLoop.

(** The model manager under its three operations. *)
Module Registry.
Section Defs.
Context `{RT : Runtime}.

Inductive Op : Type :=
  | Load (name : string) (path : option string)
  | SetCurrent (name : string)
  | Evict (name : string).

Definition step (op : Op) (w : World) : World :=
  match op with
  | Load name path => snd (ModelManager.load_model name path w)
  | SetCurrent name => snd (ModelManager.set_current_model name w)
  | Evict name => snd (ModelManager.unload_model name w)
  end.

Definition run (ops : list Op) (w : World) : World :=
  fold_left (fun w op => step op w) ops w.

Definition reachable (w : World) : Prop :=
  ∃ w0 dev ops,
    model_manager w0 = ModelManager.init dev ∧ w = run ops w0.

(** [get_current_model()] is [None] or a model of [loaded_models]. *)
Definition current_in_cache (mm : ModelManager) : Prop :=
  match current_model mm with
  | None => True
  | Some m => ∃ name, loaded_models mm !! name = Some m
  end.

(** A model that cannot be brought in: it is not in the cache, and its
    name has no default checkpoint path (an unknown name) or no file is
    at that path. *)
Definition cannot_load (name : string) (w : World) : Prop :=
  loaded_models (model_manager w) !! name = None ∧
  ∀ path, ModelManager._get_default_model_path name = Ok path →
          files w !! path = None.

(** The names the endpoint [/model/switch] accepts. *)
Definition known (name : string) : bool :=
  String.eqb name "motion_clone" || String.eqb name "fomm".

(** The two [current_*] fields agree with the cache. *)
Definition consistent (mm : ModelManager) : Prop :=
  match current_model_name mm with
  | None => current_model mm = None
  | Some name =>
      is_Some (current_model mm) ∧
      loaded_models mm !! name = current_model mm
  end.
End Defs.
End Registry.

(** ** What the server keeps true *)

Module Server.
Section Defs.
Context `{RT : Runtime}.

(** The three dictionaries [api.py] writes into [current_tasks]: the one
    of a task under way (status and progress only), the one of a finished
    task (with its output path) and the one of a failed task (with the
    error text). *)
Definition well_formed (task_id : string) (t : Task) : Prop :=
  (status t = "processing" ∧ progress t ∈ [0; 25; 50; 75] ∧
   output_path t = None ∧ error t = None) ∨
  t = mkTask "completed" 100 (Some (Api.final_path_of task_id)) None ∨
  ∃ msg, t = mkTask "error" 0 None (Some msg).

(** The model the predictor runs is the one the manager caches under
    [predictor.model_name]. *)
Definition agrees (w : World) : Prop :=
  ∀ p, predictor w = Some p →
       is_Some (model p) ∧
       loaded_models (model_manager w) !! model_name p = model p.

(** The calls of the model in a trace. *)
Definition forwards (t : list Event) : list Model :=
  omap (λ ev, match ev with EvForward m _ _ => Some m | _ => None end) t.
End Defs.
End Server.

(** ** [ImageProcessor] and [FileValidator] of
       [backend/utils/video_processing.py] *)

(** An [ndarray] of shape [(height, width, ...)]: its first two dimensions
    and the entry at a row and a column. *)
Record ndarray (A : Type) : Type := mkArray {
  arr_height : Z;
  arr_width : Z;
  arr_at : Z → Z → A
}.
Arguments mkArray {A} _ _ _.
Arguments arr_height {A} _.
Arguments arr_width {A} _.
Arguments arr_at {A} _ _ _.

Module ImageProcessor.
Section Crop.
Context {A : Type}.

(** A bound of the slice [a[start:stop]] on an axis of length [n], as
    Python adjusts it: a negative bound counts from the end, and both
    bounds are clipped to [0, n]. *)
Definition adjust (n i : Z) : Z :=
  if i <? 0 then (if i + n <? 0 then 0 else i + n)
  else if n <=? i then n else i.

(** [a[start:stop]]: the first index kept and how many are kept. *)
Definition slice (n start stop : Z) : Z * Z :=
  let lo := adjust n start in
  let hi := adjust n stop in
  (lo, if lo <? hi then hi - lo else 0).

(** [image[y0:y1, x0:x1]] *)
Definition slice2 (image : ndarray A) (y0 y1 x0 x1 : Z) : ndarray A :=
  let rows := slice (arr_height image) y0 y1 in
  let cols := slice (arr_width image) x0 x1 in
  mkArray (snd rows) (snd cols)
          (λ i j, arr_at image (fst rows + i) (fst cols + j)).

(** [center_crop]; [//] rounds down, as [Z.div] does for the divisor 2. *)
Definition center_crop (image : ndarray A) (crop_size : Z * Z) : ndarray A :=
  let height := arr_height image in
  let width := arr_width image in
  let crop_width := fst crop_size in
  let crop_height := snd crop_size in
  let start_x := (width - crop_width) / 2 in
  let start_y := (height - crop_height) / 2 in
  slice2 image start_y (start_y + crop_height) start_x (start_x + crop_width).
End Crop.
End ImageProcessor.

Module FileValidator.
Section Defs.
Context `{RT : Runtime}.

(** [cap.read()]: whether a frame was delivered, and the frame. *)
Definition read (cap : VideoCapture Frame) : bool * option Frame :=
  if isOpened cap then
    match pending cap with
    | [] => (false, None)
    | frame :: _ => (true, Some frame)
    end
  else (false, None).

(** [is_valid_video] *)
Definition is_valid_video (file_path : string) : M bool :=
  try_except
    (let* cap := Motion3DPredictor.open_capture file_path in
     let ret_frame := read cap in
     ret (fst ret_frame))
    (fun _ => ret false).
End Defs.
End FileValidator.

Module FormatConverter.

(** Python floats are IEEE binary64 numbers. *)
Definition float64 : Type := spec_float.
Definition prec64 : Z := 53.
Definition emax64 : Z := 1024.

(** [float(z)] *)
Definition f64_of_Z (z : Z) : float64 := binary_normalize prec64 emax64 z 0 false.

(** [int(x)]: the fraction is dropped. *)
Definition int_of_f64 (x : float64) : Z :=
  match x with
  | S754_finite s m e =>
      let mag := if 0 <=? e then Z.pos m * 2 ^ e else Z.pos m / 2 ^ (- e) in
      if s then - mag else mag
  | _ => 0
  end.

(** [a / b] on two integers. *)
Definition truediv (a b : Z) : float64 :=
  SFdiv prec64 emax64 (f64_of_Z a) (f64_of_Z b).

(** [int(x * scale)] *)
Definition scaled (x : Z) (scale : float64) : Z :=
  int_of_f64 (SFmul prec64 emax64 (f64_of_Z x) scale).

(** The size [video_to_gif] resizes a frame of [width] by [height] to:
    [None] when the frame is left as it is. *)
Definition new_size (width height : Z) : option (Z * Z) :=
  if 512 <? Z.max width height then
    let scale := truediv 512 (Z.max width height) in
    Some (scaled width scale, scaled height scale)
  else None.

(** The sides from 513 up to [513 + n - 1]. *)
Definition sides (n : nat) : list Z := map (λ k, 513 + Z.of_nat k) (seq 0 n).

(** The larger side [m] of a frame comes out as 511 or 512, and a side of
    one pixel next to it as 0. *)
Definition side_ok (m : Z) : bool :=
  match new_size m m, new_size 1 m with
  | Some (w, _), Some (w1, _) => ((w =? 511) || (w =? 512)) && (w1 =? 0)
  | _, _ => false
  end.
End FormatConverter.

(** ** [scripts/download_models.py] *)

Module DownloadModels.

Record ModelConfig : Type := mkConfig {
  url : string;
  path : string;
  size : string
}.

(** The dictionary [MODELS], in the order of its keys. *)
Definition MODELS : list (string * ModelConfig) :=
  [ ("motion_clone",
     mkConfig "https://example.com/motion_clone_checkpoint.pth"
              "models/motion_clone/checkpoint.pth" "500MB");
    ("fomm",
     mkConfig "https://example.com/vox-cpk.pth.tar"
              "models/fomm/vox-cpk.pth.tar" "200MB") ].

(** What [progress_hook] puts into the line it prints: the bar (its
    characters, by code point), the percentage, and the two byte counts. *)
Record ProgressLine : Type := mkProgressLine {
  bar : list Z;
  percent : Z;
  bytes_done : Z;
  bytes_total : Z
}.

(** [c * n] for a one-character string [c]: empty for [n <= 0]. *)
Definition str_mul (c : Z) (n : Z) : list Z := repeat c (Z.to_nat n).

Definition full_block : Z := 9608.        (* the character U+2588 *)
Definition hyphen : Z := 45.

(** [progress_hook]: nothing is printed when the size is unknown. *)
Definition progress_hook (block_num block_size total_size : Z)
    : option ProgressLine :=
  if 0 <? total_size then
    let percent := Z.min 100 ((block_num * block_size * 100) / total_size) in
    let bar_length := 50 in
    let filled_length := (percent * bar_length) / 100 in
    let bar := str_mul full_block filled_length ++
               str_mul hyphen (bar_length - filled_length) in
    Some (mkProgressLine bar percent (block_num * block_size) total_size)
  else None.

Section Main.
(** What [urllib.request.urlretrieve] does for a URL: the whole file
    written, or an exception, possibly with a truncated file left. *)
Variable urlretrieve : string → WriteOutcome.

(** The state of the script: the files, and the URLs requested so far.
    Directories are not part of the file system here, so [os.makedirs]
    and [models_dir.mkdir()] have nothing to do. *)
Definition State : Type := gmap string string * list string.

Definition download_file (url filepath : string) (st : State) : bool * State :=
  let requested := snd st ++ [url] in
  match urlretrieve url with
  | Written content => (true, (<[filepath := content]> (fst st), requested))
  | WriteFailed _ partial =>
      (false,
       (match partial with
        | Some content => <[filepath := content]> (fst st)
        | None => fst st
        end, requested))
  end.

(** The loop [for model_name, config in MODELS.items():] *)
Fixpoint main_loop (models : list (string * ModelConfig)) (success_count : Z)
    (st : State) : Z * State :=
  match models with
  | [] => (success_count, st)
  | (model_name, config) :: rest =>
      if bool_decide (is_Some (fst st !! path config))
      then main_loop rest (success_count + 1) st          (* continue *)
      else
        let out := download_file (url config) (path config) st in
        main_loop rest
          (if fst out then success_count + 1 else success_count) (snd out)
  end.

Definition main (st : State) : bool * State :=
  let total_count := Z.of_nat (length MODELS) in
  let out := main_loop MODELS 0 st in
  (fst out =? total_count, snd out).
End Main.
End DownloadModels.

(** ** [scripts/run_demo.py] *)

(** The parsed command line. *)
Record Args : Type := mkArgs {
  arg_source : option string;
  arg_driving : option string;
  arg_model : string;
  arg_output : option string;
  arg_benchmark : bool;
  arg_list_models : bool
}.

Module RunDemo.
Section Defs.
Context `{RT : Runtime}.

(** What the script takes from torch and the file system besides the
    runtime above: the two sums over [model.parameters()], the division
    of two integers, and [Path.glob]. *)
Variable numel_sum : Model → Z.
Variable nbytes_sum : Model → Z.
Variable int_truediv : Z → Z → PyFloat.
Variable glob : gmap string string → string → string → list string.
Variable project_root : string.

(** [Motion3DPredictor.get_model_info] *)
Definition get_model_info (self : Predictor) : M (list (string * Value)) :=
  match model self with
  | None =>
      raise (AttributeError "'NoneType' object has no attribute 'parameters'")
  | Some m =>
      ret [ ("model_name", VStr (model_name self));
            ("device", VStr (device self));
            ("model_parameters", VInt (numel_sum m));
            ("model_size_mb",
             VFloat (int_truediv (nbytes_sum m) (1024 * 1024))) ]
  end.

(** [d[key]] *)
Definition subscript (d : list (string * Value)) (key : string)
    : result Value :=
  match Api.dict_get d key with
  | Some v => Ok v
  | None => Raise (KeyError key)
  end.

(** [ModelManager.list_models]: it looks up the models and prints. *)
Definition list_models : M unit :=
  let* _ := ModelManager.get_available_models in ret tt.

(** An argument that was given and is not the empty string, or else the
    first file of the two globs in the examples directory. *)
Definition or_example (arg : option string) (dir pattern1 pattern2 : string)
    : M (option string) :=
  match arg with
  | Some p =>
      if negb (String.eqb p "") then ret (Some p)
      else
        let* fs := gets files in
        ret (head (glob fs dir pattern1 ++ glob fs dir pattern2))
  | None =>
      let* fs := gets files in
      ret (head (glob fs dir pattern1 ++ glob fs dir pattern2))
  end.

(** [main] from the line [# Default files if not provided] on. *)
Definition run (predictor : Predictor) (args : Args) : M unit :=
  let* source :=
    or_example (arg_source args)
      (project_root +:+ "/data/examples/source_images") "*.jpg" "*.png" in
  match source with
  | None => ret tt
  | Some source =>
      let* driving :=
        or_example (arg_driving args)
          (project_root +:+ "/data/examples/driving_videos") "*.mp4" "*.avi" in
      match driving with
      | None => ret tt
      | Some driving =>
          if arg_benchmark args then
            let* results :=
              Motion3DPredictor.benchmark_performance predictor source
                driving 3 in
            let* _ := lift (subscript results "model_name") in
            let* _ := lift (subscript results "device") in
            let* _ := lift (subscript results "avg_time_seconds") in
            let* _ := lift (subscript results "min_time_seconds") in
            let* _ := lift (subscript results "max_time_seconds") in
            let* _ := lift (subscript results "fps") in
            let* _ := lift (subscript results "input_frames") in
            ret tt
          else
            try_except
              (let* output_path :=
                 Motion3DPredictor.generate_motion predictor source driving
                   (arg_output args) in
               let* _ := os_path_exists output_path in
               ret tt)
              (fun _ => ret tt)
      end
  end.

Definition main (args : Args) : M unit :=
  if arg_list_models args then list_models
  else
    let* available := ModelManager.get_available_models in
    if bool_decide (available = ∅) then ret tt
    else
      let* loaded :=
        try_except
          (let* p := Motion3DPredictor.init (arg_model args) "auto" in
           ret (Some p))
          (fun _ => ret None) in
      match loaded with
      | None => ret tt
      | Some predictor =>
          let* model_info := get_model_info predictor in
          let* _ := lift (subscript model_info "model_parameters") in
          let* _ := lift (subscript model_info "size_mb") in
          let* _ := lift (subscript model_info "device") in
          run predictor args
      end.
End Defs.
End RunDemo.

(** ** A small runtime to run the model on examples

    Frames, images and tensors are integers, times are integer
    milliseconds (so a frame count divided by a time is scaled by 1000 to
    frames per second); a file starting with [IMG] decodes as an image, one
    starting with [VID] as a video with one frame per further character.
    Paths are POSIX paths, and torch has the cpu only. *)

Module Demo.
(** The index of the last occurrence of [c] in [l], as [rfind]. *)
Fixpoint rfind (c : ascii) (l : list ascii) : option nat :=
  match l with
  | [] => None
  | x :: r =>
      match rfind c r with
      | Some i => Some (S i)
      | None => if Ascii.eqb x c then Some 0%nat else None
      end
  end.

(** [os.path.basename]: what follows the last slash. *)
Definition base_name (p : string) : string :=
  let l := String.list_ascii_of_string p in
  match rfind "/"%char l with
  | Some i => String.string_of_list_ascii (drop (S i) l)
  | None => p
  end.

(** [os.path.splitext]: the extension starts at the last dot of the last
    component, unless only dots come before it in that component. *)
Definition split_ext (p : string) : string * string :=
  let l := String.list_ascii_of_string p in
  let filename_index :=
    match rfind "/"%char l with Some i => S i | None => 0%nat end in
  match rfind "."%char l with
  | Some dot_index =>
      if bool_decide (filename_index ≤ dot_index)%nat
         && negb (forallb (λ c, Ascii.eqb c "."%char)
                    (take (dot_index - filename_index) (drop filename_index l)))
      then (String.string_of_list_ascii (take dot_index l),
            String.string_of_list_ascii (drop dot_index l))
      else (p, EmptyString)
  | None => (p, EmptyString)
  end.

(** [tensor.to(device)] and [module.to(device)] on a machine without
    CUDA: ["cpu"] is accepted, ["cuda"] has no driver, and any other
    string, ["auto"] among them, is not a device (the wording of the
    message is that of the torch release). *)
Definition to_device (device : string) : option exn :=
  if String.eqb device "cpu" then None
  else if String.eqb device "cuda"
  then Some (RuntimeError "Found no NVIDIA driver on your system")
  else Some (RuntimeError
               ("Expected one of cpu, cuda, ipu, xpu, mkldnn, opengl, opencl, ideep, hip, ve, fpga, maia, xla, lazy, vulkan, mps, meta, hpu, mtia, privateuseone device type at start of device string: "
                +:+ device)).

Definition codes (s : string) : list Z :=
  map (fun c => Z.of_nat (Ascii.nat_of_ascii c)) (String.list_ascii_of_string s).

Definition chars (l : list Z) : string :=
  String.string_of_list_ascii (map (fun z => Ascii.ascii_of_nat (Z.to_nat z)) l).

Definition open_image (bytes : string) : result Z :=
  if String.prefix "IMG" bytes then Ok (Z.of_nat (String.length bytes))
  else Raise (OSError "cannot identify image file").

Definition open_video (bytes : string) : VideoCapture Z :=
  if String.prefix "VID" bytes
  then mkCapture true (codes (String.substring 3 (String.length bytes - 3) bytes))
  else mkCapture false [].

Definition mean (l : list Z) : Z := fold_right Z.add 0 l / Z.of_nat (length l).

Definition runtime : Runtime := {|
  Frame := Z; Image := Z; Tensor := Z; PyFloat := Z;
  base_dir := "/srv/motion3d";
  splitext := split_ext;
  basename := base_name;
  Image_open_RGB := open_image;
  VideoCapture_of := open_video;
  cvtColor_BGR2RGB := fun f => f;
  Image_fromarray := fun f => f;
  transform := fun i => i - 128;
  cuda_is_available := false;
  torch_to := to_device;
  torch_load_state := fun _ _ => None;
  forward := fun _ source driving => Ok (map (Z.add source) driving);
  to_uint8_frame := fun t => (t + 128) mod 256;
  imageio_mimsave := fun frames => Written ("MP4" +:+ chars frames);
  os_fault := fun _ => None;
  time_time := fun n => 40 * Z.of_nat n;
  float_sub := Z.sub;
  float_lt := Z.ltb;
  np_mean := mean;
  int_div_float := fun n x => 1000 * n / x
|}.

(** The checkpoints of both models are installed, nothing else. *)
Definition disk : gmap string string :=
  <["/srv/motion3d/models/motion_clone/checkpoint.pth" := "weights-mc"]>
  (<["/srv/motion3d/models/fomm/vox-cpk.pth.tar" := "weights-fomm"]> ∅).

(** The process before [startup_event]. *)
Definition boot : @World runtime :=
  mkWorld disk (@ModelManager.init runtime "auto") None ∅ [] [] 0%nat 0%nat.

(** The process after [startup_event]. *)
Definition started : @World runtime := snd (@Api.startup_event runtime boot).

(** The process started on a disk without checkpoints: no predictor. *)
Definition bare : @World runtime :=
  mkWorld ∅ (@ModelManager.init runtime "auto") None ∅ [] [] 0%nat 0%nat.
Definition started_bare : @World runtime :=
  snd (@Api.startup_event runtime bare).

(** Two model objects built by their class constructors, outside the
    loaders. *)
Definition motion_clone_model : Model :=
  mkModel 0 MotionClonePredictor None "cpu".
Definition fomm_model : Model := mkModel 1 FOMMPredictor None "cpu".

(** The predictor [Motion3DPredictor("motion_clone", "cpu")] on a cache
    that holds the two objects, and the same with the device string the
    constructor takes by default, as [api.py] calls it. *)
Definition self : Predictor :=
  mkPredictor (Some motion_clone_model) "motion_clone" "cpu".
Definition self_auto : Predictor :=
  mkPredictor (Some motion_clone_model) "motion_clone" "auto".

(** A process that serves: the two objects were put into
    [loaded_models] by hand (the loaders cannot do it) and [predictor] is
    [self]. *)
Definition serving : @World runtime :=
  mkWorld disk
    (mkManager "cpu"
       (<["motion_clone" := motion_clone_model]>
          (<["fomm" := fomm_model]> ∅)) None None)
    (Some self) ∅ [] [] 2%nat 0%nat.

(** The same process with the predictor on the default device string. *)
Definition serving_auto : @World runtime :=
  set_predictor (Some self_auto) serving.

Definition image_upload : UploadFile := mkUpload "face.png" "image/png" "IMGface".
Definition video_upload : UploadFile := mkUpload "dance.mp4" "video/mp4" "VIDabc".
Definition empty_video_upload : UploadFile := mkUpload "none.mp4" "video/mp4" "VID".

(** A submission with a three-frame video, and its job. *)
Definition submitted : @World runtime :=
  snd (@Api.generate_motion runtime "t1" image_upload video_upload "fomm" serving).
Definition job : Job :=
  mkJob "t1" "uploads/t1_source.png" "uploads/t1_driving.mp4" "fomm".

(** A submission with a video without frames, and its job. *)
Definition submitted_empty : @World runtime :=
  snd (@Api.generate_motion runtime "t2" image_upload empty_video_upload
         "motion_clone" serving).
Definition job_empty : Job :=
  mkJob "t2" "uploads/t2_source.png" "uploads/t2_driving.mp4" "motion_clone".

(** The manager under a load, a switch and an eviction, on a fresh
    process. *)
Definition registry_ops : list Registry.Op :=
  [Registry.Load "fomm" None; Registry.SetCurrent "fomm";
   Registry.Evict "fomm"].
Definition registry_world : @World runtime :=
  @Registry.run runtime registry_ops boot.

(** The serving process to the end of the first task: the submission,
    the start of the job and the ten statements of the worker. *)
Definition server : @EventLoop.System runtime :=
  EventLoop.mkSystem serving [] [].
Definition first_task : list EventLoop.Op :=
  [EventLoop.OpGenerate "t1" image_upload video_upload "fomm";
   EventLoop.OpStart 0] ++ repeat (EventLoop.OpStage 0) 10.
Definition finished : @EventLoop.System runtime :=
  default server (EventLoop.run first_task server).
End Demo.

(** * Properties *)

(** Unfolding of the monad's combinators. *)
Ltac unfold_m :=
  unfold bind, ret, raise, gets, modify, lift, emit, try_except, try_finally in *.

(** ** Frame helpers and video decoding *)

Section Media.
Context `{RT : Runtime}.

Lemma preprocess_loop_take (N : Z) (pend : list Frame) :
  ∀ (frames : list Tensor) (c : Z),
    Motion3DPredictor.preprocess_loop N pend frames c =
    frames ++ map Motion3DPredictor.frame_tensor (take (Z.to_nat (N - c)) pend).
Proof.
  induction pend as [|f rest IH]; intros frames c; simpl.
  - destruct (c <? N); rewrite take_nil; simpl; by rewrite app_nil_r.
  - destruct (Z.ltb_spec c N) as [Hlt|Hge].
    + rewrite IH.
      replace (Z.to_nat (N - c)) with (S (Z.to_nat (N - (c + 1)))) by lia.
      simpl. by rewrite <- app_assoc.
    + replace (Z.to_nat (N - c)) with 0%nat by lia.
      simpl. by rewrite app_nil_r.
Qed.

Lemma extract_loop_take (k : Z) (pend : list Frame) :
  ∀ (frames : list Frame) (c : Z),
    0 <= c < k →
    VideoProcessor.extract_loop (Some k) pend frames c =
    frames ++ take (Z.to_nat (k - c)) pend.
Proof.
  induction pend as [|f rest IH]; intros frames c Hc; simpl.
  - by rewrite take_nil, app_nil_r.
  - replace (k =? 0) with false by (symmetry; apply Z.eqb_neq; lia).
    simpl.
    destruct (Z.leb_spec k (c + 1)) as [Hle|Hgt].
    + replace (Z.to_nat (k - c)) with 1%nat by lia.
      simpl. by rewrite take_0.
    + rewrite IH by lia.
      replace (Z.to_nat (k - c)) with (S (Z.to_nat (k - (c + 1)))) by lia.
      simpl. by rewrite <- app_assoc.
Qed.

Lemma decode_frames_never_empty (cap : VideoCapture Frame) (N : Z) :
  Motion3DPredictor.decode_frames cap N ≠ Ok [].
Proof.
  unfold Motion3DPredictor.decode_frames.
  destruct (if isOpened cap then _ else _); discriminate.
Qed.

Lemma decode_frames_no_frames (cap : VideoCapture Frame) (N : Z) :
  totalFrames cap = 0%nat →
  Motion3DPredictor.decode_frames cap N =
  Raise (ValueError "No frames could be extracted from video").
Proof.
  unfold totalFrames, Motion3DPredictor.decode_frames.
  destruct (isOpened cap); [|done].
  intros Hlen. apply length_zero_iff_nil in Hlen. rewrite Hlen.
  simpl. by destruct (0 <? N).
Qed.

Lemma preprocess_video_unfold (self : Predictor) (path : string) (N : Z)
    (w : World) :
  fst (Motion3DPredictor.preprocess_video self path N w) =
  match Motion3DPredictor.decode_frames
          (Motion3DPredictor.capture_at (files w) path) N with
  | Ok frames =>
      match torch_to (device self) with
      | Some e => Raise e
      | None => Ok frames
      end
  | Raise e => Raise e
  end.
Proof.
  unfold Motion3DPredictor.preprocess_video, Motion3DPredictor.open_capture,
    Motion3DPredictor.to_device.
  unfold_m. simpl.
  destruct (Motion3DPredictor.decode_frames _ N); simpl; [|done].
  by destruct (torch_to (device self)).
Qed.

Lemma extract_frames_no_frames (cap : VideoCapture Frame) (max_frames : option Z) :
  totalFrames cap = 0%nat → VideoProcessor.extract_frames cap max_frames = [].
Proof.
  unfold totalFrames, VideoProcessor.extract_frames.
  destruct (isOpened cap); [|done].
  intros Hlen. apply length_zero_iff_nil in Hlen. by rewrite Hlen.
Qed.

(** C3, amended.  A video from which no frame can be read makes
    [preprocess_video], the decoder of the generation and benchmark
    paths, raise the error "No frames could be extracted from video",
    whatever the frame limit, and [preprocess_video] never returns an
    empty sequence of frames; the helper [VideoProcessor.extract_frames]
    makes no such check and returns the empty list for such a video. *)
Theorem preprocess_video_zero_frames_is_error
    (self : Predictor) (path : string) (N : Z) (w : World) :
  (totalFrames (Motion3DPredictor.capture_at (files w) path) = 0%nat →
   fst (Motion3DPredictor.preprocess_video self path N w) =
     Raise (ValueError "No frames could be extracted from video") ∧
   ∀ max_frames,
     VideoProcessor.extract_frames
       (Motion3DPredictor.capture_at (files w) path) max_frames = []) ∧
  fst (Motion3DPredictor.preprocess_video self path N w) ≠ Ok [].
Proof.
  rewrite preprocess_video_unfold. split.
  - intros H0. rewrite decode_frames_no_frames by done.
    split; [done|]. intros max_frames. by apply extract_frames_no_frames.
  - pose proof (decode_frames_never_empty
                  (Motion3DPredictor.capture_at (files w) path) N) as Hne.
    destruct (Motion3DPredictor.decode_frames _ N) as [frames|e]; [|done].
    destruct (torch_to (device self)); congruence.
Qed.

(** C4, amended.  For a video with at least one frame and a limit
    [N >= 1], the decoding loop of [preprocess_video] yields the tensors of
    the first [min(totalFrames, N)] frames, in order, and
    [preprocess_video] returns exactly these, or the error of the final
    [.to(self.device)] when torch refuses the device string; and
    [VideoProcessor.extract_frames] keeps the same leading frames. *)
Theorem preprocess_video_truncates
    (self : Predictor) (path : string) (N : Z) (w : World) :
  let cap := Motion3DPredictor.capture_at (files w) path in
  (1 <= totalFrames cap)%nat →
  1 <= N →
  let kept := take (Z.to_nat N) (pending cap) in
  Motion3DPredictor.decode_frames cap N =
    Ok (map Motion3DPredictor.frame_tensor kept) ∧
  fst (Motion3DPredictor.preprocess_video self path N w) =
    match torch_to (device self) with
    | None => Ok (map Motion3DPredictor.frame_tensor kept)
    | Some e => Raise e
    end ∧
  length kept = Nat.min (totalFrames cap) (Z.to_nat N) ∧
  VideoProcessor.extract_frames cap (Some N) = kept.
Proof.
  intros cap Htot HN kept. subst kept.
  unfold totalFrames in *.
  rewrite preprocess_video_unfold. fold cap.
  assert (Hdec : Motion3DPredictor.decode_frames cap N =
                 Ok (map Motion3DPredictor.frame_tensor
                       (take (Z.to_nat N) (pending cap)))).
  { unfold Motion3DPredictor.decode_frames.
    destruct (isOpened cap) eqn:Hopen; [|simpl in Htot; lia].
    rewrite preprocess_loop_take. rewrite Z.sub_0_r. simpl.
    destruct (pending cap) as [|f rest]; [simpl in Htot; lia|].
    replace (Z.to_nat N) with (S (Z.to_nat (N - 1))) by lia.
    done. }
  rewrite Hdec. split_and!; [done|done| |].
  - destruct (isOpened cap); [|simpl in Htot; lia].
    rewrite length_take. lia.
  - unfold VideoProcessor.extract_frames.
    destruct (isOpened cap); [|simpl in Htot; lia].
    rewrite extract_loop_take by lia. by rewrite Z.sub_0_r.
Qed.

End Media.

Lemma pixel_round_trip (p : Z) :
  0 <= p < 256 →
  VideoProcessor.denormalize_pixel (VideoProcessor.normalize_pixel p) = p.
Proof.
  intros Hp.
  assert (Hall : forallb
            (fun n => VideoProcessor.denormalize_pixel
                        (VideoProcessor.normalize_pixel (Z.of_nat n))
                      =? Z.of_nat n)
            (seq 0 256) = true) by (vm_compute; reflexivity).
  rewrite forallb_forall in Hall.
  specialize (Hall (Z.to_nat p)).
  rewrite Z2Nat.id in Hall by lia.
  apply Z.eqb_eq, Hall, in_seq. lia.
Qed.

(** C10.  On a non-empty list of [uint8] frames, [normalize_frames]
    followed by [denormalize_frames] gives back the same frames, value for
    value (the binary32 quotient by 255, multiplied by 255 and truncated,
    is the original byte). *)
Theorem normalize_denormalize_round_trip (frames : list (list Z)) :
  frames ≠ [] →
  Forall VideoProcessor.is_uint8_frame frames →
  VideoProcessor.denormalize_frames (VideoProcessor.normalize_frames frames)
  = frames.
Proof.
  intros _ Hall.
  unfold VideoProcessor.denormalize_frames, VideoProcessor.normalize_frames.
  rewrite map_map.
  rewrite <- (map_id frames) at 2.
  apply map_ext_in. intros frame Hin.
  rewrite Forall_forall in Hall.
  assert (Hf : VideoProcessor.is_uint8_frame frame).
  { apply Hall. by apply list_elem_of_In. }
  rewrite map_map.
  rewrite <- (map_id frame) at 2.
  apply map_ext_in. intros p Hp.
  apply pixel_round_trip.
  unfold VideoProcessor.is_uint8_frame in Hf.
  rewrite Forall_forall in Hf. apply Hf. by apply list_elem_of_In.
Qed.

(** ** What an action leaves alone *)

Section Frame.
Context `{RT : Runtime}.

Context {B : Type} (f : World → B).

Lemma preserves_ret {A} (a : A) : preserves f (ret a).
Proof. by intros w. Qed.

Lemma preserves_raise {A} (e : exn) : preserves f (@raise _ A e).
Proof. by intros w. Qed.

Lemma preserves_gets {A} (g : World → A) : preserves f (gets g).
Proof. by intros w. Qed.

Lemma preserves_lift {A} (r : result A) : preserves f (lift r).
Proof. by intros w. Qed.

Lemma preserves_modify (g : World → World) :
  (∀ w, f (g w) = f w) → preserves f (modify g).
Proof. intros Hg w. apply Hg. Qed.

Lemma preserves_bind {A C} (m : M A) (k : A → M C) :
  preserves f m → (∀ a, preserves f (k a)) → preserves f (bind m k).
Proof.
  intros Hm Hk w. unfold bind.
  specialize (Hm w). destruct (m w) as [[a|e] w1]; simpl in *.
  - by rewrite Hk.
  - done.
Qed.

Lemma preserves_try_except {A} (m : M A) (h : exn → M A) :
  preserves f m → (∀ e, preserves f (h e)) → preserves f (try_except m h).
Proof.
  intros Hm Hh w. unfold try_except.
  specialize (Hm w). destruct (m w) as [[a|e] w1]; simpl in *.
  - done.
  - by rewrite Hh.
Qed.

Lemma preserves_try_finally {A} (m : M A) (c : M unit) :
  preserves f m → preserves f c → preserves f (try_finally m c).
Proof.
  intros Hm Hc w. unfold try_finally.
  specialize (Hm w). destruct (m w) as [r w1]; simpl in *.
  specialize (Hc w1). destruct (c w1) as [[[]|e] w2]; simpl in *; congruence.
Qed.
End Frame.

Create HintDb frame.
Global Hint Extern 1 (_ = _) => reflexivity : frame.

(** Decompose a goal [preserves f m] along the structure of [m]. *)
Ltac preserves_step :=
  match goal with
  | |- preserves _ (ret _) => apply preserves_ret
  | |- preserves _ (raise _) => apply preserves_raise
  | |- preserves _ (gets _) => apply preserves_gets
  | |- preserves _ (lift _) => apply preserves_lift
  | |- preserves _ (bind _ _) => apply preserves_bind; [|intros ?]
  | |- preserves _ (try_except _ _) => apply preserves_try_except; [|intros ?]
  | |- preserves _ (try_finally _ _) => apply preserves_try_finally
  | |- preserves _ (modify _) =>
      apply preserves_modify; intros ?; first [reflexivity | solve [auto]]
  | |- preserves _ (emit _) =>
      apply preserves_modify; intros ?; first [reflexivity | solve [auto]]
  | |- preserves _ (match ?x with _ => _ end) => destruct x
  | |- preserves _ _ => solve [eauto with frame]
  end.
Ltac preserves_tac := repeat preserves_step.

(** Inversion of a [bind] that returned or raised. *)
Section Inversion.
Context `{RT : Runtime}.

Lemma bind_ok_inv {A C} (m : M A) (k : A → M C) w c w' :
  bind m k w = (Ok c, w') →
  ∃ a w1, m w = (Ok a, w1) ∧ k a w1 = (Ok c, w').
Proof.
  unfold bind. destruct (m w) as [[a|e] w1]; [eauto|discriminate].
Qed.

Lemma bind_raise_inv {A C} (m : M A) (k : A → M C) w e w' :
  bind m k w = (Raise e, w') →
  m w = (Raise e, w') ∨ ∃ a w1, m w = (Ok a, w1) ∧ k a w1 = (Raise e, w').
Proof.
  unfold bind. destruct (m w) as [[a|e0] w1]; [eauto|].
  intros [= -> ->]. by left.
Qed.

Lemma preserves_apply {A B} (f : World → B) (m : M A) w r w' :
  preserves f m → m w = (r, w') → f w' = f w.
Proof. intros Hp Hm. specialize (Hp w). by rewrite Hm in Hp. Qed.
End Inversion.

(** The components the file calls leave alone. *)
Section FrameLemmas.
Context `{RT : Runtime}.
Context {B : Type} (f : World → B).
Hypothesis f_trace : ∀ t w, f (set_trace t w) = f w.

Lemma os_path_exists_preserves path : preserves f (os_path_exists path).
Proof. unfold os_path_exists. preserves_tac. Qed.

Lemma write_file_preserves path content :
  (∀ fs w, f (set_files fs w) = f w) →
  preserves f (write_file path content).
Proof. intros Hf. unfold write_file. preserves_tac. Qed.

Lemma shutil_move_preserves src dst :
  (∀ fs w, f (set_files fs w) = f w) →
  preserves f (shutil_move src dst).
Proof. intros Hf. unfold shutil_move. preserves_tac. Qed.

Lemma os_remove_preserves path :
  (∀ fs w, f (set_files fs w) = f w) →
  preserves f (os_remove path).
Proof. intros Hf. unfold os_remove. preserves_tac. Qed.
End FrameLemmas.

Global Hint Resolve os_path_exists_preserves write_file_preserves
  shutil_move_preserves os_remove_preserves : frame.

(** ** The model manager *)

Section ModelManagerProperties.
Context `{RT : Runtime}.

Local Abbreviation loaded w := (loaded_models (model_manager w)).

Lemma load_checkpoint_model_preserves {B} (f : World → B) cls path dev :
  (∀ t w, f (set_trace t w) = f w) →
  (∀ n w, f (set_next_obj n w) = f w) →
  preserves f (ModelManager.load_checkpoint_model cls path dev).
Proof.
  intros Ht Hn. unfold ModelManager.load_checkpoint_model.
  repeat first
    [ apply preserves_modify; intros ?; solve [apply Hn | apply Ht]
    | preserves_step ].
Qed.

Lemma load_model_cached name path (w : World) (m : Model) :
  loaded w !! name = Some m →
  ModelManager.load_model name path w = (Ok m, w).
Proof.
  intros Hm. unfold ModelManager.load_model. unfold_m. simpl. by rewrite Hm.
Qed.

(** What a call of [load_model] does to the manager. *)
Lemma load_model_manager name path (w : World) :
  match ModelManager.load_model name path w with
  | (Ok m, w') =>
      (loaded w !! name = Some m ∧ w' = w) ∨
      (loaded w !! name = None ∧
       model_manager w' = ModelManager.set_loaded name m (model_manager w))
  | (Raise e, w') =>
      loaded w !! name = None ∧ model_manager w' = model_manager w
  end.
Proof.
  unfold ModelManager.load_model. unfold_m. simpl.
  destruct (loaded w !! name) as [m|] eqn:Hl; [by left|].
  assert (Htail : ∀ p,
    match
      (if negb (bool_decide (is_Some (files w !! p)))
       then λ w0, (Raise (FileNotFoundError ("Model not found at " +:+ p)), w0)
       else λ w0,
         let (r0, w1) :=
           (if String.eqb name "motion_clone"
            then ModelManager.load_motion_clone_model p (mm_device (model_manager w))
            else if String.eqb name "fomm"
            then ModelManager.load_fomm_model p (mm_device (model_manager w))
            else λ w1, (Raise (ValueError ("Unknown model: " +:+ name)), w1)) w0 in
         match r0 with
         | Ok a0 => (Ok a0, set_model_manager
                              (ModelManager.set_loaded name a0 (model_manager w1)) w1)
         | Raise e => (Raise e, w1)
         end) w
    with
    | (Ok m, w') =>
        (None = Some m ∧ w' = w) ∨
        (None = (None : option Model) ∧
         model_manager w' = ModelManager.set_loaded name m (model_manager w))
    | (Raise e, w') => None = (None : option Model) ∧ model_manager w' = model_manager w
    end).
  { intros p.
    destruct (bool_decide (is_Some (files w !! p))); simpl; [|done].
    unfold ModelManager.load_motion_clone_model, ModelManager.load_fomm_model.
    destruct (String.eqb name "motion_clone"); [|destruct (String.eqb name "fomm")];
      try done.
    all: match goal with
         | |- context [ModelManager.load_checkpoint_model ?c ?q ?d ?w0] =>
             pose proof (load_checkpoint_model_preserves model_manager c q d
                           (λ _ _, eq_refl) (λ _ _, eq_refl) w0) as H1;
             destruct (ModelManager.load_checkpoint_model c q d w0) as [[m|e] w1]
         end; simpl in *; [right; by rewrite H1|done..]. }
  destruct path as [p|]; simpl; [apply Htail|].
  destruct (ModelManager._get_default_model_path name) as [p|e]; simpl;
    [apply Htail|done].
Qed.

Lemma load_model_preserves {B} (f : World → B) name path :
  (∀ t w, f (set_trace t w) = f w) →
  (∀ n w, f (set_next_obj n w) = f w) →
  (∀ m w, f (set_model_manager m w) = f w) →
  preserves f (ModelManager.load_model name path).
Proof.
  intros Ht Hn Hm. unfold ModelManager.load_model,
    ModelManager.load_motion_clone_model, ModelManager.load_fomm_model.
  repeat first
    [ apply load_checkpoint_model_preserves; assumption
    | apply preserves_modify; intros ?; solve [apply Hm]
    | preserves_step ].
Qed.

(** Building a model object: the object is constructed, then the
    look-up of [os] raises. *)
Lemma load_checkpoint_model_raises cls path dev (w : World) :
  ModelManager.load_checkpoint_model cls path dev w =
  (Raise (NameError "name 'os' is not defined"),
   set_next_obj (S (next_obj w)) w).
Proof. reflexivity. Qed.

(** [load_model] on a name that is not cached, case by case. *)
Lemma load_model_miss name path (w : World) :
  loaded w !! name = None →
  ModelManager.load_model name path w =
  match (match path with
         | Some p => Ok p
         | None => ModelManager._get_default_model_path name
         end) with
  | Raise e => (Raise e, w)
  | Ok p =>
      if bool_decide (is_Some (files w !! p)) then
        if Registry.known name
        then (Raise (NameError "name 'os' is not defined"),
              set_next_obj (S (next_obj w)) w)
        else (Raise (ValueError ("Unknown model: " +:+ name)), w)
      else (Raise (FileNotFoundError ("Model not found at " +:+ p)), w)
  end.
Proof.
  intros Hl. unfold ModelManager.load_model, os_path_exists,
    ModelManager.load_motion_clone_model, ModelManager.load_fomm_model,
    Registry.known.
  unfold bind at 1, gets at 1. rewrite Hl.
  destruct path as [p|]; simpl.
  - unfold bind at 1, ret at 1. unfold bind at 1, gets at 1.
    destruct (bool_decide (is_Some (files w !! p))); simpl; [|done].
    unfold bind at 1.
    destruct (String.eqb name "motion_clone"); simpl; [done|].
    destruct (String.eqb name "fomm"); simpl; done.
  - unfold bind at 1, lift at 1.
    destruct (ModelManager._get_default_model_path name) as [p|e]; [|done].
    unfold bind at 1, gets at 1.
    destruct (bool_decide (is_Some (files w !! p))); simpl; [|done].
    unfold bind at 1.
    destruct (String.eqb name "motion_clone"); simpl; [done|].
    destruct (String.eqb name "fomm"); simpl; done.
Qed.

(** A call of [load_model] that misses the cache raises and leaves
    manager, files, tasks, predictor and trace as they were; at most an
    object identity is used up. *)
Lemma load_model_miss_raises name path (w : World) :
  loaded w !! name = None →
  ∃ e w', ModelManager.load_model name path w = (Raise e, w') ∧
          (w' = w ∨ w' = set_next_obj (S (next_obj w)) w).
Proof.
  intros Hl. rewrite (load_model_miss name path w Hl).
  destruct (match path with
            | Some p => Ok p
            | None => ModelManager._get_default_model_path name
            end) as [p|e]; [|eauto].
  destruct (bool_decide (is_Some (files w !! p))); [|eauto].
  destruct (Registry.known name); eauto.
Qed.

(** C6.  [load_model] returns the cached object, and changes nothing,
    when the name is in [loaded_models]; this is the only way it returns.
    For a name that is not cached it never returns a handle: the first
    call raises and caches nothing, so the second call raises as well;
    and when the checkpoint file is there and the name is a known one,
    each of the two calls has constructed a model object and lost it to
    the [NameError] of the loader, which uses [os] without importing
    it. *)
Theorem load_model_never_fills_cache
    (name : string) (path : option string) (w : World) :
  let first := ModelManager.load_model name path w in
  let second := ModelManager.load_model name path (snd first) in
  (∀ m, loaded w !! name = Some m → first = (Ok m, w) ∧ second = (Ok m, w)) ∧
  (loaded w !! name = None →
   is_ok (fst first) = false ∧ is_ok (fst second) = false ∧
   model_manager (snd second) = model_manager w ∧
   ∀ p,
     match path with
     | Some q => q = p
     | None => ModelManager._get_default_model_path name = Ok p
     end →
     is_Some (files w !! p) →
     Registry.known name = true →
     fst first = Raise (NameError "name 'os' is not defined") ∧
     fst second = Raise (NameError "name 'os' is not defined") ∧
     next_obj (snd second) = S (S (next_obj w))).
Proof.
  intros first second. subst first second. split.
  - intros m Hm. rewrite (load_model_cached name path w m Hm). simpl.
    by rewrite (load_model_cached name path w m Hm).
  - intros Hl.
    destruct (load_model_miss_raises name path w Hl) as (e & w1 & H1 & Hw1).
    assert (Hl1 : loaded w1 !! name = None) by (by destruct Hw1 as [->| ->]).
    destruct (load_model_miss_raises name path w1 Hl1) as (e2 & w2 & H2 & Hw2).
    rewrite H1. simpl. rewrite H2. simpl. split_and!; [done|done| |].
    + by destruct Hw1 as [->| ->]; destruct Hw2 as [->| ->].
    + intros p Hp Hf Hk.
      assert (Hsel : (match path with
                      | Some q => Ok q
                      | None => ModelManager._get_default_model_path name
                      end) = Ok p).
      { destruct path as [q|]; [by subst|done]. }
      rewrite (load_model_miss name path w Hl), Hsel in H1.
      rewrite (bool_decide_eq_true_2 _ Hf), Hk in H1.
      injection H1 as <- <-.
      rewrite (load_model_miss name path _ Hl1), Hsel in H2. simpl in H2.
      rewrite (bool_decide_eq_true_2 _ Hf), Hk in H2.
      injection H2 as <- <-. done.
Qed.

Lemma set_current_model_preserves {B} (f : World → B) name :
  (∀ t w, f (set_trace t w) = f w) →
  (∀ n w, f (set_next_obj n w) = f w) →
  (∀ m w, f (set_model_manager m w) = f w) →
  preserves f (ModelManager.set_current_model name).
Proof.
  intros Ht Hn Hm. unfold ModelManager.set_current_model.
  repeat first
    [ apply load_model_preserves; assumption
    | apply preserves_modify; intros ?; solve [apply Hm]
    | preserves_step ].
Qed.

(** What a call of [set_current_model] does to the manager. *)
Lemma set_current_model_manager name (w : World) :
  match ModelManager.set_current_model name w with
  | (Ok m, w') =>
      loaded w' !! name = Some m ∧
      current_model (model_manager w') = Some m ∧
      current_model_name (model_manager w') = Some name ∧
      (loaded w' = loaded w ∨
       (loaded w !! name = None ∧ loaded w' = <[name := m]> (loaded w)))
  | (Raise e, w') =>
      loaded w !! name = None ∧ model_manager w' = model_manager w
  end.
Proof.
  unfold ModelManager.set_current_model. unfold_m. simpl.
  destruct (loaded w !! name) as [m|] eqn:Hl; simpl.
  - rewrite Hl. simpl. eauto.
  -
    pose proof (load_model_manager name None w) as Hmm.
    destruct (ModelManager.load_model name None w) as [[m|e] w1]; simpl.
    2: { split; [done|apply Hmm]. }
    destruct Hmm as [[Hl' _]|[_ Hmm]]; [congruence|].
    rewrite Hmm. simpl. rewrite lookup_insert_eq. simpl.
    rewrite lookup_insert_eq. split_and!; try done. by right.
Qed.

Lemma init_consistent dev : Registry.consistent (ModelManager.init dev).
Proof. done. Qed.

Lemma consistent_in_cache mm :
  Registry.consistent mm → Registry.current_in_cache mm.
Proof.
  unfold Registry.consistent, Registry.current_in_cache.
  destruct (current_model_name mm) as [n|].
  - intros [[m Hm] Hl]. rewrite Hm in *. eauto.
  - by intros ->.
Qed.

Lemma load_model_consistent name path (w : World) :
  Registry.consistent (model_manager w) →
  Registry.consistent (model_manager (snd (ModelManager.load_model name path w))).
Proof.
  intros Hc. pose proof (load_model_manager name path w) as Hmm.
  destruct (ModelManager.load_model name path w) as [[m|e] w1]; simpl.
  - destruct Hmm as [[_ ->]|[Hl ->]]; [done|].
    unfold Registry.consistent in *. simpl.
    destruct (current_model_name (model_manager w)) as [n|]; [|done].
    destruct Hc as [Hsome Hn]. split; [done|].
    rewrite lookup_insert_ne; [done|].
    intros <-. rewrite Hl in Hn. rewrite <- Hn in Hsome. by destruct Hsome.
  - by destruct Hmm as [_ ->].
Qed.

Lemma set_current_model_consistent name (w : World) :
  Registry.consistent (model_manager w) →
  Registry.consistent (model_manager (snd (ModelManager.set_current_model name w))).
Proof.
  intros Hc. pose proof (set_current_model_manager name w) as Hmm.
  destruct (ModelManager.set_current_model name w) as [[m|e] w1]; simpl.
  - destruct Hmm as (Hl & Hcur & Hname & _).
    unfold Registry.consistent. rewrite Hname, Hcur, Hl. eauto.
  - by destruct Hmm as [_ ->].
Qed.

(** What [unload_model] does, in every state. *)
Lemma unload_model_manager name (w : World) :
  let w' := snd (ModelManager.unload_model name w) in
  (loaded w !! name = None → w' = w) ∧
  (is_Some (loaded w !! name) →
   loaded w' = delete name (loaded w) ∧
   (current_model_name (model_manager w) = Some name →
    current_model (model_manager w') = None ∧
    current_model_name (model_manager w') = None) ∧
   (current_model_name (model_manager w) ≠ Some name →
    current_model (model_manager w') = current_model (model_manager w) ∧
    current_model_name (model_manager w') =
      current_model_name (model_manager w))).
Proof.
  unfold ModelManager.unload_model. unfold_m. simpl. split.
  - intros Hl. rewrite bool_decide_eq_false_2; [done|].
    rewrite Hl. by intros [? ?].
  - intros Hl. rewrite bool_decide_eq_true_2 by done.
    destruct (bool_decide_reflect
                (current_model_name (model_manager w) = Some name)); simpl;
      split_and!; try done.
Qed.

Lemma unload_model_consistent name (w : World) :
  Registry.consistent (model_manager w) →
  Registry.consistent (model_manager (snd (ModelManager.unload_model name w))).
Proof.
  intros Hc. destruct (unload_model_manager name w) as [Hnone Hsome].
  destruct (loaded w !! name) as [m|] eqn:Hl; [|by rewrite Hnone].
  destruct (Hsome ltac:(eauto)) as (Hdel & Hcur & Hother).
  destruct (decide (current_model_name (model_manager w) = Some name)) as [Heq|Hne].
  - destruct (Hcur Heq) as [H1 H2]. unfold Registry.consistent. by rewrite H2.
  - destruct (Hother Hne) as [H1 H2]. unfold Registry.consistent in *.
    rewrite H2, H1, Hdel.
    destruct (current_model_name (model_manager w)) as [n|]; [|done].
    destruct Hc as [Hs Hn]. split; [done|].
    rewrite lookup_delete_ne; [done|congruence].
Qed.

Lemma step_consistent op (w : World) :
  Registry.consistent (model_manager w) →
  Registry.consistent (model_manager (Registry.step op w)).
Proof.
  destruct op; simpl;
    auto using load_model_consistent, set_current_model_consistent,
               unload_model_consistent.
Qed.

Lemma reachable_consistent (w : World) :
  Registry.reachable w → Registry.consistent (model_manager w).
Proof.
  intros (w0 & dev & ops & Hinit & ->).
  assert (Hc : Registry.consistent (model_manager w0))
    by (rewrite Hinit; apply init_consistent).
  clear Hinit. revert w0 Hc.
  induction ops as [|op ops IH]; intros w0 Hc; simpl; [done|].
  apply IH. by apply step_consistent.
Qed.

Lemma reachable_step op (w : World) :
  Registry.reachable w → Registry.reachable (Registry.step op w).
Proof.
  intros (w0 & dev & ops & Hinit & ->).
  exists w0, dev, (ops ++ [op]). split; [done|].
  unfold Registry.run. by rewrite fold_left_app.
Qed.


Lemma set_current_model_cannot_load name (w : World) :
  Registry.cannot_load name w →
  ∃ e, ModelManager.set_current_model name w = (Raise e, w).
Proof.
  intros [Hl Hpath].
  unfold ModelManager.set_current_model, ModelManager.load_model.
  unfold_m. simpl. rewrite !Hl. simpl.
  destruct (ModelManager._get_default_model_path name) as [path|e] eqn:Hp;
    simpl; rewrite ?Hl; simpl; [|by eexists].
  rewrite (Hpath path eq_refl). simpl. rewrite ?Hl. simpl. by eexists.
Qed.

Lemma switch_predictor_outcome name (w : World) (p : Predictor) :
  predictor w = Some p →
  match ModelManager.set_current_model name w with
  | (Ok m, w1) =>
      Api.switch_predictor name w =
      (Ok tt, set_predictor (Some (mkPredictor (Some m) name (device p))) w1)
  | (Raise e, w1) => Api.switch_predictor name w = (Raise e, w1)
  end.
Proof.
  intros Hp.
  unfold Api.switch_predictor, Api.the_predictor, ModelManager.get_current_model.
  unfold_m. simpl. rewrite Hp. simpl.
  pose proof (set_current_model_preserves predictor name
                (λ _ _, eq_refl) (λ _ _, eq_refl) (λ _ _, eq_refl) w) as Hpred.
  pose proof (set_current_model_manager name w) as Hmm.
  destruct (ModelManager.set_current_model name w) as [[m|e] w1];
    simpl in *; [|done].
  rewrite Hpred, Hp. simpl. destruct Hmm as (_ & -> & _). done.
Qed.

(** C8.  A switch to a name the endpoint does not know, or to a model
    that is not cached and whose checkpoint file is missing, is rejected
    with an error; and whenever [switch_model] (or [set_current_model]
    itself) ends in an error, the manager, with its current model and
    current name, and the predictor are as they were before the call. *)
Theorem switch_rejected_keeps_current (name : string) (w : World) :
  (Registry.known name = false ∨ Registry.cannot_load name w →
   ∃ e w', Api.switch_model name w = (Raise e, w')) ∧
  (∀ e w', Api.switch_model name w = (Raise e, w') →
           model_manager w' = model_manager w ∧ predictor w' = predictor w) ∧
  (Registry.cannot_load name w →
   ∃ e, ModelManager.set_current_model name w = (Raise e, w)) ∧
  (∀ e w', ModelManager.set_current_model name w = (Raise e, w') →
           model_manager w' = model_manager w ∧ predictor w' = predictor w).
Proof.
  assert (Hset : ∀ e w',
    ModelManager.set_current_model name w = (Raise e, w') →
    model_manager w' = model_manager w ∧ predictor w' = predictor w).
  { intros e w' Heq.
    pose proof (set_current_model_preserves predictor name
                  (λ _ _, eq_refl) (λ _ _, eq_refl) (λ _ _, eq_refl) w) as Hpred.
    pose proof (set_current_model_manager name w) as Hmm.
    rewrite Heq in Hpred, Hmm. simpl in *. by destruct Hmm. }
  split_and!; [| |apply set_current_model_cannot_load|exact Hset].
  - intros Hbad. unfold Api.switch_model, Api.no_predictor. unfold_m. simpl.
    destruct (predictor w) as [p|] eqn:Hp; [|by eexists _, _].
    fold (Registry.known name).
    destruct (Registry.known name) eqn:Hk; simpl; [|by eexists _, _].
    destruct Hbad as [?|Hbad]; [done|].
    destruct (set_current_model_cannot_load name w Hbad) as [e He].
    pose proof (switch_predictor_outcome name w p Hp) as Hsw.
    rewrite He in Hsw. rewrite Hsw. by eexists _, _.
  - intros e w'. unfold Api.switch_model, Api.no_predictor. unfold_m. simpl.
    destruct (predictor w) as [p|] eqn:Hp; [|by intros [= <- <-]].
    fold (Registry.known name).
    destruct (Registry.known name); simpl; [|by intros [= <- <-]].
    pose proof (switch_predictor_outcome name w p Hp) as Hsw.
    destruct (ModelManager.set_current_model name w) as [[m|e0] w1] eqn:Hs;
      rewrite Hsw; [done|].
    intros [= <- <-]. by apply (Hset e0).
Qed.
End ModelManagerProperties.

(** ** Submission *)

Section Submission.
Context `{RT : Runtime}.

Lemma append_inj_l (a x y : string) : a +:+ x = a +:+ y → x = y.
Proof. induction a as [|c a IH]; simpl; [done|]. intros [= H]. auto. Qed.

Lemma source_driving_distinct task_id (src drv : UploadFile) :
  Api.source_path_of task_id src ≠ Api.driving_path_of task_id drv.
Proof.
  unfold Api.source_path_of, Api.driving_path_of, os_path_join.
  intros H. do 3 apply append_inj_l in H. discriminate.
Qed.

Lemma uploads_not_results task_id tid' (up : UploadFile) suffix :
  Api.source_path_of task_id up ≠ os_path_join Api.RESULTS_DIR (tid' +:+ suffix) ∧
  Api.driving_path_of task_id up ≠ os_path_join Api.RESULTS_DIR (tid' +:+ suffix).
Proof. split; discriminate. Qed.

(** C2, amended.  With a predictor loaded and two uploads whose content
    types start with [image/] and [video/], [generate_motion] writes both
    uploads under the task's names, records the task with status
    ["processing"] and progress 0, adds one background job and returns the
    task id at once: the two writes are all it does, no decoding and no
    inference.  A content type that fails the check gives HTTP 400, no
    predictor gives HTTP 503, and in both cases the state is untouched. *)
Theorem generate_motion_submits
    (task_id : string) (src drv : UploadFile) (name : string) (w : World) :
  let source_path := Api.source_path_of task_id src in
  let driving_path := Api.driving_path_of task_id drv in
  let out := Api.generate_motion task_id src drv name w in
  (is_Some (predictor w) → Api.valid_uploads src drv = true →
   fst out = Ok (mkMotionResponse task_id "processing" None None) ∧
   files (snd out) !! source_path = Some (file src) ∧
   files (snd out) !! driving_path = Some (file drv) ∧
   current_tasks (snd out) =
     <[task_id := mkTask "processing" 0 None None]> (current_tasks w) ∧
   scheduled (snd out) =
     scheduled w ++ [mkJob task_id source_path driving_path name] ∧
   trace (snd out) = trace w ++ [EvWrite source_path; EvWrite driving_path]) ∧
  (is_Some (predictor w) → Api.valid_uploads src drv = false →
   ∃ detail, out = (Raise (HTTPException 400 detail), w)) ∧
  (predictor w = None →
   out = (Raise (HTTPException 503 "No models loaded"), w)).
Proof.
  intros source_path driving_path out. subst out.
  unfold Api.generate_motion, Api.valid_uploads, Api.no_predictor,
    Api.set_task, write_file.
  unfold_m. simpl.
  split_and!.
  - intros [p Hp] Hvalid. rewrite Hp.
    apply andb_true_iff in Hvalid as [-> ->]. simpl.
    fold source_path driving_path.
    split_and!; try done.
    + rewrite lookup_insert_ne by (symmetry; apply source_driving_distinct).
      apply lookup_insert_eq.
    + apply lookup_insert_eq.
    + by rewrite <- app_assoc.
  - intros [p Hp] Hvalid. rewrite Hp.
    destruct (Api.startswith (content_type src) "image/"); simpl in *;
      [|by eexists].
    rewrite Hvalid. simpl. by eexists.
  - by intros ->.
Qed.
End Submission.

(** ** The predictor and the worker, statement by statement *)

Section PredictorFrame.
Context `{RT : Runtime}.
Context {B : Type} (f : World → B).
Hypothesis f_trace : ∀ t w, f (set_trace t w) = f w.

Lemma to_device_preserves {A} dev (t : A) :
  preserves f (Motion3DPredictor.to_device dev t).
Proof. unfold Motion3DPredictor.to_device. preserves_tac. Qed.

Lemma preprocess_image_preserves self path :
  preserves f (Motion3DPredictor.preprocess_image self path).
Proof.
  unfold Motion3DPredictor.preprocess_image.
  pose proof @to_device_preserves. preserves_tac.
Qed.

Lemma preprocess_video_preserves self path N :
  preserves f (Motion3DPredictor.preprocess_video self path N).
Proof.
  unfold Motion3DPredictor.preprocess_video, Motion3DPredictor.open_capture.
  pose proof @to_device_preserves. preserves_tac.
Qed.

Lemma call_model_preserves self source driving :
  preserves f (Motion3DPredictor.call_model self source driving).
Proof. unfold Motion3DPredictor.call_model. preserves_tac. Qed.

Lemma save_output_video_preserves out path :
  (∀ fs w, f (set_files fs w) = f w) →
  preserves f (Motion3DPredictor._save_output_video out path).
Proof. intros Hf. unfold Motion3DPredictor._save_output_video. preserves_tac. Qed.

Lemma generate_motion_preserves self sp dp out :
  (∀ fs w, f (set_files fs w) = f w) →
  preserves f (Motion3DPredictor.generate_motion self sp dp out).
Proof.
  intros Hf. unfold Motion3DPredictor.generate_motion.
  pose proof preprocess_image_preserves. pose proof preprocess_video_preserves.
  pose proof call_model_preserves. pose proof save_output_video_preserves.
  preserves_tac.
Qed.

Lemma time_preserves :
  (∀ n w, f (set_clock_reads n w) = f w) →
  preserves f Motion3DPredictor.time.
Proof. intros Hc. unfold Motion3DPredictor.time. preserves_tac. Qed.

Lemma benchmark_loop_preserves self source driving n times :
  (∀ n w, f (set_clock_reads n w) = f w) →
  preserves f (Motion3DPredictor.benchmark_loop self source driving n times).
Proof.
  intros Hc. revert times. induction n as [|n IH]; intros times; simpl.
  - preserves_tac.
  - pose proof time_preserves. pose proof call_model_preserves. preserves_tac.
Qed.

Lemma benchmark_performance_preserves self image video num_runs :
  (∀ n w, f (set_clock_reads n w) = f w) →
  preserves f (Motion3DPredictor.benchmark_performance self image video num_runs).
Proof.
  intros Hc. unfold Motion3DPredictor.benchmark_performance.
  pose proof preprocess_image_preserves. pose proof preprocess_video_preserves.
  pose proof benchmark_loop_preserves. preserves_tac.
Qed.

Lemma the_predictor_preserves attr : preserves f (Api.the_predictor attr).
Proof. unfold Api.the_predictor. preserves_tac. Qed.

Lemma switch_if_needed_preserves name :
  (∀ n w, f (set_next_obj n w) = f w) →
  (∀ m w, f (set_model_manager m w) = f w) →
  (∀ p w, f (set_predictor p w) = f w) →
  preserves f (Api.switch_if_needed name).
Proof.
  intros Hn Hm Hp.
  unfold Api.switch_if_needed, Api.switch_predictor,
    ModelManager.get_current_model.
  pose proof the_predictor_preserves.
  pose proof (set_current_model_preserves f name f_trace Hn Hm).
  preserves_tac.
Qed.
End PredictorFrame.

Global Hint Resolve preprocess_image_preserves preprocess_video_preserves
  call_model_preserves save_output_video_preserves generate_motion_preserves
  benchmark_performance_preserves the_predictor_preserves
  switch_if_needed_preserves : frame.

Section WorkerProperties.
Context `{RT : Runtime}.
Import EventLoop.

Lemma run_stages_app ss1 ss2 (l : Locals) (w : World) :
  Api.run_stages (ss1 ++ ss2) l w =
  match Api.run_stages ss1 l w with
  | (Ok l', w') => Api.run_stages ss2 l' w'
  | (Raise e, w') => (Raise e, w')
  end.
Proof.
  revert l w. induction ss1 as [|s ss1 IH]; intros l w; simpl; [done|].
  unfold bind. destruct (s l w) as [[l'|e] w']; [apply IH|done].
Qed.

Lemma update_task_outcome task_id g (w : World) :
  Api.update_task task_id g w =
  match current_tasks w !! task_id with
  | Some t =>
      (Ok tt, set_current_tasks (<[task_id := g t]> (current_tasks w)) w)
  | None => (Raise (KeyError task_id), w)
  end.
Proof.
  unfold Api.update_task, Api.set_task. unfold_m. simpl.
  by destruct (current_tasks w !! task_id).
Qed.

Lemma preserves_local task_id {A} (m : M A) :
  preserves current_tasks m → preserves scheduled m →
  local_to task_id m ∧ keeps_in_progress task_id m.
Proof.
  intros Ht Hs. split.
  - intros w. split; [apply Hs|]. intros id _. by rewrite Ht.
  - intros w Hin t. unfold EventLoop.in_progress in *. rewrite Ht. apply Hin.
Qed.

Lemma update_task_local task_id g (l : Locals) :
  (∀ t, status t = "processing" → status (g t) = "processing") →
  local_to task_id (Api.update_task task_id g >> ret l) ∧
  keeps_in_progress task_id (Api.update_task task_id g >> ret l).
Proof.
  intros Hg.
  split; intros w; unfold EventLoop.in_progress, bind;
    rewrite update_task_outcome;
    destruct (current_tasks w !! task_id) as [t|] eqn:Ht; simpl; try done.
  - split; [done|]. intros id Hne. by rewrite lookup_insert_ne.
  - intros Hin t'. rewrite lookup_insert_eq. intros [= <-].
    by apply Hg, Hin.
  - intros Hin t'. rewrite Ht. done.
Qed.

Lemma set_task_local task_id t :
  local_to task_id (Api.set_task task_id t).
Proof.
  intros w. unfold Api.set_task. unfold_m. simpl. split; [done|].
  intros id Hne. by rewrite lookup_insert_ne.
Qed.

Lemma on_exception_local j e :
  local_to (job_task_id j) (Api.on_exception j e).
Proof. apply set_task_local. Qed.

(** Every statement of the worker writes its own task only. *)
Lemma stages_local j :
  Forall (λ stage, ∀ l, local_to (job_task_id j) (stage l)) (Api.stages j).
Proof.
  unfold Api.stages. repeat apply List.Forall_cons. 11: apply List.Forall_nil.
  all: intros l.
  all: first
    [ apply update_task_local; by intros [] ?
    | solve [apply preserves_local; preserves_tac]
    | idtac ].
  intros w. unfold Api.set_task. unfold_m. simpl. split; [done|].
  intros id Hne. by rewrite lookup_insert_ne.
Qed.

(** Every statement but the last leaves the task in progress. *)
Lemma stages_keep_in_progress j :
  Forall (λ stage, ∀ l, keeps_in_progress (job_task_id j) (stage l))
         (take 9 (Api.stages j)).
Proof.
  unfold Api.stages. simpl. repeat apply List.Forall_cons. 10: apply List.Forall_nil.
  all: intros l.
  all: first
    [ apply update_task_local; by intros [] ?
    | solve [apply preserves_local; preserves_tac] ].
Qed.
End WorkerProperties.

(** ** The task table under every schedule *)

Section EventLoopProperties.
Context `{RT : Runtime}.
Import EventLoop.

Local Abbreviation tasks s := (current_tasks (world s)).
Local Abbreviation worker_id := (λ wk : Worker, job_task_id (worker_job wk)).

Lemma api_generate_motion_effect task_id src drv name (w : World) :
  let w' := snd (Api.generate_motion task_id src drv name w) in
  (current_tasks w' = current_tasks w ∧ scheduled w' = scheduled w) ∨
  (current_tasks w' =
     <[task_id := mkTask "processing" 0 None None]> (current_tasks w) ∧
   ∃ sp dp, scheduled w' = scheduled w ++ [mkJob task_id sp dp name]).
Proof.
  unfold Api.generate_motion, Api.no_predictor, Api.set_task, write_file.
  unfold_m. simpl.
  destruct (predictor w); [|by left].
  destruct (Api.startswith (content_type src) "image/"); simpl; [|by left].
  destruct (Api.startswith (content_type drv) "video/"); simpl; [|by left].
  right. eauto.
Qed.

Lemma cleanup_task_effect task_id (w : World) :
  let w' := snd (Api.cleanup_task task_id w) in
  scheduled w' = scheduled w ∧
  (current_tasks w' = current_tasks w ∨
   current_tasks w' = delete task_id (current_tasks w)).
Proof.
  unfold Api.cleanup_task, os_path_exists. unfold_m. simpl.
  destruct (current_tasks w !! task_id) as [t|]; [|split; [done|by left]].
  destruct (output_path t) as [path|]; simpl; [|split; [done|by right]].
  destruct (bool_decide (is_Some (files w !! path))); simpl;
    [|split; [done|by right]].
  pose proof (os_remove_preserves current_tasks (λ _ _, eq_refl) path
                (λ _ _, eq_refl) w) as Ht.
  pose proof (os_remove_preserves scheduled (λ _ _, eq_refl) path
                (λ _ _, eq_refl) w) as Hs.
  destruct (os_remove path w) as [[[]|e] w1]; simpl in *.
  - rewrite Ht. split; [done|by right].
  - split; [done|by left].
Qed.

Lemma read_only_endpoints task_id :
  (preserves current_tasks (Api.get_task_status task_id) ∧
   preserves scheduled (Api.get_task_status task_id)) ∧
  (preserves current_tasks (Api.download_result task_id) ∧
   preserves scheduled (Api.download_result task_id)) ∧
  (preserves current_tasks Api.list_tasks ∧
   preserves scheduled Api.list_tasks).
Proof.
  unfold Api.get_task_status, Api.download_result, Api.list_tasks.
  split_and!; preserves_tac.
Qed.

Lemma switch_model_preserves {B} (f : World → B) name :
  (∀ t w, f (set_trace t w) = f w) →
  (∀ n w, f (set_next_obj n w) = f w) →
  (∀ m w, f (set_model_manager m w) = f w) →
  (∀ p w, f (set_predictor p w) = f w) →
  preserves f (Api.switch_model name).
Proof.
  intros Ht Hn Hm Hp.
  unfold Api.switch_model, Api.no_predictor, Api.switch_predictor,
    ModelManager.get_current_model.
  pose proof (the_predictor_preserves f).
  pose proof (set_current_model_preserves f name Ht Hn Hm).
  preserves_tac.
Qed.

Lemma benchmark_model_preserves {B} (f : World → B) ts td src drv name n :
  (∀ t w, f (set_trace t w) = f w) →
  (∀ n w, f (set_next_obj n w) = f w) →
  (∀ m w, f (set_model_manager m w) = f w) →
  (∀ p w, f (set_predictor p w) = f w) →
  (∀ fs w, f (set_files fs w) = f w) →
  (∀ n w, f (set_clock_reads n w) = f w) →
  preserves f (Api.benchmark_model ts td src drv name n).
Proof.
  intros Ht Hn Hm Hp Hf Hc.
  unfold Api.benchmark_model, Api.no_predictor.
  pose proof (switch_if_needed_preserves f Ht name Hn Hm Hp).
  pose proof (benchmark_performance_preserves f Ht).
  preserves_tac.
Qed.

(** One statement of a worker: only its own task is written, nothing is
    scheduled, and a worker that goes on leaves its task in progress. *)
Lemma worker_step_effect (wk : Worker) (w : World) :
  let out := Api.worker_step wk w in
  scheduled (snd out) = scheduled w ∧
  (∀ id, id ≠ worker_id wk →
         current_tasks (snd out) !! id = current_tasks w !! id) ∧
  (∀ wk', fst out = Ok (Some wk') →
          worker_job wk' = worker_job wk ∧
          (in_progress w (worker_id wk) →
           in_progress (snd out) (worker_id wk))).
Proof.
  unfold Api.worker_step.
  destruct (Api.stages (worker_job wk) !! worker_pc wk) as [stage|] eqn:Hst;
    [|by split_and!].
  pose proof (stages_local (worker_job wk)) as Hloc.
  rewrite Forall_lookup in Hloc.
  specialize (Hloc _ _ Hst (worker_locals wk) w). destruct Hloc as [Hs Ht].
  unfold try_except, bind. simpl.
  destruct (stage (worker_locals wk) w) as [[l'|e] w1] eqn:Hrun; simpl in *.
  - destruct (bool_decide_reflect (S (worker_pc wk) < 10)%nat) as [Hlt|Hge];
      simpl; (split_and!; [done|done|]); [|done].
    intros wk' [= <-]. split; [done|]. simpl.
    pose proof (stages_keep_in_progress (worker_job wk)) as Hkeep.
    rewrite Forall_lookup in Hkeep.
    assert (Hst' : take 9 (Api.stages (worker_job wk)) !! worker_pc wk
                   = Some stage) by (rewrite lookup_take_lt; [done|lia]).
    specialize (Hkeep _ _ Hst' (worker_locals wk) w).
    by rewrite Hrun in Hkeep.
  - destruct (on_exception_local (worker_job wk) e w1) as [Hs' Ht'].
    unfold Api.on_exception, Api.set_task in *. unfold_m. simpl in *.
    split_and!; [congruence| |done].
    intros id Hne. rewrite Ht' by done. by apply Ht.
Qed.
Lemma initial_invariant s : initial s → invariant s.
Proof.
  intros (Ht & Hs & Hw & Hi). split; unfold pending_ids, in_progress;
    rewrite ?Ht, ?Hs, ?Hw; simpl.
  - constructor.
  - intros id Hin. by apply elem_of_nil in Hin.
  - intros id [t Hl]. by rewrite lookup_empty in Hl.
  - intros id Hin. by apply elem_of_nil in Hin.
Qed.

(** An operation that starts and ends no worker, schedules nothing and
    at most removes tasks keeps the invariant. *)
Lemma invariant_subtable s s' :
  workers s' = workers s →
  scheduled (world s') = scheduled (world s) →
  (∀ id, id ∈ issued s → id ∈ issued s') →
  (∀ id t, tasks s' !! id = Some t → tasks s !! id = Some t) →
  invariant s → invariant s'.
Proof.
  intros Hw Hs Hi Ht [I1 I2 I3 I4].
  assert (Hp : pending_ids s' = pending_ids s)
    by (unfold pending_ids; by rewrite Hw, Hs).
  split; rewrite ?Hp.
  - done.
  - auto.
  - intros id [t Hl]. apply Hi, I3. eauto.
  - intros id Hin t Hl. apply (I4 id Hin). by apply Ht.
Qed.

Lemma after_invariant {A} (m : M A) s :
  preserves current_tasks m → preserves scheduled m →
  invariant s → invariant (after m s).
Proof.
  intros Ht Hs. apply invariant_subtable; simpl; try done.
  intros id t. by rewrite Ht.
Qed.

Lemma start_pending s i j :
  scheduled (world s) !! i = Some j →
  ((worker_id <$> workers s ++ [mkWorker j 0 None]) ++
   (job_task_id <$> delete i (scheduled (world s))))
  ≡ₚ pending_ids s.
Proof.
  intros Hj. unfold pending_ids.
  rewrite fmap_app, <- app_assoc. apply Permutation_app_head. simpl.
  rewrite (delete_Permutation (job_task_id <$> scheduled (world s)) i
             (job_task_id j)) by (by rewrite list_lookup_fmap, Hj).
  by rewrite list_fmap_delete.
Qed.

Lemma stage_pending_same s i wk wk' :
  workers s !! i = Some wk → worker_job wk' = worker_job wk →
  worker_id <$> <[i := wk']> (workers s) = worker_id <$> workers s.
Proof.
  intros Hwk Hjob. rewrite list_fmap_insert. apply list_insert_id.
  rewrite list_lookup_fmap, Hwk. simpl. by rewrite Hjob.
Qed.

Lemma stage_pending_done s i wk :
  workers s !! i = Some wk →
  pending_ids s ≡ₚ
  worker_id wk :: ((worker_id <$> delete i (workers s)) ++
                   (job_task_id <$> scheduled (world s))).
Proof.
  intros Hwk. unfold pending_ids.
  rewrite (delete_Permutation (worker_id <$> workers s) i (worker_id wk))
    by (by rewrite list_lookup_fmap, Hwk).
  by rewrite list_fmap_delete.
Qed.

Lemma worker_is_pending s i wk :
  workers s !! i = Some wk → worker_id wk ∈ pending_ids s.
Proof.
  intros Hwk. rewrite (stage_pending_done s i wk Hwk). apply elem_of_cons. by left.
Qed.
Lemma generate_invariant task_id src drv name s :
  task_id ∉ issued s → invariant s →
  invariant
    (mkSystem (snd (Api.generate_motion task_id src drv name (world s)))
              (workers s) (task_id :: issued s)).
Proof.
  intros Hfresh Hinv.
  destruct (api_generate_motion_effect task_id src drv name (world s))
    as [[Ht Hs]|[Ht (sp & dp & Hs)]].
  - revert Hinv. apply invariant_subtable; simpl; try done.
    + intros id Hin. apply elem_of_cons. by right.
    + intros id t. by rewrite Ht.
  - destruct Hinv as [I1 I2 I3 I4].
    assert (Hp : pending_ids
                   (mkSystem (snd (Api.generate_motion task_id src drv name (world s)))
                             (workers s) (task_id :: issued s))
                 = pending_ids s ++ [task_id]).
    { unfold pending_ids. simpl. rewrite Hs, fmap_app. simpl.
      by rewrite app_assoc. }
    assert (Hnp : task_id ∉ pending_ids s) by (intros Hin; by apply Hfresh, I2).
    split; rewrite ?Hp; simpl.
    + apply NoDup_app. split_and!; [done| |apply NoDup_singleton].
      intros x Hx Hx'. apply list_elem_of_singleton in Hx'. by subst.
    + intros id Hin. apply elem_of_app in Hin as [Hin|Hin].
      * apply elem_of_cons. right. by apply I2.
      * apply list_elem_of_singleton in Hin. subst. apply elem_of_cons. by left.
    + intros id. rewrite Ht. intros Hsome. apply elem_of_cons.
      destruct (decide (id = task_id)) as [->|Hne]; [by left|right].
      rewrite lookup_insert_ne in Hsome by done. by apply I3.
    + intros id Hin t. unfold in_progress in *. simpl. rewrite Ht.
      destruct (decide (id = task_id)) as [->|Hne].
      * rewrite lookup_insert_eq. by intros [= <-].
      * rewrite lookup_insert_ne by done.
        apply elem_of_app in Hin as [Hin|Hin]; [by apply I4|].
        apply list_elem_of_singleton in Hin. done.
Qed.

Lemma step_invariant op s s' :
  invariant s → step op s = Some s' → invariant s'.
Proof.
  intros Hinv Hstep. destruct op; simpl in Hstep.
  - (* generate *)
    destruct (bool_decide_reflect (task_id ∈ issued s)) as [|Hfresh];
      [done|]. injection Hstep as <-. by apply generate_invariant.
  - (* a job starts *)
    destruct (scheduled (world s) !! i) as [j|] eqn:Hj; [|done].
    injection Hstep as <-. destruct Hinv as [I1 I2 I3 I4].
    pose proof (start_pending s i j Hj) as Hp.
    split; unfold pending_ids, in_progress in *; simpl in *.
    + by rewrite Hp.
    + intros id. rewrite Hp. apply I2.
    + done.
    + intros id. rewrite Hp. apply I4.
  - (* a worker runs one statement *)
    destruct (workers s !! i) as [wk|] eqn:Hwk; [|done].
    pose proof (worker_step_effect wk (world s)) as (Hs & Ht & Hgo).
    pose proof (worker_is_pending s i wk Hwk) as Hpend.
    destruct Hinv as [I1 I2 I3 I4].
    assert (HI3 : ∀ id,
              is_Some (current_tasks (snd (Api.worker_step wk (world s))) !! id) →
              id ∈ issued s).
    { intros id Hsome. destruct (decide (id = worker_id wk)) as [->|Hne];
        [by apply I2|]. rewrite Ht in Hsome by done. by apply I3. }
    destruct (Api.worker_step wk (world s)) as [[[wk'|]|e] w'] eqn:Hrun;
      injection Hstep as <-; simpl in *.
    + destruct (Hgo wk' eq_refl) as [Hjob Hkeep].
      split; unfold pending_ids, in_progress in *; simpl;
        rewrite ?(stage_pending_same s i wk wk' Hwk Hjob), ?Hs; try done.
      intros id Hin t.
      destruct (decide (id = worker_id wk)) as [->|Hne];
        [by apply Hkeep, I4|]. rewrite Ht by done. by apply I4.
    + pose proof (stage_pending_done s i wk Hwk) as Hp.
      rewrite Hp in I1. apply NoDup_cons in I1 as [Hnotin I1].
      split; unfold pending_ids, in_progress in *; simpl; rewrite ?Hs.
      * done.
      * intros id Hin. apply I2. rewrite Hp. apply elem_of_cons. by right.
      * done.
      * intros id Hin t.
        assert (id ≠ worker_id wk) by (by intros ->).
        rewrite Ht by done. apply I4. rewrite Hp. apply elem_of_cons. by right.
    + pose proof (stage_pending_done s i wk Hwk) as Hp.
      rewrite Hp in I1. apply NoDup_cons in I1 as [Hnotin I1].
      split; unfold pending_ids, in_progress in *; simpl; rewrite ?Hs.
      * done.
      * intros id Hin. apply I2. rewrite Hp. apply elem_of_cons. by right.
      * done.
      * intros id Hin t.
        assert (id ≠ worker_id wk) by (by intros ->).
        rewrite Ht by done. apply I4. rewrite Hp. apply elem_of_cons. by right.
  - injection Hstep as <-.
    by apply after_invariant; [apply (read_only_endpoints task_id)..|].
  - injection Hstep as <-.
    by apply after_invariant; [apply (read_only_endpoints task_id)..|].
  - injection Hstep as <-.
    by apply after_invariant; [apply (read_only_endpoints "")..|].
  - (* cleanup *)
    injection Hstep as <-. revert Hinv.
    destruct (cleanup_task_effect task_id (world s)) as [Hs Ht].
    apply invariant_subtable; simpl; try done.
    intros id t. destruct Ht as [->| ->]; [done|].
    intros Hl. by apply lookup_delete_Some in Hl as [_ ?].
  - injection Hstep as <-. by apply after_invariant; [apply switch_model_preserves..|].
  - injection Hstep as <-.
    by apply after_invariant; [apply benchmark_model_preserves..|].
Qed.

Lemma run_invariant ops s s' :
  invariant s → run ops s = Some s' → invariant s'.
Proof.
  revert s. induction ops as [|op ops IH]; intros s Hinv; simpl.
  - by intros [= <-].
  - destruct (step op s) as [s1|] eqn:Hstep; [|done].
    apply IH. by apply (step_invariant op s).
Qed.

Lemma reachable_invariant s : reachable s → invariant s.
Proof.
  intros (s0 & ops & Hinit & Hrun).
  apply (run_invariant ops s0); [by apply initial_invariant|done].
Qed.
Lemma after_settled {A} (m : M A) s id (op : Op) :
  preserves current_tasks m → preserves scheduled m →
  id ∈ issued s → id ∉ pending_ids s →
  id ∈ issued (after m s) ∧ (id ∉ pending_ids (after m s)) ∧
  (tasks (after m s) !! id = tasks s !! id ∨
   (op = OpCleanup id ∧ tasks (after m s) !! id = None)).
Proof.
  intros Ht Hs Hiss Hnp. split_and!; [done| |left; simpl; by rewrite Ht].
  unfold pending_ids, after in *. simpl. by rewrite Hs.
Qed.

(** A task whose call is over (or never was): no operation but its own
    cleanup changes its record, and no call for it ever appears. *)
Lemma step_settled op s s' id :
  id ∈ issued s → id ∉ pending_ids s → step op s = Some s' →
  id ∈ issued s' ∧ (id ∉ pending_ids s') ∧
  (tasks s' !! id = tasks s !! id ∨
   (op = OpCleanup id ∧ tasks s' !! id = None)).
Proof.
  intros Hiss Hnp Hstep.
  destruct op as [task_id src drv name|i|i|task_id|task_id| |task_id|name
                 |ts td src drv name n]; simpl in Hstep.
  - destruct (bool_decide_reflect (task_id ∈ issued s)) as [|Hfresh];
      [done|]. injection Hstep as <-. simpl.
    assert (Hne : id ≠ task_id) by (by intros ->).
    split; [apply elem_of_cons; by right|].
    unfold pending_ids in *. simpl.
    destruct (api_generate_motion_effect task_id src drv name (world s))
      as [[Ht Hs]|[Ht (sp & dp & Hs)]]; rewrite Ht, Hs.
    + by split; [|left].
    + split; [|left; by rewrite lookup_insert_ne].
      rewrite fmap_app, app_assoc. simpl. intros Hin.
      apply elem_of_app in Hin as [Hin|Hin]; [done|].
      by apply list_elem_of_singleton in Hin.
  - destruct (scheduled (world s) !! i) as [j|] eqn:Hj; [|done].
    injection Hstep as <-. simpl. split_and!; [done| |by left].
    unfold pending_ids at 1. simpl. by rewrite (start_pending s i j Hj).
  - destruct (workers s !! i) as [wk|] eqn:Hwk; [|done].
    pose proof (worker_step_effect wk (world s)) as (Hs & Ht & Hgo).
    pose proof (worker_is_pending s i wk Hwk) as Hpend.
    pose proof (stage_pending_done s i wk Hwk) as Hp.
    assert (Hne : id ≠ worker_id wk) by (by intros ->).
    assert (Hdone : id ∉ (worker_id <$> delete i (workers s)) ++
                         (job_task_id <$> scheduled (world s))).
    { intros Hin. apply Hnp. rewrite Hp. apply elem_of_cons. by right. }
    destruct (Api.worker_step wk (world s)) as [[[wk'|]|e] w'] eqn:Hrun;
      injection Hstep as <-; simpl in *;
      (split_and!; [done| |left; by apply Ht]);
      unfold pending_ids; simpl; rewrite Hs; [|done..].
    destruct (Hgo wk' eq_refl) as [Hjob _].
    by rewrite (stage_pending_same s i wk wk' Hwk Hjob).
  - injection Hstep as <-.
    by apply after_settled; [apply (read_only_endpoints task_id)..| |].
  - injection Hstep as <-.
    by apply after_settled; [apply (read_only_endpoints task_id)..| |].
  - injection Hstep as <-.
    by apply after_settled; [apply (read_only_endpoints "")..| |].
  - injection Hstep as <-.
    destruct (cleanup_task_effect task_id (world s)) as [Hs Ht].
    split_and!; [done|unfold pending_ids, after in *; simpl; by rewrite Hs|].
    simpl. destruct Ht as [->| ->]; [by left|].
    destruct (decide (task_id = id)) as [->|Hne].
    + right. split; [done|apply lookup_delete_eq].
    + left. by apply lookup_delete_ne.
  - injection Hstep as <-.
    by apply after_settled; [apply switch_model_preserves..| |].
  - injection Hstep as <-.
    by apply after_settled; [apply benchmark_model_preserves..| |].
Qed.

Lemma run_settled ops s s' id :
  id ∈ issued s → id ∉ pending_ids s → run ops s = Some s' →
  tasks s' !! id = tasks s !! id ∨ tasks s' !! id = None.
Proof.
  revert s. induction ops as [|op ops IH]; intros s Hiss Hnp; simpl.
  - intros [= <-]. by left.
  - destruct (step op s) as [s1|] eqn:Hstep; [|done]. intros Hrun.
    destruct (step_settled op s s1 id Hiss Hnp Hstep) as (Hiss1 & Hnp1 & Hone).
    destruct (IH s1 Hiss1 Hnp1 Hrun) as [Heq|Hnone]; [|by right].
    rewrite Heq. destruct Hone as [?|[_ ?]]; [by left|by right].
Qed.

Lemma terminal_settled s id st :
  invariant s → task_status s id = Some st → terminal st →
  id ∈ issued s ∧ id ∉ pending_ids s.
Proof.
  intros [I1 I2 I3 I4] Hst Hterm. unfold task_status in Hst.
  destruct (tasks s !! id) as [t|] eqn:Ht; [|done].
  injection Hst as <-. split; [apply I3; eauto|].
  intros Hin. specialize (I4 id Hin t Ht).
  rewrite I4 in Hterm. by destruct Hterm.
Qed.

(** C5.  In every reachable state of the server, a task whose status is
    ["completed"] or ["error"] keeps its record, and with it its status,
    through every operation (a statement of any worker, a status query, a
    download, a listing, a submission, a model switch, a benchmark)
    except the cleanup of that very task, which removes the record; and
    after any sequence of operations its status is the same or the
    record is gone. *)
Theorem terminal_status_is_final (s : System) (id st : string) :
  reachable s →
  task_status s id = Some st →
  terminal st →
  (∀ op s', step op s = Some s' →
     task_status s' id = Some st ∨
     (op = OpCleanup id ∧ tasks s' !! id = None)) ∧
  (∀ ops s', run ops s = Some s' →
     task_status s' id = Some st ∨ tasks s' !! id = None).
Proof.
  intros Hreach Hst Hterm.
  destruct (terminal_settled s id st (reachable_invariant s Hreach) Hst Hterm)
    as [Hiss Hnp].
  split.
  - intros op s' Hstep.
    destruct (step_settled op s s' id Hiss Hnp Hstep) as (_ & _ & [Heq|Hcl]);
      [left|by right].
    unfold task_status in *. by rewrite Heq.
  - intros ops s' Hrun.
    destruct (run_settled ops s s' id Hiss Hnp Hrun) as [Heq|Hnone];
      [left|by right].
    unfold task_status in *. by rewrite Heq.
Qed.
End EventLoopProperties.

(** ** One run of the worker *)

Section WorkerRun.
Context `{RT : Runtime}.
Import EventLoop.

(** The worker as written and the worker run statement by statement are
    the same function. *)
Lemma process_motion_transfer_stages (j : Job) (w : World) :
  Api.process_motion_transfer j w = Api.process_motion_transfer_staged j w.
Proof.
  unfold Api.process_motion_transfer, Api.process_motion_transfer_staged,
    Api.stages.
  cbn [Api.run_stages]. unfold try_except, bind, ret.
  repeat match goal with
         | |- context [match ?m w with _ => _ end] =>
             destruct (m w) as [[?|?] ?]; try reflexivity
         | |- context [let (_, _) := ?m ?w0 in _] =>
             destruct (m w0) as [[?|?] ?]; try reflexivity
         end.
Qed.

(** Ten steps of a fresh worker are one call of
    [process_motion_transfer]. *)
Lemma run_worker_process_motion_transfer (j : Job) (w : World) :
  Api.run_worker 10 (mkWorker j 0 None) w = Api.process_motion_transfer j w.
Proof.
  rewrite process_motion_transfer_stages.
  unfold Api.process_motion_transfer_staged, Api.stages.
  cbn [Api.run_stages Api.run_worker]. unfold Api.worker_step, Api.stages.
  cbn [lookup list_lookup worker_job worker_pc worker_locals length bool_decide
       decide_rel Nat.lt_dec].
  unfold try_except, bind, ret.
  repeat match goal with
         | |- context [let (_, _) := ?m ?w0 in _] =>
             destruct (m w0) as [[?|?] ?]; simpl; try reflexivity
         end.
Qed.

Lemma process_motion_transfer_outcome (j : Job) (w : World) :
  Api.process_motion_transfer j w =
  match Api.run_stages (Api.stages j) None w with
  | (Ok _, w1) => (Ok tt, w1)
  | (Raise e, w1) =>
      (Ok tt,
       set_current_tasks
         (<[job_task_id j := mkTask "error" 0 None (Some (str e))]>
            (current_tasks w1)) w1)
  end.
Proof.
  rewrite process_motion_transfer_stages.
  unfold Api.process_motion_transfer_staged, Api.on_exception, Api.set_task.
  unfold_m. by destruct (Api.run_stages (Api.stages j) None w) as [[l|e] w1].
Qed.

Lemma fails_at_run (j : Job) (w : World) (k : nat) (e : exn) :
  Api.fails_at j w k e →
  Api.run_stages (Api.stages j) None w = (Raise e, Api.world_at_failure j w k).
Proof.
  intros (l & wk & stage & Hpre & Hst & Hfail).
  unfold Api.world_at_failure. rewrite Hpre, Hst.
  rewrite <- (take_drop_middle (Api.stages j) k stage Hst) at 1.
  rewrite run_stages_app, Hpre. simpl. unfold bind.
  destruct (stage l wk) as [[l'|e'] w']; simpl in *; congruence.
Qed.

Lemma run_stages_preserves {B} (f : World → B) ss :
  Forall (λ stage, ∀ l, preserves f (stage l)) ss →
  ∀ l, preserves f (Api.run_stages ss l).
Proof.
  induction 1 as [|s ss Hs _ IH]; intros l; simpl; preserves_tac.
Qed.

Lemma run_stages_scheduled j l :
  preserves scheduled (Api.run_stages (Api.stages j) l).
Proof.
  apply run_stages_preserves.
  eapply Forall_impl; [apply stages_local|].
  intros stage Hloc l' w. apply Hloc.
Qed.

(** The file calls, when they return. *)
Lemma shutil_move_ok src dst (w w' : World) r :
  shutil_move src dst w = (Ok r, w') →
  ∃ content, files w !! src = Some content ∧
             files w' = <[dst := content]> (delete src (files w)).
Proof.
  unfold shutil_move. unfold_m. unfold set_trace. simpl.
  destruct (os_fault (SysMove src dst)); [done|]. simpl.
  destruct (files w !! src) as [content|]; simpl; [|done].
  intros [= <- <-]. eauto.
Qed.

Lemma os_remove_ok path (w w' : World) :
  os_remove path w = (Ok tt, w') → files w' = delete path (files w).
Proof.
  unfold os_remove. unfold_m. unfold set_trace. simpl.
  destruct (os_fault (SysRemove path)); [done|]. simpl.
  destruct (files w !! path); simpl; [|done].
  by intros [= <-].
Qed.

(** [generate_motion] of the predictor, when it returns: the file at the
    output path is the whole container [imageio.mimsave] wrote. *)
Lemma predictor_generate_motion_ok self sp dp out (w w' : World) r :
  out ≠ "" →
  Motion3DPredictor.generate_motion self sp dp (Some out) w = (Ok r, w') →
  r = out ∧
  ∃ frames content,
    imageio_mimsave frames = Written content ∧
    files w' = <[out := content]> (files w).
Proof.
  intros Hout H. unfold Motion3DPredictor.generate_motion in H.
  replace (String.eqb out "") with false in H
    by (symmetry; by apply String.eqb_neq).
  apply bind_ok_inv in H as (src_t & w1 & H1 & H).
  apply bind_ok_inv in H as (drv_t & w2 & H2 & H).
  apply bind_ok_inv in H as (out_t & w3 & H3 & H).
  apply bind_ok_inv in H as ([] & w4 & H4 & H).
  injection H as <- <-. split; [done|].
  apply (preserves_apply files) in H1;
    [|by apply preprocess_image_preserves].
  apply (preserves_apply files) in H2;
    [|by apply preprocess_video_preserves].
  apply (preserves_apply files) in H3;
    [|by apply call_model_preserves].
  unfold Motion3DPredictor._save_output_video in H4. unfold_m. simpl in H4.
  destruct (imageio_mimsave (map to_uint8_frame out_t)) as [content|e p] eqn:Hw.
  - injection H4 as <-. exists (map to_uint8_frame out_t), content.
    split; [done|]. simpl. congruence.
  - by destruct p.
Qed.

(** Outside its output path, [generate_motion] changes no file. *)
Lemma predictor_generate_motion_files self sp dp out p :
  out ≠ "" → p ≠ out →
  preserves (λ w, files w !! p)
            (Motion3DPredictor.generate_motion self sp dp (Some out)).
Proof.
  intros Hout Hp. unfold Motion3DPredictor.generate_motion.
  replace (String.eqb out "") with false
    by (symmetry; by apply String.eqb_neq).
  assert (Hsave : ∀ t, preserves (λ w, files w !! p)
                         (Motion3DPredictor._save_output_video t out)).
  { intros t. unfold Motion3DPredictor._save_output_video.
    repeat first
      [ apply preserves_modify; intros ?; simpl;
        first [reflexivity | by rewrite lookup_insert_ne]
      | preserves_step ]. }
  pose proof (preprocess_image_preserves (λ w : World, files w !! p)).
  pose proof (preprocess_video_preserves (λ w : World, files w !! p)).
  pose proof (call_model_preserves (λ w : World, files w !! p)).
  preserves_tac.
Qed.
Lemma output_path_nonempty task_id : Api.output_path_of task_id ≠ "".
Proof. discriminate. Qed.

Lemma shutil_move_files src dst p :
  p ≠ src → p ≠ dst → preserves (λ w, files w !! p) (shutil_move src dst).
Proof.
  intros Hs Hd. unfold shutil_move.
  repeat first
    [ apply preserves_modify; intros ?; simpl;
      first [reflexivity | by rewrite lookup_insert_ne, lookup_delete_ne]
    | preserves_step ].
Qed.

Section Inputs.
Variable j : Job.
Variable p : string.
Hypothesis p_not_output : p ≠ Api.output_path_of (job_task_id j).
Hypothesis p_not_final : p ≠ Api.final_path_of (job_task_id j).

Local Abbreviation ok_locals := (Api.ok_locals j).
Local Abbreviation spares := (Api.spares j p).

Lemma spares_seq {A} (m : M A) :
  preserves (λ w, files w !! p) m → spares (λ l, m >> ret l).
Proof.
  intros Hm l w Hl. unfold bind, ret. specialize (Hm w).
  destruct (m w) as [[a|e] w1]; simpl in *; [|done].
  split; [done|]. by intros l' [= <-].
Qed.

Lemma update_task_files task_id g :
  preserves (λ w, files w !! p) (Api.update_task task_id g).
Proof. unfold Api.update_task, Api.set_task. preserves_tac. Qed.

Lemma stages_spare_inputs : Forall spares (take 7 (Api.stages j)).
Proof.
  unfold Api.stages. simpl.
  repeat apply List.Forall_cons. 8: apply List.Forall_nil.
  - apply spares_seq, update_task_files.
  - apply spares_seq, update_task_files.
  - apply spares_seq. by apply switch_if_needed_preserves.
  - apply spares_seq, update_task_files.
  - intros l w _.
    cbv beta.
    match goal with |- context [snd ?x] =>
      destruct x as [[l1|e] w2] eqn:Hres end; simpl.
    + apply bind_ok_inv in Hres as (self & w1 & Hp & Hres).
      apply bind_ok_inv in Hres as (r & w3 & Hg & Hres).
      injection Hres as <- <-.
      apply (preserves_apply (λ w, files w !! p)) in Hp;
        [|by apply the_predictor_preserves].
      destruct (predictor_generate_motion_ok _ _ _ _ _ _ _
                  (output_path_nonempty _) Hg) as [-> _].
      apply (preserves_apply (λ w, files w !! p)) in Hg;
        [|by apply predictor_generate_motion_files].
      split; [congruence|]. intros l' [= <-]. by right.
    + split; [|done].
      apply bind_raise_inv in Hres as [Hp|(self & w1 & Hp & Hres)].
      { by apply (preserves_apply (λ w, files w !! p)) in Hp;
          [|apply the_predictor_preserves]. }
      apply (preserves_apply (λ w, files w !! p)) in Hp;
        [|by apply the_predictor_preserves].
      apply bind_raise_inv in Hres as [Hg|(r & w3 & Hg & Hres)]; [|done].
      apply (preserves_apply (λ w, files w !! p)) in Hg;
        [|by apply predictor_generate_motion_files].
      congruence.
  - apply spares_seq, update_task_files.
  - intros l w [->| ->].
    + simpl. unfold raise. simpl. done.
    + by apply (spares_seq (shutil_move _ _) (shutil_move_files _ _ p
                  p_not_output p_not_final) (Some _) w); right.
Qed.

Lemma run_stages_spare ss :
  Forall spares ss →
  ∀ l w, ok_locals l →
    files (snd (Api.run_stages ss l w)) !! p = files w !! p ∧
    ∀ l', fst (Api.run_stages ss l w) = Ok l' → ok_locals l'.
Proof.
  induction 1 as [|s ss Hs _ IH]; intros l w Hl; simpl.
  - split; [done|]. by intros l' [= <-].
  - unfold bind. destruct (Hs l w Hl) as [Hf Hl'].
    destruct (s l w) as [[l1|e] w1]; simpl in *; [|done].
    destruct (IH l1 w1 (Hl' l1 eq_refl)) as [Hf2 Hl2].
    split; [congruence|done].
Qed.

(** A failure in one of the first seven statements (up to and
    including the move of the output) leaves the file at [p] as it
    was. *)
Lemma failure_spares_inputs (w : World) (k : nat) (e : exn) :
  Api.fails_at j w k e → (k ≤ 6)%nat →
  files (Api.world_at_failure j w k) !! p = files w !! p.
Proof.
  intros (l & wk & stage & Hpre & Hst & Hfail) Hk.
  unfold Api.world_at_failure. rewrite Hpre, Hst.
  pose proof stages_spare_inputs as Hall.
  assert (Hpre7 : Forall spares (take k (Api.stages j))).
  { replace (take k (Api.stages j))
      with (take k (take 7 (Api.stages j)))
      by (rewrite take_take; f_equal; lia).
    by apply Forall_take. }
  destruct (run_stages_spare _ Hpre7 None w (or_introl eq_refl)) as [Hf Hl].
  rewrite Hpre in Hf, Hl. simpl in *.
  rewrite Forall_lookup in Hall.
  assert (Hst7 : take 7 (Api.stages j) !! k = Some stage)
    by (rewrite lookup_take_lt; [done|lia]).
  destruct (Hall k stage Hst7 l wk (Hl l eq_refl)) as [Hfk _].
  congruence.
Qed.
End Inputs.
(** All statements ran through: the output is at its final path, whole,
    the two inputs are gone, and writing the ["completed"] record was the
    last thing done. *)
Lemma run_stages_success (j : Job) (w w1 : World) (l : Locals) :
  job_source_path j ≠ Api.final_path_of (job_task_id j) →
  job_driving_path j ≠ Api.final_path_of (job_task_id j) →
  Api.run_stages (Api.stages j) None w = (Ok l, w1) →
  ∃ w0 frames content,
    w1 = set_current_tasks
           (<[job_task_id j :=
                mkTask "completed" 100
                       (Some (Api.final_path_of (job_task_id j))) None]>
              (current_tasks w0)) w0 ∧
    imageio_mimsave frames = Written content ∧
    files w0 !! Api.final_path_of (job_task_id j) = Some content ∧
    files w0 !! job_source_path j = None ∧
    files w0 !! job_driving_path j = None.
Proof.
  intros Hsrc Hdrv H.
  rewrite <- (take_drop 4 (Api.stages j)), run_stages_app in H.
  destruct (Api.run_stages (take 4 (Api.stages j)) None w) as [[la|e] wa];
    [|done].
  unfold Api.stages in H. cbn [drop Api.run_stages] in H.
  apply bind_ok_inv in H as (l4 & w4 & H4 & H).
  apply bind_ok_inv in H as (l5 & w5 & H5 & H).
  apply bind_ok_inv in H as (l6 & w6 & H6 & H).
  apply bind_ok_inv in H as (l7 & w7 & H7 & H).
  apply bind_ok_inv in H as (l8 & w8 & H8 & H).
  apply bind_ok_inv in H as (l9 & w9 & H9 & H).
  injection H as <- <-.
  (* the predictor's generate_motion *)
  apply bind_ok_inv in H4 as (self & wa' & Hp & H4).
  apply bind_ok_inv in H4 as (r & w4' & Hg & H4).
  injection H4 as <- <-.
  destruct (predictor_generate_motion_ok _ _ _ _ _ _ _
              (output_path_nonempty _) Hg) as (-> & frames & content & Hw & Hf4).
  apply (preserves_apply files) in Hp; [|by apply the_predictor_preserves].
  (* progress 75 *)
  apply bind_ok_inv in H5 as ([] & w5' & Hu & H5). injection H5 as <- <-.
  apply (preserves_apply files) in Hu;
    [|unfold Api.update_task, Api.set_task; preserves_tac].
  (* the move *)
  apply bind_ok_inv in H6 as (r6 & w6' & Hm & H6). injection H6 as <- <-.
  apply shutil_move_ok in Hm as (c & Hc & Hf6).
  (* the two removals *)
  apply bind_ok_inv in H7 as ([] & w7' & Hr7 & H7). injection H7 as <- <-.
  apply os_remove_ok in Hr7.
  apply bind_ok_inv in H8 as ([] & w8' & Hr8 & H8). injection H8 as <- <-.
  apply os_remove_ok in Hr8.
  (* the completed record *)
  apply bind_ok_inv in H9 as ([] & w9' & Hs & H9). injection H9 as <- <-.
  unfold Api.set_task, modify in Hs. injection Hs as <-.
  rewrite Hu, Hf4, lookup_insert_eq in Hc. injection Hc as <-.
  exists w8', frames, content. split_and!; [done|done|..].
  - rewrite Hr8, Hr7, Hf6.
    rewrite !lookup_delete_ne by done. apply lookup_insert_eq.
  - rewrite Hr8. apply lookup_delete_None.
    destruct (decide (job_driving_path j = job_source_path j)); [by left|right].
    rewrite Hr7. apply lookup_delete_eq.
  - rewrite Hr8. apply lookup_delete_eq.
Qed.

End WorkerRun.

(** ** The benchmark *)

Section Benchmark.
Context `{RT : Runtime}.

Lemma benchmark_loop_runs self m source driving out_t :
  model self = Some m →
  forward m source driving = Ok out_t →
  ∀ n times (w : World),
    Motion3DPredictor.benchmark_loop self source driving n times w =
    (Ok (times ++ Motion3DPredictor.run_times (clock_reads w) n),
     mkWorld (files w) (model_manager w) (predictor w) (current_tasks w)
             (scheduled w)
             (trace w ++ repeat (EvForward m source driving) n)
             (next_obj w) (clock_reads w + 2 * n)%nat).
Proof.
  intros Hm Hfw. induction n as [|n IH]; intros times w.
  - simpl. unfold ret. rewrite !app_nil_r, Nat.add_0_r. by destruct w.
  - simpl. unfold Motion3DPredictor.time, Motion3DPredictor.call_model.
    rewrite Hm. unfold_m. simpl. rewrite Hfw. simpl.
    rewrite IH. unfold set_clock_reads, set_trace. simpl.
    rewrite <- !app_assoc. simpl. repeat f_equal; lia.
Qed.

Lemma run_times_nonempty c n :
  (1 ≤ n)%nat →
  ∃ tmin tmax,
    Motion3DPredictor.py_min (Motion3DPredictor.run_times c n) = Ok tmin ∧
    Motion3DPredictor.py_max (Motion3DPredictor.run_times c n) = Ok tmax.
Proof. destruct n; [lia|]. simpl. eauto. Qed.

(** [benchmark_performance] when the inputs decode and the model runs:
    one decoding of each input, [num_runs] calls of the model on the same
    two tensors, and a dictionary with the mean, the minimum, the maximum
    and the frame rate. *)
Lemma benchmark_performance_runs self img vid (n : Z) (w : World)
    bytes image m drv_t out_t :
  files w !! img = Some bytes →
  Image_open_RGB bytes = Ok image →
  torch_to (device self) = None →
  Motion3DPredictor.decode_frames
    (Motion3DPredictor.capture_at (files w) vid)
    Motion3DPredictor.default_max_frames = Ok drv_t →
  model self = Some m →
  forward m (transform image) drv_t = Ok out_t →
  1 <= n →
  let times := Motion3DPredictor.run_times (clock_reads w) (Z.to_nat n) in
  ∃ tmin tmax,
    Motion3DPredictor.py_min times = Ok tmin ∧
    Motion3DPredictor.py_max times = Ok tmax ∧
    Motion3DPredictor.benchmark_performance self img vid n w =
    (Ok [ ("avg_time_seconds", VFloat (np_mean times));
          ("min_time_seconds", VFloat tmin);
          ("max_time_seconds", VFloat tmax);
          ("fps", VFloat (int_div_float (Z.of_nat (length drv_t)) (np_mean times)));
          ("model_name", VStr (model_name self));
          ("input_frames", VInt (Z.of_nat (length drv_t)));
          ("device", VStr (device self)) ],
     mkWorld (files w) (model_manager w) (predictor w) (current_tasks w)
             (scheduled w)
             (trace w ++ [EvImageOpen img; EvVideoCapture vid] ++
              repeat (EvForward m (transform image) drv_t) (Z.to_nat n))
             (next_obj w) (clock_reads w + 2 * Z.to_nat n)%nat).
Proof.
  intros Himg Hopen Hdev Hdec Hm Hfw Hn times.
  destruct (run_times_nonempty (clock_reads w) (Z.to_nat n) ltac:(lia))
    as (tmin & tmax & Hmin & Hmax).
  exists tmin, tmax. split_and!; [done..|].
  unfold Motion3DPredictor.benchmark_performance,
    Motion3DPredictor.preprocess_image, Motion3DPredictor.preprocess_video,
    Motion3DPredictor.open_capture, Motion3DPredictor.to_device.
  unfold_m. unfold set_trace. simpl.
  rewrite Himg. simpl. rewrite Hopen. simpl. rewrite Hdev. simpl.
  rewrite Hdec. simpl. rewrite ?Hdev. simpl.
  rewrite (benchmark_loop_runs self m _ _ out_t Hm Hfw). simpl.
  rewrite Hmin, Hmax. subst times. simpl.
  rewrite <- !app_assoc. simpl. repeat f_equal; lia.
Qed.
Lemma bind_ok {A C} (m : M A) (k : A → M C) (w w1 : World) a :
  m w = (Ok a, w1) → bind m k w = k a w1.
Proof. intros H. unfold bind. by rewrite H. Qed.

Lemma os_remove_present path content (w : World) :
  os_fault (SysRemove path) = None →
  files w !! path = Some content →
  os_remove path w =
  (Ok tt, set_files (delete path (files w))
            (set_trace (trace w ++ [EvRemove path]) w)).
Proof.
  intros Hf Hp. unfold os_remove. unfold_m. unfold set_trace. simpl.
  rewrite Hf. simpl. by rewrite Hp.
Qed.

(** Without a run there is no minimum: [benchmark_performance] with
    [num_runs <= 0] raises after decoding. *)
Lemma benchmark_performance_no_runs self img vid (n : Z) (w : World)
    bytes image drv_t :
  files w !! img = Some bytes →
  Image_open_RGB bytes = Ok image →
  torch_to (device self) = None →
  Motion3DPredictor.decode_frames
    (Motion3DPredictor.capture_at (files w) vid)
    Motion3DPredictor.default_max_frames = Ok drv_t →
  n <= 0 →
  fst (Motion3DPredictor.benchmark_performance self img vid n w) =
  Raise (ValueError "min() arg is an empty sequence").
Proof.
  intros Himg Hopen Hdev Hdec Hn.
  unfold Motion3DPredictor.benchmark_performance,
    Motion3DPredictor.preprocess_image, Motion3DPredictor.preprocess_video,
    Motion3DPredictor.open_capture, Motion3DPredictor.to_device.
  unfold_m. unfold set_trace. simpl.
  rewrite Himg. simpl. rewrite Hopen. simpl. rewrite Hdev. simpl.
  rewrite Hdec. simpl. rewrite ?Hdev. simpl.
  replace (Z.to_nat n) with 0%nat by lia. done.
Qed.

End Benchmark.

(** * Further properties of the code *)

(** ** The endpoints that read and delete tasks *)

Section Endpoints.
Context `{RT : Runtime}.

Lemma get_task_status_absent task_id (w : World) :
  current_tasks w !! task_id = None →
  Api.get_task_status task_id w =
    (Raise (HTTPException 404 "Task not found"), w) ∧
  Api.download_result task_id w =
    (Raise (HTTPException 404 "Task not found"), w).
Proof.
  intros H. unfold Api.get_task_status, Api.download_result. unfold_m.
  simpl. by rewrite H.
Qed.

(** X1.  [cleanup_task] on an id that is not in the table answers 404 and
    changes nothing.  When it returns, the record is gone (so
    [get_task_status] and [download_result] answer 404 for that id), the
    file the record named as its output is no longer on disk, every other
    file is as before (a failed task names no output, so nothing is
    removed for it: the uploads stay), and a job still scheduled for the
    task stays scheduled.  When it raises, table and files are unchanged. *)
Theorem cleanup_task_removes (task_id : string) (w : World) :
  (current_tasks w !! task_id = None →
   Api.cleanup_task task_id w =
     (Raise (HTTPException 404 "Task not found"), w)) ∧
  (∀ msg w', Api.cleanup_task task_id w = (Ok msg, w') →
     current_tasks w' = delete task_id (current_tasks w) ∧
     scheduled w' = scheduled w ∧
     Api.get_task_status task_id w' =
       (Raise (HTTPException 404 "Task not found"), w') ∧
     Api.download_result task_id w' =
       (Raise (HTTPException 404 "Task not found"), w') ∧
     ∀ t, current_tasks w !! task_id = Some t →
          files w' = match output_path t with
                     | Some path => delete path (files w)
                     | None => files w
                     end) ∧
  (∀ e w', Api.cleanup_task task_id w = (Raise e, w') →
     current_tasks w' = current_tasks w ∧ files w' = files w).
Proof.
  split_and!.
  - intros H. unfold Api.cleanup_task. unfold_m. simpl. by rewrite H.
  - intros msg w' H.
    assert (Hmain : current_tasks w' = delete task_id (current_tasks w) ∧
                    scheduled w' = scheduled w ∧
                    ∀ t, current_tasks w !! task_id = Some t →
                         files w' = match output_path t with
                                    | Some path => delete path (files w)
                                    | None => files w
                                    end).
    { unfold Api.cleanup_task in H.
      apply bind_ok_inv in H as (ts & w0 & H0 & H). injection H0 as <- <-.
      destruct (current_tasks w !! task_id) as [t|] eqn:Ht; [|done].
      apply bind_ok_inv in H as ([] & w1 & H1 & H).
      apply bind_ok_inv in H as ([] & w2 & H2 & H).
      injection H as _ <-. unfold modify in H2. injection H2 as <-. simpl.
      assert (Hw1 : current_tasks w1 = current_tasks w ∧
                    scheduled w1 = scheduled w ∧
                    files w1 = match output_path t with
                               | Some path => delete path (files w)
                               | None => files w
                               end).
      { destruct (output_path t) as [path|]; [|by injection H1 as <-].
        apply bind_ok_inv in H1 as (present & w0 & H0 & H1).
        unfold os_path_exists, gets in H0. injection H0 as <- <-.
        destruct (bool_decide_reflect (is_Some (files w !! path))) as [Hp|Hp].
        - split_and!.
          + by apply (preserves_apply current_tasks) in H1;
              [|apply os_remove_preserves].
          + by apply (preserves_apply scheduled) in H1;
              [|apply os_remove_preserves].
          + by apply os_remove_ok.
        - injection H1 as <-. split_and!; [done|done|].
          symmetry. apply delete_id. by apply eq_None_not_Some. }
      destruct Hw1 as (Ht1 & Hs1 & Hf1). split_and!; [by rewrite Ht1|done|].
      intros t' [= <-]. done. }
    destruct Hmain as (Ht & Hs & Hf). split_and!; try done.
    all: apply get_task_status_absent; rewrite Ht; apply lookup_delete_eq.
  - intros e w' H. unfold Api.cleanup_task in H.
    apply bind_raise_inv in H as [H|(ts & w0 & H0 & H)]; [done|].
    injection H0 as <- <-.
    destruct (current_tasks w !! task_id) as [t|] eqn:Ht;
      [|by injection H as _ <-].
    apply bind_raise_inv in H as [H|([] & w1 & H1 & H)].
    2: { by apply bind_raise_inv in H as [H|([] & w2 & H2 & H)]. }
    destruct (output_path t) as [path|]; [|done].
    apply bind_raise_inv in H as [H|(present & w0 & H0 & H)]; [done|].
    unfold os_path_exists, gets in H0. injection H0 as <- <-.
    destruct (bool_decide (is_Some (files w !! path))); [|done].
    split.
    + by apply (preserves_apply current_tasks) in H;
        [|apply os_remove_preserves].
    + unfold os_remove in H. unfold_m. unfold set_trace in H. simpl in H.
      destruct (os_fault (SysRemove path)); [by injection H as _ <-|].
      simpl in H. destruct (files w !! path); simpl in H; [done|].
      by injection H as _ <-.
Qed.
End Endpoints.

Section WorkerEndpoints.
Context `{RT : Runtime}.

(** X2.  After a run of [process_motion_transfer] the task can be read:
    either [get_task_status] shows the completed record and
    [download_result] returns the final path, at which the whole container
    written by [imageio.mimsave] is found, or [get_task_status] shows an
    error record and [download_result] answers 400. *)
Theorem download_after_run (j : Job) (w : World) :
  let id := job_task_id j in
  let final := Api.final_path_of id in
  let w' := snd (Api.process_motion_transfer j w) in
  job_source_path j ≠ final →
  job_driving_path j ≠ final →
  (∃ frames content,
     Api.get_task_status id w' =
       (Ok (mkTask "completed" 100 (Some final) None), w') ∧
     Api.download_result id w' = (Ok final, w') ∧
     imageio_mimsave frames = Written content ∧
     files w' !! final = Some content) ∨
  (∃ msg,
     Api.get_task_status id w' = (Ok (mkTask "error" 0 None (Some msg)), w') ∧
     Api.download_result id w' =
       (Raise (HTTPException 400 "Task not completed"), w')).
Proof.
  intros id final w' Hsrc Hdrv. subst id final w'.
  rewrite process_motion_transfer_outcome.
  destruct (Api.run_stages (Api.stages j) None w) as [[l|e] w1] eqn:Hrun;
    simpl.
  - left.
    destruct (run_stages_success j w w1 l Hsrc Hdrv Hrun)
      as (w0 & frames & content & -> & Hw & Hf & _).
    exists frames, content.
    unfold Api.get_task_status, Api.download_result, os_path_exists.
    unfold_m. simpl. rewrite lookup_insert_eq. simpl. rewrite Hf. simpl.
    done.
  - right. exists (str e).
    unfold Api.get_task_status, Api.download_result. unfold_m. simpl.
    rewrite lookup_insert_eq. done.
Qed.

(** X3.  Deleting a task between its submission and the start of its
    job does not cancel the job: [cleanup_task] succeeds and leaves the job
    scheduled, and when the job runs, its first statement raises
    [KeyError], so the record is created again with status ["error"] and
    the quoted task id as error text; no decoding or inference is done and
    the two uploaded files stay on disk. *)
Theorem cleanup_before_start_does_not_cancel
    (task_id : string) (src drv : UploadFile) (name : string) (w : World) :
  let source_path := Api.source_path_of task_id src in
  let driving_path := Api.driving_path_of task_id drv in
  let j := mkJob task_id source_path driving_path name in
  let w1 := snd (Api.generate_motion task_id src drv name w) in
  let w2 := snd (Api.cleanup_task task_id w1) in
  let w3 := snd (Api.process_motion_transfer j w2) in
  is_Some (predictor w) →
  Api.valid_uploads src drv = true →
  fst (Api.cleanup_task task_id w1) = Ok "Task cleaned up successfully" ∧
  current_tasks w2 !! task_id = None ∧
  scheduled w2 = scheduled w ++ [j] ∧
  current_tasks w3 !! task_id =
    Some (mkTask "error" 0 None (Some ("'" +:+ task_id +:+ "'"))) ∧
  trace w3 = trace w2 ∧
  files w3 !! source_path = Some (file src) ∧
  files w3 !! driving_path = Some (file drv).
Proof.
  intros source_path driving_path j w1 w2 w3 [p Hp] Hvalid.
  apply andb_true_iff in Hvalid as [Hs Hd].
  assert (Hw1 : w1 =
    set_scheduled (scheduled w ++ [j])
      (set_current_tasks
         (<[task_id := mkTask "processing" 0 None None]> (current_tasks w))
         (set_files (<[driving_path := file drv]>
                       (<[source_path := file src]> (files w)))
            (set_trace (trace w ++ [EvWrite source_path; EvWrite driving_path])
               w)))).
  { subst w1. unfold Api.generate_motion, Api.set_task, write_file.
    unfold_m. rewrite Hp, Hs, Hd. simpl. unfold set_scheduled, set_current_tasks,
      set_files, set_trace. simpl. by rewrite <- app_assoc. }
  assert (Hc : Api.cleanup_task task_id w1 =
               (Ok "Task cleaned up successfully",
                set_current_tasks (delete task_id (current_tasks w1)) w1)).
  { rewrite Hw1. unfold Api.cleanup_task. unfold_m. simpl.
    rewrite lookup_insert_eq. done. }
  subst w3 w2. rewrite Hc. simpl.
  assert (Hnone : current_tasks
                    (set_current_tasks (delete task_id (current_tasks w1)) w1)
                  !! job_task_id j = None) by apply lookup_delete_eq.
  assert (Hrun : Api.process_motion_transfer j
                   (set_current_tasks (delete task_id (current_tasks w1)) w1) =
                 (Ok tt,
                  set_current_tasks
                    (<[task_id := mkTask "error" 0 None
                                    (Some ("'" +:+ task_id +:+ "'"))]>
                       (delete task_id (current_tasks w1)))
                    (set_current_tasks (delete task_id (current_tasks w1)) w1))).
  { rewrite process_motion_transfer_outcome. unfold Api.stages.
    cbn [Api.run_stages]. unfold bind at 1. unfold bind at 1.
    rewrite update_task_outcome, Hnone. done. }
  rewrite Hrun. simpl.
  split_and!; [done|apply lookup_delete_eq|by rewrite Hw1|
               apply lookup_insert_eq|done|..].
  - rewrite Hw1. simpl. rewrite lookup_insert_ne
      by (intros Heq; by apply (source_driving_distinct task_id src drv)).
    apply lookup_insert_eq.
  - rewrite Hw1. simpl. apply lookup_insert_eq.
Qed.
End WorkerEndpoints.

(** ** The cache of the model manager *)

Section CacheProperties.
Context `{RT : Runtime}.

Local Abbreviation loaded w := (loaded_models (model_manager w)).

(** A call of [load_model] that returns found the model in the cache. *)
Lemma load_model_ok_inv name path (w w' : World) (m : Model) :
  ModelManager.load_model name path w = (Ok m, w') →
  loaded w !! name = Some m ∧ w' = w.
Proof.
  intros H. destruct (loaded w !! name) as [m0|] eqn:Hl.
  - rewrite (load_model_cached name path w m0 Hl) in H. by injection H as <- <-.
  - destruct (load_model_miss_raises name path w Hl) as (e & w1 & He & _).
    congruence.
Qed.

(** [load_model] leaves the manager and the trace as they were. *)
Lemma load_model_keeps name path (w : World) :
  let w' := snd (ModelManager.load_model name path w) in
  model_manager w' = model_manager w ∧ trace w' = trace w ∧
  (next_obj w ≤ next_obj w')%nat.
Proof.
  destruct (loaded w !! name) as [m0|] eqn:Hl.
  - by rewrite (load_model_cached name path w m0 Hl).
  - destruct (load_model_miss_raises name path w Hl) as (e & w1 & -> & [->| ->]);
      simpl; split_and!; auto; lia.
Qed.

(** A call of [set_current_model] that returns found the model in the
    cache and only made it the current one. *)
Lemma set_current_model_ok_inv name (w w' : World) (m : Model) :
  ModelManager.set_current_model name w = (Ok m, w') →
  loaded w !! name = Some m ∧
  w' = set_model_manager
         (mkManager (mm_device (model_manager w)) (loaded w)
                    (Some m) (Some name)) w.
Proof.
  unfold ModelManager.set_current_model.
  unfold bind at 1, gets at 1.
  destruct (loaded w !! name) as [m0|] eqn:Hl.
  - rewrite bool_decide_eq_true_2 by eauto.
    unfold bind at 1, ret at 1, bind at 1, gets at 1. rewrite Hl.
    unfold bind, modify, ret. by intros [= <- <-].
  - rewrite bool_decide_eq_false_2 by (intros [? ?]; done).
    destruct (load_model_miss_raises name None w Hl) as (e & w1 & He & _).
    unfold bind at 1, bind at 1. rewrite He. done.
Qed.

Lemma set_current_model_cache name (w : World) :
  let w' := snd (ModelManager.set_current_model name w) in
  loaded w' = loaded w ∧
  mm_device (model_manager w') = mm_device (model_manager w) ∧
  trace w' = trace w.
Proof.
  destruct (ModelManager.set_current_model name w) as [[m|e] w1] eqn:H; simpl.
  - apply set_current_model_ok_inv in H as [_ ->]. done.
  - pose proof (set_current_model_manager name w) as Hmm. rewrite H in Hmm.
    destruct Hmm as [Hl Hmm]. rewrite Hmm. split_and!; [done|done|].
    revert H. unfold ModelManager.set_current_model.
    unfold bind at 1, gets at 1. rewrite Hl.
    rewrite bool_decide_eq_false_2 by (intros [? ?]; done).
    destruct (load_model_miss_raises name None w Hl)
      as (e' & w2 & He & [->| ->]);
      unfold bind at 1, bind at 1; rewrite He; by intros [= _ <-].
Qed.

Lemma unload_model_cache name (w : World) :
  let w' := snd (ModelManager.unload_model name w) in
  loaded w' = delete name (loaded w) ∧
  mm_device (model_manager w') = mm_device (model_manager w) ∧
  next_obj w' = next_obj w ∧ trace w' = trace w ∧ files w' = files w.
Proof.
  unfold ModelManager.unload_model. unfold_m. simpl.
  destruct (bool_decide_reflect (is_Some (loaded w !! name))) as [Hl|Hl]; simpl.
  - by destruct (bool_decide (current_model_name (model_manager w) = Some name)).
  - split_and!; try done. symmetry. apply delete_id.
    by apply eq_None_not_Some.
Qed.

(** No operation of the manager adds to the cache or changes the
    device. *)
Lemma step_cache op (w : World) :
  loaded (Registry.step op w) ⊆ loaded w ∧
  mm_device (model_manager (Registry.step op w)) = mm_device (model_manager w).
Proof.
  destruct op as [name path|name|name]; simpl.
  - destruct (load_model_keeps name path w) as (-> & _). done.
  - destruct (set_current_model_cache name w) as (-> & -> & _). done.
  - destruct (unload_model_cache name w) as (-> & -> & _).
    split; [apply delete_subseteq|done].
Qed.

Lemma run_cache ops : ∀ w : World,
  loaded (Registry.run ops w) ⊆ loaded w.
Proof.
  induction ops as [|op ops IH]; intros w; simpl; [done|].
  etrans; [apply IH|]. apply step_cache.
Qed.

Lemma reachable_empty (w : World) : Registry.reachable w → loaded w = ∅.
Proof.
  intros (w0 & dev & ops & Hinit & ->).
  pose proof (run_cache ops w0) as Hsub. rewrite Hinit in Hsub. simpl in Hsub.
  apply map_eq. intros name. rewrite lookup_empty.
  destruct (loaded (Registry.run ops w0) !! name) as [m|] eqn:Hm; [|done].
  eapply lookup_weaken in Hm; [|exact Hsub]. by rewrite lookup_empty in Hm.
Qed.

(** X4.  The cache of the model manager never grows: each of
    [load_model], [set_current_model] and [unload_model] leaves in
    [loaded_models] only models that were there, and the device as it
    was, because the two loaders raise before they return a model.  So in
    every state the manager reaches from [__init__] the cache is empty, no
    model is current, and every [load_model] and every
    [set_current_model] raises. *)
Theorem cache_never_grows (w : World) :
  (∀ op, loaded (Registry.step op w) ⊆ loaded w ∧
         mm_device (model_manager (Registry.step op w))
           = mm_device (model_manager w)) ∧
  (Registry.reachable w →
   loaded w = ∅ ∧
   current_model (model_manager w) = None ∧
   current_model_name (model_manager w) = None ∧
   ∀ name,
     (∀ path, is_ok (fst (ModelManager.load_model name path w)) = false) ∧
     is_ok (fst (ModelManager.set_current_model name w)) = false).
Proof.
  split; [intros op; apply step_cache|].
  intros Hr. pose proof (reachable_empty w Hr) as He.
  pose proof (reachable_consistent w Hr) as Hc.
  assert (Hnone : ∀ name, loaded w !! name = None)
    by (intros name; by rewrite He, lookup_empty).
  assert (Hname : current_model_name (model_manager w) = None).
  { unfold Registry.consistent in Hc.
    destruct (current_model_name (model_manager w)) as [n|]; [|done].
    destruct Hc as [[m Hm] Hl]. rewrite Hnone in Hl. congruence. }
  split_and!; [done| |done|].
  - unfold Registry.consistent in Hc. by rewrite Hname in Hc.
  - intros name. split.
    + intros path.
      destruct (load_model_miss_raises name path w (Hnone name))
        as (e & w1 & -> & _). done.
    + destruct (ModelManager.set_current_model name w) as [[m|e] w1] eqn:H;
        [|done].
      apply set_current_model_ok_inv in H as [Hl _].
      rewrite Hnone in Hl. done.
Qed.

(** X5.  [unload_model] drops the model for good.  It takes the name out
    of the cache and touches neither files nor trace; a [load_model] for
    the same name afterwards raises, whatever the path, and the name stays
    out of the cache through every later [load_model],
    [set_current_model] and [unload_model]. *)
Theorem unload_model_is_final (name : string) (w : World) :
  let w' := snd (ModelManager.unload_model name w) in
  fst (ModelManager.unload_model name w) = Ok tt ∧
  loaded w' = delete name (loaded w) ∧
  files w' = files w ∧ trace w' = trace w ∧
  (∀ path, is_ok (fst (ModelManager.load_model name path w')) = false) ∧
  ∀ ops, loaded (Registry.run ops w') !! name = None.
Proof.
  intros w'. subst w'.
  destruct (unload_model_cache name w) as (Hl & _ & _ & Htr & Hf).
  assert (Hnone : loaded (snd (ModelManager.unload_model name w)) !! name = None)
    by (rewrite Hl; apply lookup_delete_eq).
  split_and!; [|done|done|done| |].
  - unfold ModelManager.unload_model. unfold_m. simpl.
    destruct (bool_decide (is_Some (loaded w !! name))); [|done].
    by destruct (bool_decide (current_model_name (model_manager w) = Some name)).
  - intros path.
    destruct (load_model_miss_raises name path _ Hnone) as (e & w1 & -> & _).
    done.
  - intros ops.
    pose proof (run_cache ops (snd (ModelManager.unload_model name w))) as Hsub.
    destruct (loaded (Registry.run ops (snd (ModelManager.unload_model name w)))
                !! name) as [m|] eqn:Hm; [|done].
    eapply lookup_weaken in Hm; [|exact Hsub]. congruence.
Qed.
End CacheProperties.

(** ** Start-up *)

Section Startup.
Context `{RT : Runtime}.

Local Abbreviation loaded w := (loaded_models (model_manager w)).

Lemma predictor_init_outcome name dev (w : World) :
  Motion3DPredictor.init name dev w =
  match ModelManager.load_model name None w with
  | (Ok m, w') => (Ok (mkPredictor (Some m) name dev), w')
  | (Raise e, w') => (Raise e, w')
  end.
Proof.
  unfold Motion3DPredictor.init. unfold_m.
  by destruct (ModelManager.load_model name None w) as [[m|e] w'].
Qed.

Lemma load_model_cannot_load name (w : World) :
  Registry.cannot_load name w →
  ∃ e, ModelManager.load_model name None w = (Raise e, w).
Proof.
  intros [Hl Hpath]. rewrite (load_model_miss name None w Hl).
  destruct (ModelManager._get_default_model_path name) as [path|e] eqn:Hp;
    [|by eexists].
  rewrite (Hpath path eq_refl).
  rewrite bool_decide_eq_false_2 by (intros [? ?]; done). by eexists.
Qed.

Lemma startup_event_unfold (w : World) :
  Api.startup_event w =
  match ModelManager.load_model "motion_clone" None w with
  | (Ok m, w1) =>
      (Ok tt, set_predictor (Some (mkPredictor (Some m) "motion_clone" "auto")) w1)
  | (Raise _, w1) =>
      match ModelManager.load_model "fomm" None w1 with
      | (Ok m, w2) =>
          (Ok tt, set_predictor (Some (mkPredictor (Some m) "fomm" "auto")) w2)
      | (Raise _, w2) => (Ok tt, set_predictor None w2)
      end
  end.
Proof.
  unfold Api.startup_event, try_except, bind, modify.
  rewrite predictor_init_outcome.
  destruct (ModelManager.load_model "motion_clone" None w) as [[m|e] w1];
    [done|].
  rewrite predictor_init_outcome.
  by destruct (ModelManager.load_model "fomm" None w1) as [[m|e2] w2].
Qed.

(** X6.  [startup_event] never raises, reads no checkpoint and leaves
    manager, files and tasks as they were.  On a process that has just
    started, where neither model is in the cache, it leaves
    [predictor = None] whatever is on disk, because both constructions of
    the predictor end in the error of [load_model]; [health_check] then
    reports no predictor and no device, and [generate_motion],
    [switch_model], [get_available_models] and [benchmark_model] answer
    503. *)
Theorem startup_event_leaves_no_predictor (w : World) :
  let w' := snd (Api.startup_event w) in
  fst (Api.startup_event w) = Ok tt ∧
  model_manager w' = model_manager w ∧
  files w' = files w ∧
  current_tasks w' = current_tasks w ∧
  scheduled w' = scheduled w ∧
  trace w' = trace w ∧
  (loaded w !! "motion_clone" = None → loaded w !! "fomm" = None →
   predictor w' = None ∧
   fst (Api.health_check w') = Ok (mkHealth "healthy" false None) ∧
   (∀ task_id src drv name,
      Api.generate_motion task_id src drv name w' =
        (Raise (HTTPException 503 "No models loaded"), w')) ∧
   (∀ name,
      Api.switch_model name w' =
        (Raise (HTTPException 503 "No models loaded"), w')) ∧
   Api.get_available_models w' =
     (Raise (HTTPException 503 "No models loaded"), w') ∧
   (∀ ts td src drv name n,
      Api.benchmark_model ts td src drv name n w' =
        (Raise (HTTPException 503 "No models loaded"), w'))).
Proof.
  intros w'. subst w'. rewrite startup_event_unfold.
  pose proof (load_model_preserves files "motion_clone" None
                (λ _ _, eq_refl) (λ _ _, eq_refl) (λ _ _, eq_refl) w) as Hf1.
  pose proof (load_model_preserves current_tasks "motion_clone" None
                (λ _ _, eq_refl) (λ _ _, eq_refl) (λ _ _, eq_refl) w) as Ht1.
  pose proof (load_model_preserves scheduled "motion_clone" None
                (λ _ _, eq_refl) (λ _ _, eq_refl) (λ _ _, eq_refl) w) as Hs1.
  destruct (load_model_keeps "motion_clone" None w) as (Hm1 & Hr1 & _).
  destruct (ModelManager.load_model "motion_clone" None w) as [[m|e] w1]
    eqn:H1; simpl in *.
  { apply load_model_ok_inv in H1 as [Hl ->].
    split_and!; try done. intros Hno. congruence. }
  pose proof (load_model_preserves files "fomm" None
                (λ _ _, eq_refl) (λ _ _, eq_refl) (λ _ _, eq_refl) w1) as Hf2.
  pose proof (load_model_preserves current_tasks "fomm" None
                (λ _ _, eq_refl) (λ _ _, eq_refl) (λ _ _, eq_refl) w1) as Ht2.
  pose proof (load_model_preserves scheduled "fomm" None
                (λ _ _, eq_refl) (λ _ _, eq_refl) (λ _ _, eq_refl) w1) as Hs2.
  destruct (load_model_keeps "fomm" None w1) as (Hm2 & Hr2 & _).
  destruct (ModelManager.load_model "fomm" None w1) as [[m|e2] w2]
    eqn:H2; simpl in *.
  { apply load_model_ok_inv in H2 as [Hl ->].
    split_and!; try done. intros _ Hno. rewrite Hm1 in Hl. congruence. }
  split_and!; try done; try congruence.
Qed.
End Startup.

(** ** Which models are available *)

Section Availability.
Context `{RT : Runtime}.

Local Abbreviation loaded w := (loaded_models (model_manager w)).
Local Abbreviation motion_clone_path :=
  (base_dir +:+ "/models/motion_clone/checkpoint.pth").
Local Abbreviation fomm_path := (base_dir +:+ "/models/fomm/vox-cpk.pth.tar").

Lemma default_model_path_inv name path :
  ModelManager._get_default_model_path name = Ok path →
  (name = "motion_clone" ∧ path = motion_clone_path) ∨
  (name = "fomm" ∧ path = fomm_path).
Proof.
  unfold ModelManager._get_default_model_path.
  destruct (String.eqb_spec name "motion_clone") as [->|_];
    [intros [= <-]; by left|].
  destruct (String.eqb_spec name "fomm") as [->|_]; [|done].
  intros [= <-]. by right.
Qed.

Lemma get_available_models_unfold (w : World) :
  ModelManager.get_available_models w =
  (Ok ((if bool_decide (is_Some (files w !! fomm_path))
        then <["fomm" := fomm_path]> else id)
         ((if bool_decide (is_Some (files w !! motion_clone_path))
           then <["motion_clone" := motion_clone_path]> else id) ∅)), w).
Proof.
  unfold ModelManager.get_available_models, os_path_exists. unfold_m. simpl.
  destruct (bool_decide (is_Some (files w !! motion_clone_path)));
    destruct (bool_decide (is_Some (files w !! fomm_path))); done.
Qed.

(** X7.  [ModelManager.get_available_models] changes nothing and
    returns exactly the known names whose default checkpoint is on disk,
    each with that path.  Being listed does not make a model loadable:
    for a name that is not in the cache, [load_model] raises
    [NameError] when the name is listed, after it has constructed a model
    object, and fails without any change when the name is not listed. *)
Theorem get_available_models_lists_checkpoints (w : World) :
  ∃ models,
    ModelManager.get_available_models w = (Ok models, w) ∧
    (∀ name path,
       models !! name = Some path ↔
       ModelManager._get_default_model_path name = Ok path ∧
       is_Some (files w !! path)) ∧
    (∀ name, models !! name = None → loaded w !! name = None →
             ∃ e, ModelManager.load_model name None w = (Raise e, w)) ∧
    (∀ name, is_Some (models !! name) → loaded w !! name = None →
             ModelManager.load_model name None w =
               (Raise (NameError "name 'os' is not defined"),
                set_next_obj (S (next_obj w)) w)).
Proof.
  eexists. split; [apply get_available_models_unfold|].
  assert (Hchar : ∀ name path,
    ((if bool_decide (is_Some (files w !! fomm_path))
      then <["fomm" := fomm_path]> else id)
       ((if bool_decide (is_Some (files w !! motion_clone_path))
         then <["motion_clone" := motion_clone_path]> else id) ∅)
     : gmap string string) !! name = Some path ↔
    ModelManager._get_default_model_path name = Ok path ∧
    is_Some (files w !! path)).
  { intros name path. split.
    - destruct (bool_decide_reflect (is_Some (files w !! fomm_path))) as [Hf|Hf];
        destruct (bool_decide_reflect (is_Some (files w !! motion_clone_path)))
          as [Hm|Hm]; simpl;
        repeat (rewrite lookup_insert_Some; intros [[<- <-]|[? H]]; [done|];
                revert H);
        by rewrite lookup_empty.
    - intros [Hp Hex]. apply default_model_path_inv in Hp as [[-> ->]|[-> ->]].
      + rewrite (bool_decide_eq_true_2 _ Hex).
        destruct (bool_decide (is_Some (files w !! fomm_path))); simpl.
        * rewrite lookup_insert_ne by done. apply lookup_insert_eq.
        * apply lookup_insert_eq.
      + rewrite (bool_decide_eq_true_2 _ Hex). apply lookup_insert_eq. }
  split_and!; [done| |].
  - intros name Hnone Hl. apply load_model_cannot_load. split; [done|].
    intros path Hp. destruct (files w !! path) as [bytes|] eqn:Hf; [|done].
    assert (Hsome : is_Some (files w !! path)) by (rewrite Hf; eauto).
    pose proof (proj2 (Hchar name path) (conj Hp Hsome)). congruence.
  - intros name [path Hin] Hl.
    apply Hchar in Hin as [Hp Hex].
    rewrite (load_model_miss name None w Hl), Hp.
    rewrite (bool_decide_eq_true_2 _ Hex).
    by apply default_model_path_inv in Hp as [[-> _]|[-> _]].
Qed.

(** X8.  [GET /models] answers 503 without a predictor.  With one it
    returns two entries, ["motion_clone"] then ["fomm"], each with the
    manager's device, 0 parameters, size 0, and [available] set exactly
    when the default checkpoint is on disk; and a switch to an entry shown
    as unavailable that is not cached answers 500 and changes nothing. *)
Theorem models_endpoint_reports_disk (w : World) :
  (predictor w = None →
   Api.get_available_models w =
     (Raise (HTTPException 503 "No models loaded"), w)) ∧
  (is_Some (predictor w) →
   let dev := mm_device (model_manager w) in
   let on_disk p := bool_decide (is_Some (files w !! p)) in
   Api.get_available_models w =
     (Ok [ mkModelInfo "motion_clone" dev 0 0 (on_disk motion_clone_path);
           mkModelInfo "fomm" dev 0 0 (on_disk fomm_path) ], w) ∧
   ∀ name,
     name = "motion_clone" ∧ on_disk motion_clone_path = false ∨
     name = "fomm" ∧ on_disk fomm_path = false →
     loaded w !! name = None →
     ∃ detail,
       Api.switch_model name w = (Raise (HTTPException 500 detail), w)).
Proof.
  split.
  - intros Hp. unfold Api.get_available_models, Api.no_predictor. unfold_m.
    simpl. by rewrite Hp.
  - intros [p Hp] dev on_disk. split.
    + unfold Api.get_available_models, bind at 1, gets at 1. rewrite Hp.
      unfold bind at 1, gets at 1. unfold bind.
      rewrite get_available_models_unfold. unfold ret. simpl. subst on_disk dev.
      simpl.
      destruct (bool_decide (is_Some (files w !! motion_clone_path)));
        destruct (bool_decide (is_Some (files w !! fomm_path))); simpl; done.
    + intros name Hname Hl.
      assert (Hno : Registry.cannot_load name w).
      { split; [done|]. intros path Hpath.
        apply default_model_path_inv in Hpath as [[-> ->]|[-> ->]];
          destruct Hname as [[Hn Hd]|[Hn Hd]]; try done;
          subst on_disk; simpl in Hd;
          apply bool_decide_eq_false_1 in Hd;
          by apply eq_None_not_Some. }
      destruct (set_current_model_cannot_load name w Hno) as [e He].
      pose proof (switch_predictor_outcome name w p Hp) as Hsw.
      rewrite He in Hsw.
      exists (str e). unfold Api.switch_model, try_except, bind at 1, gets.
      rewrite Hp.
      replace (negb (String.eqb name "motion_clone" || String.eqb name "fomm"))
        with false by (by destruct Hname as [[-> _]|[-> _]]).
      unfold bind. rewrite Hsw. done.
Qed.

(** X9.  When [switch_model] returns, the name is one of the two known
    ones, the predictor carries that name and the model cached under it
    (its device string unchanged), that model is the manager's current
    model, every model that was cached is still cached, and files and
    tasks are as before. *)
Theorem switch_model_switches (name msg : string) (w w' : World) :
  Api.switch_model name w = (Ok msg, w') →
  msg = "Switched to " +:+ name ∧
  Registry.known name = true ∧
  (∃ p0 m,
     predictor w = Some p0 ∧
     predictor w' = Some (mkPredictor (Some m) name (device p0)) ∧
     loaded w' !! name = Some m ∧
     current_model (model_manager w') = Some m ∧
     current_model_name (model_manager w') = Some name) ∧
  (∀ n k, loaded w !! n = Some k → loaded w' !! n = Some k) ∧
  files w' = files w ∧ current_tasks w' = current_tasks w ∧
  scheduled w' = scheduled w.
Proof.
  intros H.
  pose proof (switch_model_preserves files name (λ _ _, eq_refl)
                (λ _ _, eq_refl) (λ _ _, eq_refl) (λ _ _, eq_refl) w) as Hf.
  pose proof (switch_model_preserves current_tasks name (λ _ _, eq_refl)
                (λ _ _, eq_refl) (λ _ _, eq_refl) (λ _ _, eq_refl) w) as Ht.
  pose proof (switch_model_preserves scheduled name (λ _ _, eq_refl)
                (λ _ _, eq_refl) (λ _ _, eq_refl) (λ _ _, eq_refl) w) as Hs.
  rewrite H in Hf, Ht, Hs. simpl in *.
  unfold Api.switch_model, Api.no_predictor in H.
  apply bind_ok_inv in H as (p & w0 & H0 & H). injection H0 as <- <-.
  destruct (predictor w) as [p0|] eqn:Hp; [|done].
  unfold Registry.known.
  destruct (String.eqb name "motion_clone" || String.eqb name "fomm");
    [|done]. simpl in H.
  unfold try_except in H.
  pose proof (switch_predictor_outcome name w p0 Hp) as Hsw.
  pose proof (set_current_model_manager name w) as Hmm.
  destruct (ModelManager.set_current_model name w) as [[m|e] w1].
  2: { unfold bind in H. rewrite Hsw in H. done. }
  unfold bind in H. rewrite Hsw in H. unfold ret in H. injection H as <- <-.
  destruct Hmm as (Hl & Hc & Hn & Hcache).
  split_and!; try done.
  - exists p0, m. by split_and!.
  - intros n k Hk. simpl. destruct Hcache as [->|[Hnone ->]]; [done|].
    rewrite lookup_insert_ne; [done|congruence].
Qed.
End Availability.

(** ** One run of the predictor *)

Section PredictorRun.
Context `{RT : Runtime}.

Lemma decode_frames_ok (cap : VideoCapture Frame) (N : Z) frames :
  Motion3DPredictor.decode_frames cap N = Ok frames →
  isOpened cap = true ∧ frames ≠ [] ∧
  frames = map Motion3DPredictor.frame_tensor (take (Z.to_nat N) (pending cap)).
Proof.
  unfold Motion3DPredictor.decode_frames.
  destruct (isOpened cap); [|done].
  rewrite preprocess_loop_take. simpl. rewrite Z.sub_0_r.
  destruct (map Motion3DPredictor.frame_tensor
              (take (Z.to_nat N) (pending cap))) eqn:Hm; [done|].
  intros [= <-]. done.
Qed.

Lemma predictor_generate_motion_outcome
    (self : Predictor) (sp dp : string) (out : option string) (w : World) :
  let default :=
    Motion3DPredictor._get_default_output_path self sp dp in
  let target :=
    match out with
    | Some p => if String.eqb p "" then default else p
    | None => default
    end in
  match Motion3DPredictor.generate_motion self sp dp out w with
  | (Ok r, w') =>
      r = target ∧
      ∃ m bytes image output content,
        let driving :=
          map Motion3DPredictor.frame_tensor
              (take 100 (pending (Motion3DPredictor.capture_at (files w) dp))) in
        model self = Some m ∧
        files w !! sp = Some bytes ∧
        Image_open_RGB bytes = Ok image ∧
        driving ≠ [] ∧
        forward m (transform image) driving = Ok output ∧
        imageio_mimsave (map to_uint8_frame output) = Written content ∧
        w' = set_files (<[target := content]> (files w))
               (set_trace
                  (trace w ++ [EvImageOpen sp; EvVideoCapture dp;
                               EvForward m (transform image) driving;
                               EvMimsave target]) w)
  | (Raise e, w') =>
      files w' = files w ∨
      ∃ frames content,
        imageio_mimsave frames = WriteFailed e (Some content) ∧
        files w' = <[target := content]> (files w)
  end.
Proof.
  intros default target.
  unfold Motion3DPredictor.generate_motion, Motion3DPredictor.preprocess_image,
    Motion3DPredictor.preprocess_video, Motion3DPredictor.open_capture,
    Motion3DPredictor.call_model, Motion3DPredictor._save_output_video,
    Motion3DPredictor.to_device, Motion3DPredictor.default_max_frames.
  fold default. fold target.
  unfold_m. unfold set_trace, set_files. simpl.
  destruct (files w !! sp) as [bytes|] eqn:Hsp; simpl; [|by left].
  destruct (Image_open_RGB bytes) as [image|e] eqn:Himg; simpl; [|by left].
  destruct (torch_to (device self)) as [e|] eqn:Hto; simpl; [by left|].
  destruct (Motion3DPredictor.decode_frames
              (Motion3DPredictor.capture_at (files w) dp) 100)
    as [frames|e] eqn:Hdec; simpl; [|by left].
  destruct (model self) as [m|] eqn:Hm; simpl; [|by left].
  apply decode_frames_ok in Hdec as (_ & Hne & Hfr).
  change (Z.to_nat 100) with 100%nat in Hfr.
  destruct (forward m (transform image) frames) as [output|e] eqn:Hfw; simpl;
    [|by left].
  destruct (imageio_mimsave (map to_uint8_frame output)) as [content|e partial]
    eqn:Hw; simpl.
  - split; [done|]. exists m, bytes, image, output, content. simpl.
    rewrite <- Hfr. split_and!; try done.
    by rewrite <- !app_assoc.
  - destruct partial as [content|]; simpl; [right|by left].
    by exists (map to_uint8_frame output), content.
Qed.

(** X10.  [Motion3DPredictor.generate_motion], when it returns, returns
    the path it was given, or the default path for [None] and for the
    empty string; it has opened the image once, decoded the first frames
    of the video (at most 100, at least one), called the model once on
    them and written the frames the model returned to that path and
    nowhere else.  When it raises, no file has changed, unless
    [imageio.mimsave] itself failed after leaving a truncated file at the
    output path. *)
Theorem predictor_generate_motion_spec
    (self : Predictor) (sp dp : string) (out : option string) (w : World) :
  let default :=
    Motion3DPredictor._get_default_output_path self sp dp in
  let target :=
    match out with
    | Some p => if String.eqb p "" then default else p
    | None => default
    end in
  match Motion3DPredictor.generate_motion self sp dp out w with
  | (Ok r, w') =>
      r = target ∧
      ∃ m bytes image output content,
        let driving :=
          map Motion3DPredictor.frame_tensor
              (take 100 (pending (Motion3DPredictor.capture_at (files w) dp))) in
        model self = Some m ∧
        files w !! sp = Some bytes ∧
        Image_open_RGB bytes = Ok image ∧
        driving ≠ [] ∧
        forward m (transform image) driving = Ok output ∧
        imageio_mimsave (map to_uint8_frame output) = Written content ∧
        w' = set_files (<[target := content]> (files w))
               (set_trace
                  (trace w ++ [EvImageOpen sp; EvVideoCapture dp;
                               EvForward m (transform image) driving;
                               EvMimsave target]) w)
  | (Raise e, w') =>
      files w' = files w ∨
      ∃ frames content,
        imageio_mimsave frames = WriteFailed e (Some content) ∧
        files w' = <[target := content]> (files w)
  end.
Proof. apply predictor_generate_motion_outcome. Qed.
End PredictorRun.

(** ** The predictor and the cache *)

Section Agreement.
Context `{RT : Runtime}.
Import EventLoop.

Local Abbreviation loaded w := (loaded_models (model_manager w)).

Lemma agrees_frame (w w' : World) :
  predictor w' = predictor w → model_manager w' = model_manager w →
  Server.agrees w → Server.agrees w'.
Proof. intros Hp Hm Ha p. rewrite Hp, Hm. apply Ha. Qed.

Lemma agrees_preserved {A} (m : M A) (w : World) :
  preserves predictor m → preserves model_manager m →
  Server.agrees w → Server.agrees (snd (m w)).
Proof. intros Hp Hm. by apply agrees_frame. Qed.

Lemma switch_predictor_agrees name (w : World) :
  Server.agrees w → Server.agrees (snd (Api.switch_predictor name w)).
Proof.
  intros Ha. destruct (predictor w) as [p|] eqn:Hp.
  - pose proof (switch_predictor_outcome name w p Hp) as Hsw.
    pose proof (set_current_model_manager name w) as Hmm.
    pose proof (set_current_model_preserves predictor name
                  (λ _ _, eq_refl) (λ _ _, eq_refl) (λ _ _, eq_refl) w) as Hpred.
    destruct (ModelManager.set_current_model name w) as [[m|e] w1];
      rewrite Hsw; simpl in *.
    + intros p' [= <-]. simpl. split; [eauto|]. apply Hmm.
    + destruct Hmm as [_ Hmm]. by apply (agrees_frame w).
  - unfold Api.switch_predictor, Api.the_predictor. unfold_m. rewrite Hp.
    done.
Qed.

Lemma switch_if_needed_agrees name (w : World) :
  Server.agrees w → Server.agrees (snd (Api.switch_if_needed name w)).
Proof.
  intros Ha. unfold Api.switch_if_needed, Api.the_predictor. unfold_m.
  destruct (predictor w) as [p|] eqn:Hp; simpl; [|done].
  destruct (String.eqb (model_name p) name); [done|].
  by apply switch_predictor_agrees.
Qed.

Lemma stages_agree j :
  Forall (λ stage, ∀ l w, Server.agrees w → Server.agrees (snd (stage l w)))
         (Api.stages j).
Proof.
  unfold Api.stages. repeat apply List.Forall_cons. 11: apply List.Forall_nil.
  all: intros l w Ha.
  3: { unfold bind. pose proof (switch_if_needed_agrees (job_model_name j) w Ha).
       by destruct (Api.switch_if_needed (job_model_name j) w) as [[[]|e] w1]. }
  all: apply agrees_preserved; [..|done];
    unfold Api.update_task, Api.set_task; preserves_tac.
Qed.

Lemma worker_step_agrees (wk : Worker) (w : World) :
  Server.agrees w → Server.agrees (snd (Api.worker_step wk w)).
Proof.
  intros Ha. unfold Api.worker_step.
  destruct (Api.stages (worker_job wk) !! worker_pc wk) as [stage|] eqn:Hst;
    [|done].
  pose proof (stages_agree (worker_job wk)) as Hag.
  rewrite Forall_lookup in Hag.
  specialize (Hag _ _ Hst (worker_locals wk) w Ha).
  unfold try_except, bind.
  destruct (stage (worker_locals wk) w) as [[l'|e] w1]; simpl in *.
  - by destruct (bool_decide (S (worker_pc wk) < 10)%nat).
  - unfold Api.on_exception, Api.set_task. unfold_m. simpl.
    by apply (agrees_frame w1).
Qed.

Lemma switch_model_agrees name (w : World) :
  Server.agrees w → Server.agrees (snd (Api.switch_model name w)).
Proof.
  intros Ha. unfold Api.switch_model, Api.no_predictor. unfold_m.
  destruct (predictor w) as [p|] eqn:Hp; simpl; [|done].
  destruct (negb (String.eqb name "motion_clone" || String.eqb name "fomm"));
    [done|].
  pose proof (switch_predictor_agrees name w Ha) as Hsw.
  by destruct (Api.switch_predictor name w) as [[[]|e] w1].
Qed.

Lemma benchmark_model_agrees ts td src drv name n (w : World) :
  Server.agrees w →
  Server.agrees (snd (Api.benchmark_model ts td src drv name n w)).
Proof.
  intros Ha. unfold Api.benchmark_model, Api.no_predictor.
  unfold bind at 1, gets at 1.
  destruct (predictor w) as [p|] eqn:Hp; [|done].
  unfold bind at 1.
  pose proof (write_file_preserves predictor (λ _ _, eq_refl) ts (file src)
                (λ _ _, eq_refl) w) as Hp1.
  pose proof (write_file_preserves model_manager (λ _ _, eq_refl) ts (file src)
                (λ _ _, eq_refl) w) as Hm1.
  destruct (write_file ts (file src) w) as [[[]|e] w1] eqn:H1; simpl in *;
    [|by apply (agrees_frame w)].
  assert (Ha1 : Server.agrees w1) by (by apply (agrees_frame w)).
  unfold bind at 1.
  pose proof (write_file_preserves predictor (λ _ _, eq_refl) td (file drv)
                (λ _ _, eq_refl) w1) as Hp2.
  pose proof (write_file_preserves model_manager (λ _ _, eq_refl) td (file drv)
                (λ _ _, eq_refl) w1) as Hm2.
  destruct (write_file td (file drv) w1) as [[[]|e] w2] eqn:H2; simpl in *;
    [|by apply (agrees_frame w1)].
  assert (Ha2 : Server.agrees w2) by (by apply (agrees_frame w1)).
  unfold try_finally.
  assert (Hbody : ∀ r w3,
    (Api.switch_if_needed name >>
     let* p := Api.the_predictor "benchmark_performance" in
     let* results :=
       Motion3DPredictor.benchmark_performance p ts td n in
     lift (Api.BenchmarkResult_init results)) w2 = (r, w3) →
    Server.agrees w3).
  { intros r w3. unfold bind at 1.
    pose proof (switch_if_needed_agrees name w2 Ha2) as Hsw.
    destruct (Api.switch_if_needed name w2) as [[[]|e] w2']; simpl in *;
      [|by intros [= _ <-]].
    intros H. eapply (agrees_frame w2'); [..|done].
    - eapply (preserves_apply predictor); [|exact H]. preserves_tac.
    - eapply (preserves_apply model_manager); [|exact H]. preserves_tac. }
  destruct ((Api.switch_if_needed name >>
     let* p := Api.the_predictor "benchmark_performance" in
     let* results :=
       Motion3DPredictor.benchmark_performance p ts td n in
     lift (Api.BenchmarkResult_init results)) w2) as [r w3] eqn:Hb.
  specialize (Hbody r w3 eq_refl).
  assert (Hc : Server.agrees (snd ((os_remove ts >> os_remove td) w3))).
  { apply agrees_preserved; [..|done]; preserves_tac. }
  by destruct ((os_remove ts >> os_remove td) w3) as [[[]|e] w4].
Qed.

Lemma step_agrees op s s' :
  Server.agrees (world s) → step op s = Some s' → Server.agrees (world s').
Proof.
  intros Ha.
  destruct op as [task_id src drv name|i|i|task_id|task_id| |task_id|name
                  |ts td src drv name n]; simpl.
  - destruct (bool_decide (task_id ∈ issued s)); [done|]. intros [= <-]. simpl.
    apply agrees_preserved; [..|done];
      unfold Api.generate_motion, Api.no_predictor, Api.set_task, write_file;
      preserves_tac.
  - destruct (scheduled (world s) !! i); [|done]. by intros [= <-].
  - destruct (workers s !! i) as [wk|]; [|done].
    pose proof (worker_step_agrees wk (world s) Ha) as Hw.
    destruct (Api.worker_step wk (world s)) as [[[wk'|]|e] w1];
      by intros [= <-].
  - intros [= <-]. simpl. apply agrees_preserved; [..|done];
      unfold Api.get_task_status; preserves_tac.
  - intros [= <-]. simpl. apply agrees_preserved; [..|done];
      unfold Api.download_result; preserves_tac.
  - by intros [= <-].
  - intros [= <-]. simpl. apply agrees_preserved; [..|done];
      unfold Api.cleanup_task; preserves_tac.
  - intros [= <-]. simpl. by apply switch_model_agrees.
  - intros [= <-]. simpl. by apply benchmark_model_agrees.
Qed.

(** X11.  If the predictor's model is the object the manager caches
    under the predictor's model name, this stays so under every operation
    of the server (submission, job start, each statement of a worker,
    status, download, list, cleanup, switch, benchmark) and so after any
    sequence of them. *)
Theorem predictor_agrees_with_cache (s : System) :
  Server.agrees (world s) →
  (∀ op s', step op s = Some s' → Server.agrees (world s')) ∧
  (∀ ops s', run ops s = Some s' → Server.agrees (world s')).
Proof.
  intros Ha. split; [intros op s'; by apply step_agrees|].
  intros ops. revert s Ha. induction ops as [|op ops IH]; intros s Ha s'; simpl.
  - by intros [= <-].
  - destruct (step op s) as [s1|] eqn:Hs; [|done].
    apply IH. by apply (step_agrees op s).
Qed.
End Agreement.

Section RequestedModel.
Context `{RT : Runtime}.

Local Abbreviation loaded w := (loaded_models (model_manager w)).

Lemma shutil_move_trace src dst (w w' : World) r :
  shutil_move src dst w = (Ok r, w') →
  trace w' = trace w ++ [EvMove src dst].
Proof.
  unfold shutil_move. unfold_m. unfold set_trace. simpl.
  destruct (os_fault (SysMove src dst)); [done|]. simpl.
  destruct (files w !! src) as [content|]; simpl; [|done].
  by intros [= _ <-].
Qed.

Lemma os_remove_trace path (w w' : World) :
  os_remove path w = (Ok tt, w') → trace w' = trace w ++ [EvRemove path].
Proof.
  unfold os_remove. unfold_m. unfold set_trace. simpl.
  destruct (os_fault (SysRemove path)); [done|]. simpl.
  destruct (files w !! path); simpl; [|done].
  by intros [= <-].
Qed.

Lemma switch_if_needed_ok name (w w1 : World) :
  Server.agrees w →
  Api.switch_if_needed name w = (Ok tt, w1) →
  ∃ p m, loaded w !! name = Some m ∧
         predictor w1 = Some p ∧ model_name p = name ∧ model p = Some m ∧
         loaded w1 !! name = Some m ∧ trace w1 = trace w.
Proof.
  intros Hag H. unfold Api.switch_if_needed in H.
  apply bind_ok_inv in H as (p & w0 & H0 & H).
  unfold Api.the_predictor in H0.
  apply bind_ok_inv in H0 as (po & w0' & H0' & H0). injection H0' as <- <-.
  destruct (predictor w) as [p0|] eqn:Hp; [|done]. injection H0 as <- <-.
  destruct (String.eqb_spec (model_name p0) name) as [Heq|Hne].
  - injection H as <-. destruct (Hag p0 Hp) as [[m Hm] Hl].
    exists p0, m. split_and!; try done; congruence.
  - pose proof (switch_predictor_outcome name w p0 Hp) as Hsw.
    pose proof (set_current_model_manager name w) as Hmm.
    destruct (ModelManager.set_current_model name w) as [[m|e] w2] eqn:Hset;
      [|congruence].
    rewrite Hsw in H. injection H as <-.
    pose proof (set_current_model_ok_inv name w w2 m Hset) as [Hl Hw2].
    exists (mkPredictor (Some m) name (device p0)), m. simpl.
    split_and!; try done; [apply Hmm|]. by rewrite Hw2.
Qed.

End RequestedModel.

(** ** The shape of the task records *)

Section TaskRecords.
Context `{RT : Runtime}.
Import EventLoop.

Local Abbreviation tasks s := (current_tasks (world s)).
Local Abbreviation worker_id := (λ wk : Worker, job_task_id (worker_job wk)).
Local Abbreviation all_well_formed w :=
  (∀ id t, current_tasks w !! id = Some t → Server.well_formed id t).

Lemma well_formed_processing task_id (t : Task) :
  Server.well_formed task_id t → status t = "processing" →
  progress t ∈ [0; 25; 50; 75] ∧ output_path t = None ∧ error t = None.
Proof.
  intros [(_ & H)|[->|[msg ->]]] Hst; [done|done..].
Qed.

(** A statement of the worker on a task under way leaves a record of one
    of the three shapes. *)
Lemma stages_well_formed j :
  Forall (λ stage, ∀ l (w : World),
            in_progress w (job_task_id j) →
            (∀ t, current_tasks w !! job_task_id j = Some t →
                  Server.well_formed (job_task_id j) t) →
            ∀ t, current_tasks (snd (stage l w)) !! job_task_id j = Some t →
                 Server.well_formed (job_task_id j) t)
         (Api.stages j).
Proof.
  assert (Hupd : ∀ g (l : Locals) (w : World),
    (∀ t, status t = "processing" →
          progress t ∈ [0; 25; 50; 75] ∧ output_path t = None ∧ error t = None →
          status (g t) = "processing" ∧ progress (g t) ∈ [0; 25; 50; 75] ∧
          output_path (g t) = None ∧ error (g t) = None) →
    in_progress w (job_task_id j) →
    (∀ t, current_tasks w !! job_task_id j = Some t →
          Server.well_formed (job_task_id j) t) →
    ∀ t, current_tasks (snd ((Api.update_task (job_task_id j) g >> ret l) w))
           !! job_task_id j = Some t →
         Server.well_formed (job_task_id j) t).
  { intros g l w Hg Hin Hwf t. unfold bind. rewrite update_task_outcome.
    destruct (current_tasks w !! job_task_id j) as [t0|] eqn:Ht0; simpl.
    - rewrite lookup_insert_eq. intros [= <-]. left.
      apply Hg; [by apply Hin|].
      apply (well_formed_processing (job_task_id j)); [by apply Hwf|by apply Hin].
    - by rewrite Ht0. }
  assert (Hkeep : ∀ (stage : M Locals) (w : World),
    preserves current_tasks stage →
    (∀ t, current_tasks w !! job_task_id j = Some t →
          Server.well_formed (job_task_id j) t) →
    ∀ t, current_tasks (snd (stage w)) !! job_task_id j = Some t →
         Server.well_formed (job_task_id j) t).
  { intros stage w Hp Hwf t. rewrite Hp. apply Hwf. }
  unfold Api.stages. repeat apply List.Forall_cons. 11: apply List.Forall_nil.
  all: intros l w Hin Hwf.
  1, 2, 4, 6: apply Hupd; [|done|done]; intros [] ?; simpl in *;
    intros (? & ? & ?); split_and!; try done;
    rewrite !elem_of_cons; auto 10.
  1, 2, 3, 4, 5: apply Hkeep; [|done]; preserves_tac.
  intros t. unfold Api.set_task. unfold_m. simpl. rewrite lookup_insert_eq.
  intros [= <-]. right. by left.
Qed.

Lemma worker_step_well_formed (wk : Worker) (w : World) :
  in_progress w (worker_id wk) →
  all_well_formed w → all_well_formed (snd (Api.worker_step wk w)).
Proof.
  intros Hin Hwf id t.
  destruct (decide (id = worker_id wk)) as [->|Hne].
  2: { destruct (worker_step_effect wk w) as (_ & Hother & _).
       rewrite Hother by done. apply Hwf. }
  unfold Api.worker_step.
  destruct (Api.stages (worker_job wk) !! worker_pc wk) as [stage|] eqn:Hst;
    [|apply Hwf].
  pose proof (stages_well_formed (worker_job wk)) as Hs.
  rewrite Forall_lookup in Hs.
  specialize (Hs _ _ Hst (worker_locals wk) w Hin (Hwf _)).
  unfold try_except, bind.
  destruct (stage (worker_locals wk) w) as [[l'|e] w1]; simpl in *.
  - destruct (bool_decide (S (worker_pc wk) < 10)%nat); apply Hs.
  - unfold Api.on_exception, Api.set_task. unfold_m. simpl.
    rewrite lookup_insert_eq. intros [= <-]. right. right. eauto.
Qed.

Lemma step_well_formed op s s' :
  invariant s → all_well_formed (world s) → step op s = Some s' →
  all_well_formed (world s').
Proof.
  intros Hinv Hwf.
  assert (Hframe : ∀ {A} (m : M A),
    preserves current_tasks m → all_well_formed (snd (m (world s)))).
  { intros A m Hp id t. rewrite Hp. apply Hwf. }
  destruct op as [task_id src drv name|i|i|task_id|task_id| |task_id|name
                  |ts td src drv name n]; simpl.
  - destruct (bool_decide (task_id ∈ issued s)); [done|]. intros [= <-]. simpl.
    destruct (api_generate_motion_effect task_id src drv name (world s))
      as [[Ht _]|[Ht _]]; intros id t; rewrite Ht; [apply Hwf|].
    rewrite lookup_insert_Some. intros [[<- <-]|[_ H]]; [|by apply Hwf].
    left. split_and!; try done. rewrite !elem_of_cons; auto.
  - destruct (scheduled (world s) !! i); [|done]. intros [= <-]. apply Hwf.
  - destruct (workers s !! i) as [wk|] eqn:Hwk; [|done].
    assert (Hin : in_progress (world s) (worker_id wk)).
    { apply (inv_pending_status s Hinv). by apply (worker_is_pending s i). }
    pose proof (worker_step_well_formed wk (world s) Hin Hwf) as Hw.
    destruct (Api.worker_step wk (world s)) as [[[wk'|]|e] w1];
      by intros [= <-].
  - intros [= <-]. apply Hframe. apply (read_only_endpoints task_id).
  - intros [= <-]. apply Hframe. apply (read_only_endpoints task_id).
  - intros [= <-]. apply Hwf.
  - intros [= <-]. simpl.
    destruct (cleanup_task_effect task_id (world s)) as (_ & [Ht|Ht]);
      intros id t; rewrite Ht; [apply Hwf|].
    rewrite lookup_delete_Some. intros [_ H]. by apply Hwf.
  - intros [= <-]. apply Hframe.
    by apply switch_model_preserves.
  - intros [= <-]. apply Hframe.
    by apply benchmark_model_preserves.
Qed.

Lemma run_well_formed ops : ∀ s s',
  invariant s → all_well_formed (world s) → run ops s = Some s' →
  all_well_formed (world s').
Proof.
  induction ops as [|op ops IH]; intros s s' Hinv Hwf; simpl.
  - by intros [= <-].
  - destruct (step op s) as [s1|] eqn:Hs; [|done].
    apply IH; [by apply (step_invariant op s)|by apply (step_well_formed op s)].
Qed.

(** X13.  Every record of the task table of a reachable state has one of
    three shapes: status ["processing"] with progress 0, 25, 50 or 75 and
    neither output path nor error; status ["completed"] with progress 100
    and the final path of the task as output path; status ["error"] with
    progress 0 and an error text.  So [download_result] never fails on a
    missing ["output_path"] key. *)
Theorem task_records_well_formed (s : System) :
  reachable s →
  (∀ id t, tasks s !! id = Some t → Server.well_formed id t) ∧
  (∀ id, fst (Api.download_result id (world s)) ≠ Raise (KeyError "output_path")).
Proof.
  intros Hr.
  assert (Hwf : all_well_formed (world s)).
  { destruct Hr as (s0 & ops & Hinit & Hrun).
    apply (run_well_formed ops s0 s); [by apply initial_invariant| |done].
    destruct Hinit as (Ht & _). intros id t. by rewrite Ht, lookup_empty. }
  split; [done|].
  intros id. unfold Api.download_result, os_path_exists. unfold_m. simpl.
  destruct (tasks s !! id) as [t|] eqn:Ht; [|done].
  destruct (String.eqb_spec (status t) "completed") as [Hst|Hst]; simpl;
    [|done].
  destruct (Hwf id t Ht) as [(Hp & _)|[->|[msg ->]]]; [congruence| |done].
  simpl. by destruct (bool_decide _).
Qed.
End TaskRecords.

(** ** The temporary files of the benchmark *)

Section BenchmarkFiles.
Context `{RT : Runtime}.

(** X14.  [benchmark_model] removes its two temporary files whatever
    the outcome of the benchmark (the [finally] block): with a predictor
    loaded and both removals permitted, neither temporary file is on disk
    afterwards, every other file is unchanged, and the result or the
    exception is that of the benchmark itself. *)
Theorem benchmark_model_removes_temporaries
    (ts td : string) (src drv : UploadFile) (name : string) (n : Z)
    (w : World) :
  let out := Api.benchmark_model ts td src drv name n w in
  is_Some (predictor w) →
  ts ≠ td →
  os_fault (SysRemove ts) = None →
  os_fault (SysRemove td) = None →
  files (snd out) = delete td (delete ts (files w)) ∧
  files (snd out) !! ts = None ∧ files (snd out) !! td = None ∧
  (files w !! ts = None → files w !! td = None → files (snd out) = files w) ∧
  fst out =
    fst ((Api.switch_if_needed name >>
          let* p := Api.the_predictor "benchmark_performance" in
          let* results :=
            Motion3DPredictor.benchmark_performance p ts td n in
          lift (Api.BenchmarkResult_init results))
           (Api.uploaded ts td src drv w)).
Proof.
  intros out [p Hp] Hne Hf1 Hf2. subst out.
  set (body := (Api.switch_if_needed name >>
          let* p := Api.the_predictor "benchmark_performance" in
          let* results :=
            Motion3DPredictor.benchmark_performance p ts td n in
          lift (Api.BenchmarkResult_init results))).
  set (w2 := Api.uploaded ts td src drv w).
  assert (Hw2 : files w2 = <[td := file drv]> (<[ts := file src]> (files w)))
    by done.
  assert (Hbody : files (snd (body w2)) = files w2).
  { pose proof (switch_if_needed_preserves files (λ _ _, eq_refl) name
                  (λ _ _, eq_refl) (λ _ _, eq_refl) (λ _ _, eq_refl)).
    assert (Hp' : preserves files body) by (subst body; preserves_tac).
    apply Hp'. }
  assert (Heq : Api.benchmark_model ts td src drv name n w =
                try_finally body (os_remove ts >> os_remove td) w2).
  { unfold Api.benchmark_model.
    erewrite bind_ok by reflexivity. rewrite Hp.
    erewrite bind_ok by reflexivity. erewrite bind_ok by reflexivity.
    reflexivity. }
  rewrite Heq. unfold try_finally.
  destruct (body w2) as [r w3] eqn:Hb.
  change (files w3 = files w2) in Hbody.
  assert (Hts : files w3 !! ts = Some (file src)).
  { rewrite Hbody, Hw2, lookup_insert_ne by done. apply lookup_insert_eq. }
  erewrite bind_ok; [|by apply (os_remove_present ts (file src))].
  erewrite os_remove_present; [|done|].
  2: { simpl. rewrite lookup_delete_ne by done. rewrite Hbody, Hw2.
       apply lookup_insert_eq. }
  simpl.
  assert (Hfiles : delete td (delete ts (files w3))
                   = delete td (delete ts (files w))).
  { rewrite Hbody, Hw2. apply map_eq. intros k.
    destruct (decide (k = td)) as [->|Hk1]; [by rewrite !lookup_delete_eq|].
    rewrite !(lookup_delete_ne _ td k) by done.
    destruct (decide (k = ts)) as [->|Hk2]; [by rewrite !lookup_delete_eq|].
    rewrite !(lookup_delete_ne _ ts k) by done.
    by rewrite !lookup_insert_ne. }
  rewrite Hfiles. split_and!; [done| | | |done].
  - rewrite lookup_delete_ne by done. apply lookup_delete_eq.
  - apply lookup_delete_eq.
  - intros H1 H2. by rewrite (delete_id _ ts), (delete_id _ td).
Qed.
End BenchmarkFiles.

(** ** The helpers on frames, files and images *)

Section Utilities.
Context `{RT : Runtime}.

Lemma extract_loop_unlimited (max_frames : option Z) (pend : list Frame) :
  truthy max_frames = false →
  ∀ frames c,
    VideoProcessor.extract_loop max_frames pend frames c = frames ++ pend.
Proof.
  intros Hm. induction pend as [|f rest IH]; intros frames c; simpl.
  - by rewrite app_nil_r.
  - destruct max_frames as [k|]; rewrite ?Hm; simpl;
      by rewrite IH, <- app_assoc.
Qed.

Lemma extract_loop_negative (k : Z) (pend : list Frame) frames c :
  k < 0 → 0 <= c →
  VideoProcessor.extract_loop (Some k) pend frames c = frames ++ take 1 pend.
Proof.
  intros Hk Hc. destruct pend as [|f rest]; simpl; [by rewrite app_nil_r|].
  destruct (Z.eqb_spec k 0) as [->|_]; [lia|]. simpl.
  destruct (Z.leb_spec k (c + 1)); [|lia]. by rewrite take_0.
Qed.

(** X15.  [VideoProcessor.extract_frames] returns all frames for the
    limits [None] and 0, only the first frame for a negative limit, and
    the first [k] frames for a limit [k >= 1]; whatever the limit, the
    result is a prefix of the frames of the video. *)
Theorem extract_frames_limits (cap : VideoCapture Frame) :
  let all := if isOpened cap then pending cap else [] in
  VideoProcessor.extract_frames cap None = all ∧
  VideoProcessor.extract_frames cap (Some 0) = all ∧
  (∀ k, k < 0 → VideoProcessor.extract_frames cap (Some k) = take 1 all) ∧
  (∀ k, 1 <= k →
        VideoProcessor.extract_frames cap (Some k) = take (Z.to_nat k) all) ∧
  (∀ max_frames, ∃ n,
     VideoProcessor.extract_frames cap max_frames = take n all).
Proof.
  intros all. subst all. unfold VideoProcessor.extract_frames.
  assert (H1 : ∀ k, k < 0 →
    (if isOpened cap
     then VideoProcessor.extract_loop (Some k) (pending cap) [] 0 else [])
    = take 1 (if isOpened cap then pending cap else [])).
  { intros k Hk. destruct (isOpened cap); [|done].
    by rewrite extract_loop_negative. }
  assert (H2 : ∀ k, 1 <= k →
    (if isOpened cap
     then VideoProcessor.extract_loop (Some k) (pending cap) [] 0 else [])
    = take (Z.to_nat k) (if isOpened cap then pending cap else [])).
  { intros k Hk. destruct (isOpened cap); [|by rewrite take_nil].
    rewrite extract_loop_take by lia. simpl. by rewrite Z.sub_0_r. }
  assert (H0 : ∀ mf, truthy mf = false →
    (if isOpened cap
     then VideoProcessor.extract_loop mf (pending cap) [] 0 else [])
    = (if isOpened cap then pending cap else [])).
  { intros mf Hmf. destruct (isOpened cap); [|done].
    by rewrite extract_loop_unlimited. }
  split_and!; [by apply H0|by apply H0|done|done|].
  intros [k|].
  - destruct (Z.lt_trichotomy k 0) as [Hk|[->|Hk]].
    + exists 1%nat. by apply H1.
    + exists (length (if isOpened cap then pending cap else [])).
      rewrite firstn_all. by apply H0.
    + exists (Z.to_nat k). apply H2. lia.
  - exists (length (if isOpened cap then pending cap else [])).
    rewrite firstn_all. by apply H0.
Qed.

(** X16.  [FileValidator.is_valid_video] never raises, and it is [True]
    exactly when the video delivers at least one frame; this is when
    [preprocess_video] (with a limit of at least 1) decodes it and when
    [extract_frames] returns a list that is not empty. *)
Theorem is_valid_video_agrees_with_decoders (path : string) (w : World) :
  let cap := Motion3DPredictor.capture_at (files w) path in
  ∃ valid,
    FileValidator.is_valid_video path w =
      (Ok valid, set_trace (trace w ++ [EvVideoCapture path]) w) ∧
    (valid = true ↔ (1 ≤ totalFrames cap)%nat) ∧
    (∀ N, 1 <= N →
          valid = is_ok (Motion3DPredictor.decode_frames cap N)) ∧
    (∀ max_frames,
       valid = true ↔ VideoProcessor.extract_frames cap max_frames ≠ []).
Proof.
  intros cap.
  exists (fst (FileValidator.read cap)). split; [done|].
  assert (Hex : ∀ mf, ∃ n,
    VideoProcessor.extract_frames cap mf =
      take n (if isOpened cap then pending cap else []) ∧
    (1 ≤ n)%nat).
  { intros mf. unfold VideoProcessor.extract_frames.
    destruct (isOpened cap); [|exists 1%nat; by rewrite take_nil].
    destruct mf as [k|].
    - destruct (Z.lt_trichotomy k 0) as [Hk|[->|Hk]].
      + exists 1%nat. by rewrite extract_loop_negative.
      + exists (S (length (pending cap))).
        rewrite extract_loop_unlimited by done. simpl.
        rewrite take_ge by lia. split; [done|lia].
      + exists (Z.to_nat k). rewrite extract_loop_take by lia. simpl.
        rewrite Z.sub_0_r. split; [done|lia].
    - exists (S (length (pending cap))).
      rewrite extract_loop_unlimited by done. simpl.
      rewrite take_ge by lia. split; [done|lia]. }
  unfold FileValidator.read, totalFrames, Motion3DPredictor.decode_frames.
  split_and!.
  - destruct (isOpened cap); [|simpl; split; [done|lia]].
    destruct (pending cap); simpl; split; try done; lia.
  - intros N HN. destruct (isOpened cap); [|done].
    rewrite preprocess_loop_take. simpl. rewrite Z.sub_0_r.
    destruct (pending cap) as [|f rest]; simpl; [by rewrite take_nil|].
    destruct (Z.to_nat N) as [|n] eqn:Hn; [lia|]. done.
  - intros mf. destruct (Hex mf) as (n & -> & Hn).
    destruct (isOpened cap); [|simpl; by rewrite take_nil].
    destruct (pending cap) as [|f rest]; simpl; [by rewrite take_nil|].
    destruct n as [|n]; [lia|]. done.
Qed.
End Utilities.

Section CropProperties.
Context {A : Type}.

Lemma adjust_spec (n i : Z) :
  ImageProcessor.adjust n i =
  if i <? 0 then Z.max 0 (i + n) else Z.min i n.
Proof.
  unfold ImageProcessor.adjust.
  destruct (Z.ltb_spec i 0).
  - destruct (Z.ltb_spec (i + n) 0); lia.
  - destruct (Z.leb_spec n i); lia.
Qed.

Lemma slice_inside (n start len : Z) :
  0 <= start → 0 <= len → start + len <= n →
  ImageProcessor.slice n start (start + len) = (start, len).
Proof.
  intros H1 H2 H3. unfold ImageProcessor.slice. rewrite !adjust_spec.
  destruct (Z.ltb_spec start 0); [lia|].
  destruct (Z.ltb_spec (start + len) 0); [lia|].
  rewrite !Z.min_l by lia.
  destruct (Z.ltb_spec start (start + len)); f_equal; lia.
Qed.

(** A crop longer than the axis: the slice starts at a negative index,
    which Python counts from the end. *)
Lemma slice_oversize (n c : Z) :
  0 <= n < c →
  let kept := Z.min n ((c - n + 1) / 2) in
  ImageProcessor.slice n ((n - c) / 2) ((n - c) / 2 + c) = (n - kept, kept).
Proof.
  intros Hn kept. subst kept.
  pose proof (Z.mul_div_le (n - c) 2 ltac:(lia)).
  pose proof (Z.mul_succ_div_gt (n - c) 2 ltac:(lia)).
  pose proof (Z.mul_div_le (c - n + 1) 2 ltac:(lia)).
  pose proof (Z.mul_succ_div_gt (c - n + 1) 2 ltac:(lia)).
  unfold ImageProcessor.slice. rewrite !adjust_spec.
  destruct (Z.ltb_spec ((n - c) / 2) 0); [|lia].
  destruct (Z.ltb_spec ((n - c) / 2 + c) 0); [lia|].
  rewrite (Z.min_r _ n) by lia.
  destruct (Z.ltb_spec (Z.max 0 ((n - c) / 2 + n)) n); f_equal; lia.
Qed.

(** X17.  [center_crop] with a crop that fits into the image returns an
    image of exactly the crop size, taken from the middle: the margins on
    the left and on top are half the surplus rounded down, and the margin
    on the other side is the same or one larger. *)
Theorem center_crop_fits (image : ndarray A) (crop_width crop_height : Z) :
  let out := ImageProcessor.center_crop image (crop_width, crop_height) in
  let left := (arr_width image - crop_width) / 2 in
  let top := (arr_height image - crop_height) / 2 in
  0 <= crop_width <= arr_width image →
  0 <= crop_height <= arr_height image →
  arr_width out = crop_width ∧
  arr_height out = crop_height ∧
  (∀ i j, arr_at out i j = arr_at image (top + i) (left + j)) ∧
  0 <= left ∧ 0 <= top ∧
  0 <= (arr_width image - crop_width - left) - left <= 1 ∧
  0 <= (arr_height image - crop_height - top) - top <= 1.
Proof.
  intros out left top Hw Hh. subst out left top.
  pose proof (Z.mul_div_le (arr_width image - crop_width) 2 ltac:(lia)).
  pose proof (Z.mul_succ_div_gt (arr_width image - crop_width) 2 ltac:(lia)).
  pose proof (Z.mul_div_le (arr_height image - crop_height) 2 ltac:(lia)).
  pose proof (Z.mul_succ_div_gt (arr_height image - crop_height) 2 ltac:(lia)).
  unfold ImageProcessor.center_crop, ImageProcessor.slice2. cbn [fst snd].
  rewrite !slice_inside by lia. simpl. split_and!; try done; lia.
Qed.

(** X18.  [center_crop] with a crop longer than the image on an axis
    does not centre and does not pad: the start index is negative, which
    the slice counts from the end, so the result keeps only the last
    [min(n, ceil((c - n) / 2))] rows or columns of the image, fewer than
    asked for. *)
Theorem center_crop_oversize (image : ndarray A) (crop_width crop_height : Z) :
  let out := ImageProcessor.center_crop image (crop_width, crop_height) in
  let kept_x :=
    Z.min (arr_width image) ((crop_width - arr_width image + 1) / 2) in
  let kept_y :=
    Z.min (arr_height image) ((crop_height - arr_height image + 1) / 2) in
  (0 <= arr_width image < crop_width →
   arr_width out = kept_x ∧ kept_x <= arr_width image ∧ kept_x < crop_width ∧
   ∀ i j, ∃ r, arr_at out i j = arr_at image r (arr_width image - kept_x + j)) ∧
  (0 <= arr_height image < crop_height →
   arr_height out = kept_y ∧ kept_y <= arr_height image ∧
   kept_y < crop_height ∧
   ∀ i j, ∃ c, arr_at out i j = arr_at image (arr_height image - kept_y + i) c).
Proof.
  intros out kept_x kept_y. subst out kept_x kept_y.
  unfold ImageProcessor.center_crop, ImageProcessor.slice2. cbn [fst snd].
  split.
  - intros Hw. rewrite (slice_oversize (arr_width image)) by done. simpl.
    split_and!; [done|lia|lia|]. intros i j. by eexists.
  - intros Hh. rewrite (slice_oversize (arr_height image)) by done. simpl.
    split_and!; [done|lia|lia|]. intros i j. by eexists.
Qed.
End CropProperties.

(** ** The download script *)

Section Downloads.
Import DownloadModels.

(** X19.  [progress_hook] prints nothing when the total size is not
    positive.  Otherwise, for non-negative block counts and sizes, the
    percentage is between 0 and 100, it is 100 exactly when the bytes
    received reach the total, it never decreases as blocks arrive, and
    the bar is always 50 characters: one full block per two percent,
    hyphens for the rest. *)
Theorem progress_hook_bar (block_num block_size total_size : Z) :
  (total_size <= 0 → progress_hook block_num block_size total_size = None) ∧
  (0 <= block_num → 0 <= block_size → 0 < total_size →
   ∃ line,
     progress_hook block_num block_size total_size = Some line ∧
     0 <= percent line <= 100 ∧
     (percent line = 100 ↔ total_size <= block_num * block_size) ∧
     length (bar line) = 50%nat ∧
     bar line = repeat full_block (Z.to_nat (percent line / 2)) ++
                repeat hyphen (50 - Z.to_nat (percent line / 2)) ∧
     ∀ more line',
       0 <= more →
       progress_hook (block_num + more) block_size total_size = Some line' →
       percent line <= percent line').
Proof.
  unfold progress_hook. split.
  - intros H. by destruct (Z.ltb_spec 0 total_size); [lia|].
  - intros Hn Hs Ht. destruct (Z.ltb_spec 0 total_size); [|lia].
    eexists. split; [reflexivity|]. simpl.
    set (q := block_num * block_size * 100 / total_size).
    assert (Hq : 0 <= q) by (apply Z.div_pos; nia).
    assert (Hhalf : ∀ p, p * 50 / 100 = p / 2).
    { intros p. change 100 with (2 * 50).
      by rewrite Z.div_mul_cancel_r by lia. }
    rewrite Hhalf.
    assert (Hp : 0 <= Z.min 100 q <= 100) by lia.
    pose proof (Z.mul_div_le (Z.min 100 q) 2 ltac:(lia)).
    pose proof (Z.div_pos (Z.min 100 q) 2 ltac:(lia) ltac:(lia)).
    split_and!; [lia|lia| | | |].
    + split.
      * intros H100. assert (H100q : 100 <= q) by lia. subst q.
        pose proof (Z.mul_div_le (block_num * block_size * 100) total_size
                      ltac:(lia)).
        nia.
      * intros Hge. assert (100 <= q); [|lia]. subst q.
        apply Z.div_le_lower_bound; [lia|nia].
    + unfold str_mul. rewrite length_app, !repeat_length. lia.
    + unfold str_mul. f_equal. f_equal. lia.
    + intros more line' Hmore [= <-]. simpl.
      apply Z.min_le_compat_l. subst q.
      apply Z.div_le_mono; [lia|nia].
Qed.

Lemma main_unfold urlretrieve (st : State) :
  main urlretrieve st =
  let p1 := "models/motion_clone/checkpoint.pth" in
  let p2 := "models/fomm/vox-cpk.pth.tar" in
  let u1 := "https://example.com/motion_clone_checkpoint.pth" in
  let u2 := "https://example.com/vox-cpk.pth.tar" in
  let step1 :=
    if bool_decide (is_Some (fst st !! p1)) then (1, st)
    else let out := download_file urlretrieve u1 p1 st in
         (if fst out then 1 else 0, snd out) in
  let step2 :=
    if bool_decide (is_Some (fst (snd step1) !! p2))
    then (fst step1 + 1, snd step1)
    else let out := download_file urlretrieve u2 p2 (snd step1) in
         (if fst out then fst step1 + 1 else fst step1, snd out) in
  (fst step2 =? 2, snd step2).
Proof.
  unfold main, MODELS. cbn [main_loop path url length].
  destruct (bool_decide (is_Some (fst st !! "models/motion_clone/checkpoint.pth")));
    cbn [fst snd].
  - destruct (bool_decide (is_Some (fst st !! "models/fomm/vox-cpk.pth.tar")));
      cbn [fst snd]; [done|].
    by destruct (fst (download_file urlretrieve _ _ st)).
  - destruct (fst (download_file urlretrieve
                     "https://example.com/motion_clone_checkpoint.pth"
                     "models/motion_clone/checkpoint.pth" st)); cbn [fst snd].
    + destruct (bool_decide (is_Some (_ !! "models/fomm/vox-cpk.pth.tar")));
        cbn [fst snd]; [done|].
      by destruct (fst (download_file urlretrieve _ _ _)).
    + destruct (bool_decide (is_Some (_ !! "models/fomm/vox-cpk.pth.tar")));
        cbn [fst snd]; [done|].
      by destruct (fst (download_file urlretrieve _ _ _)).
Qed.

Lemma download_file_keeps urlretrieve u p (st : State) q c :
  fst st !! p = None → fst st !! q = Some c →
  fst (snd (download_file urlretrieve u p st)) !! q = Some c.
Proof.
  intros Hp Hq. unfold download_file.
  assert (q ≠ p) by congruence.
  destruct (urlretrieve u) as [content|e [content|]]; simpl;
    rewrite ?lookup_insert_ne by done; done.
Qed.

Lemma download_file_true urlretrieve u p (st : State) :
  fst (download_file urlretrieve u p st) = true →
  is_Some (fst (snd (download_file urlretrieve u p st)) !! p).
Proof.
  unfold download_file.
  destruct (urlretrieve u) as [content|e partial]; simpl; [|done].
  rewrite lookup_insert_eq. eauto.
Qed.

(** X20.  [main] of [download_models.py] never replaces a file that is
    already there; when both model files are there it requests nothing and
    returns [True]; when it returns [True] both files are there, so a
    second run changes nothing. *)
Theorem download_main_skips_existing urlretrieve (st : State) :
  let out := main urlretrieve st in
  let ready (fs : gmap string string) :=
    Forall (λ entry, is_Some (fs !! path (snd entry))) MODELS in
  (∀ p c, fst st !! p = Some c → fst (snd out) !! p = Some c) ∧
  (ready (fst st) → out = (true, st)) ∧
  (fst out = true → ready (fst (snd out))) ∧
  (fst out = true → main urlretrieve (snd out) = (true, snd out)).
Proof.
  intros out ready.
  assert (Hready : ∀ st', ready (fst st') → main urlretrieve st' = (true, st')).
  { intros st' Hr. subst ready. unfold MODELS in Hr.
    apply Forall_cons_1 in Hr as [H1 Hr]. apply Forall_cons_1 in Hr as [H2 _].
    simpl in H1, H2. rewrite main_unfold. cbn zeta.
    rewrite (bool_decide_eq_true_2 _ H1). cbn [fst snd].
    rewrite (bool_decide_eq_true_2 _ H2). done. }
  assert (Hkeep : ∀ p c, fst st !! p = Some c → fst (snd out) !! p = Some c).
  { intros p c Hp. subst out. rewrite main_unfold. cbn zeta. cbn [snd].
    destruct (bool_decide_reflect
                (is_Some (fst st !! "models/motion_clone/checkpoint.pth")))
      as [H1|H1]; cbn [fst snd].
    - destruct (bool_decide_reflect
                  (is_Some (fst st !! "models/fomm/vox-cpk.pth.tar")))
        as [H2|H2]; cbn [fst snd]; [done|].
      apply download_file_keeps; [by apply eq_None_not_Some|done].
    - apply eq_None_not_Some in H1.
      pose proof (download_file_keeps urlretrieve
                    "https://example.com/motion_clone_checkpoint.pth"
                    _ st p c H1 Hp) as Hk.
      destruct (bool_decide_reflect
                  (is_Some (fst (snd (download_file urlretrieve
                     "https://example.com/motion_clone_checkpoint.pth"
                     "models/motion_clone/checkpoint.pth" st))
                            !! "models/fomm/vox-cpk.pth.tar")))
        as [H2|H2]; cbn [fst snd]; [done|].
      apply download_file_keeps; [by apply eq_None_not_Some|done]. }
  assert (Hafter : fst out = true → ready (fst (snd out))).
  { subst out ready. rewrite main_unfold. cbn zeta. cbn [fst snd].
    unfold MODELS. intros Hok.
    assert (H1 : is_Some
      (fst (snd (if bool_decide (is_Some (fst st !! "models/motion_clone/checkpoint.pth"))
                 then (1, st)
                 else (if fst (download_file urlretrieve
                                 "https://example.com/motion_clone_checkpoint.pth"
                                 "models/motion_clone/checkpoint.pth" st)
                       then 1 else 0,
                       snd (download_file urlretrieve
                              "https://example.com/motion_clone_checkpoint.pth"
                              "models/motion_clone/checkpoint.pth" st))))
         !! "models/motion_clone/checkpoint.pth") ∧
      fst (if bool_decide (is_Some (fst st !! "models/motion_clone/checkpoint.pth"))
                 then (1, st)
                 else (if fst (download_file urlretrieve
                                 "https://example.com/motion_clone_checkpoint.pth"
                                 "models/motion_clone/checkpoint.pth" st)
                       then 1 else 0,
                       snd (download_file urlretrieve
                              "https://example.com/motion_clone_checkpoint.pth"
                              "models/motion_clone/checkpoint.pth" st))) = 1).
    { destruct (bool_decide_reflect
                  (is_Some (fst st !! "models/motion_clone/checkpoint.pth")))
        as [H1|H1]; cbn [fst snd] in *; [done|].
      destruct (fst (download_file urlretrieve
                       "https://example.com/motion_clone_checkpoint.pth"
                       "models/motion_clone/checkpoint.pth" st)) eqn:Hd.
      - split; [by apply download_file_true|done].
      - exfalso. revert Hok.
        destruct (bool_decide _); cbn [fst snd];
          [intros Hok; apply Z.eqb_eq in Hok; lia|].
        destruct (fst (download_file urlretrieve
                         "https://example.com/vox-cpk.pth.tar" _ _));
          intros Hok; apply Z.eqb_eq in Hok; lia. }
    destruct H1 as [H1 Hc1]. revert Hok H1. rewrite Hc1.
    set (st1 := snd (if bool_decide _ then _ else _)).
    intros Hok H1.
    repeat apply List.Forall_cons; [| |apply List.Forall_nil]; cbn [snd path].
    - destruct (bool_decide_reflect
                  (is_Some (fst st1 !! "models/fomm/vox-cpk.pth.tar")))
        as [H2|H2]; cbn [fst snd] in *; [done|].
      destruct H1 as [c Hc].
      erewrite download_file_keeps; [eauto|by apply eq_None_not_Some|done].
    - destruct (bool_decide_reflect
                  (is_Some (fst st1 !! "models/fomm/vox-cpk.pth.tar")))
        as [H2|H2]; cbn [fst snd] in *; [done|].
      destruct (fst (download_file urlretrieve
                       "https://example.com/vox-cpk.pth.tar"
                       "models/fomm/vox-cpk.pth.tar" st1)) eqn:Hd; [|done].
      by apply download_file_true. }
  split_and!; [done|apply Hready|done|].
  intros Hok. apply Hready. by apply Hafter.
Qed.
End Downloads.

(** ** The demo script and the GIF converter *)

Section DemoScript.
Context `{RT : Runtime}.
Variable numel_sum : Model → Z.
Variable nbytes_sum : Model → Z.
Variable int_truediv : Z → Z → PyFloat.
Variable glob : gmap string string → string → string → list string.
Variable project_root : string.

Local Abbreviation main :=
  (RunDemo.main numel_sum nbytes_sum int_truediv glob project_root).
Local Abbreviation motion_clone_path :=
  (base_dir +:+ "/models/motion_clone/checkpoint.pth").
Local Abbreviation fomm_path := (base_dir +:+ "/models/fomm/vox-cpk.pth.tar").

(** The whole of [main]: the line that prints the size raises. *)
Lemma run_demo_main_unfold (args : Args) (w : World) :
  main args w =
  if arg_list_models args then (Ok tt, w)
  else if negb (bool_decide (is_Some (files w !! motion_clone_path)))
          && negb (bool_decide (is_Some (files w !! fomm_path)))
  then (Ok tt, w)
  else
    match ModelManager.load_model (arg_model args) None w with
    | (Ok _, w1) => (Raise (KeyError "size_mb"), w1)
    | (Raise _, w1) => (Ok tt, w1)
    end.
Proof.
  unfold RunDemo.main, RunDemo.list_models.
  destruct (arg_list_models args).
  { unfold bind. by rewrite get_available_models_unfold. }
  unfold bind at 1. rewrite get_available_models_unfold.
  destruct (bool_decide_reflect (is_Some (files w !! motion_clone_path)))
    as [H1|H1]; destruct (bool_decide_reflect (is_Some (files w !! fomm_path)))
    as [H2|H2]; cbn [negb andb id].
  4: { by rewrite bool_decide_eq_true_2. }
  all: rewrite bool_decide_eq_false_2 by apply insert_non_empty.
  all: unfold bind at 1, try_except, bind at 1;
    rewrite predictor_init_outcome;
    destruct (ModelManager.load_model (arg_model args) None w) as [[m|e] w1];
    done.
Qed.

(** X21.  [main] of [run_demo.py] never reaches inference: whatever the
    arguments, it changes no file, reads no checkpoint, calls no model and
    leaves the manager as it was.  In a process of its own, where the
    cache is empty, it always returns normally: after the list of models,
    because no checkpoint is on disk, or after ["Failed to load"], since
    [load_model] raises.  It goes past the construction of the predictor
    only when the model is already in the cache, and then it raises
    [KeyError('size_mb')] where it prints the model information, because
    [get_model_info] has the key ["model_size_mb"]. *)
Theorem run_demo_never_reaches_inference (args : Args) (w : World) :
  let out := main args w in
  files (snd out) = files w ∧
  trace (snd out) = trace w ∧
  model_manager (snd out) = model_manager w ∧
  (fst out = Ok tt ∨ fst out = Raise (KeyError "size_mb")) ∧
  (fst out = Raise (KeyError "size_mb") ↔
   arg_list_models args = false ∧
   (is_Some (files w !! motion_clone_path) ∨ is_Some (files w !! fomm_path)) ∧
   is_Some (loaded_models (model_manager w) !! arg_model args)) ∧
  (loaded_models (model_manager w) = ∅ → fst out = Ok tt).
Proof.
  intros out. subst out. rewrite run_demo_main_unfold.
  destruct (arg_list_models args).
  { split_and!; auto. split; [done|]. by intros [? _]. }
  destruct (bool_decide_reflect (is_Some (files w !! motion_clone_path)))
    as [H1|H1]; destruct (bool_decide_reflect (is_Some (files w !! fomm_path)))
    as [H2|H2]; cbn [negb andb].
  4: { split_and!; auto. split; [done|]. by intros (_ & [?|?] & _). }
  all: destruct (loaded_models (model_manager w) !! arg_model args) as [m|]
         eqn:Hl;
    [ rewrite (load_model_cached (arg_model args) None w m Hl); simpl;
      split_and!; auto;
      [ split; [intros _; split_and!; eauto|done]
      | intros He; rewrite He, lookup_empty in Hl; done ]
    | destruct (load_model_miss_raises (arg_model args) None w Hl)
        as (e & w1 & -> & [->| ->]); simpl;
      split_and!; auto; (split; [done|]); by intros (_ & _ & [? ?]) ].
Qed.
End DemoScript.

Section Gif.
Import FormatConverter.

Lemma sides_ok : forallb side_ok (sides (Z.to_nat 7680)) = true.
Proof. vm_compute. reflexivity. Qed.

Lemma side_ok_range (m : Z) :
  512 < m <= 8192 → side_ok m = true.
Proof.
  intros Hm. pose proof sides_ok as H. rewrite forallb_forall in H.
  apply H. unfold sides. apply in_map_iff.
  exists (Z.to_nat (m - 513)). split; [lia|]. apply in_seq. lia.
Qed.

(** X22.  The size [video_to_gif] computes for a frame whose larger
    side [m] is between 513 and 8192: [int(m * (512 / m))] is 511 or 512
    (511 for [m = 561], by the rounding of the two floating-point
    operations), and a side of one pixel becomes 0. *)
Theorem gif_size_off_by_one (m s : Z) :
  512 < m <= 8192 → s <= m →
  (∃ h, new_size m s = Some (511, h) ∨ new_size m s = Some (512, h)) ∧
  (∃ w, new_size s m = Some (w, 511) ∨ new_size s m = Some (w, 512)) ∧
  (∃ h, new_size 1 m = Some (0, h)) ∧
  new_size 561 561 = Some (511, 511).
Proof.
  intros Hm Hs. pose proof (side_ok_range m Hm) as Hok.
  unfold side_ok, new_size in *.
  rewrite Z.max_id in Hok.
  rewrite (Z.max_l m s), (Z.max_r s m), (Z.max_r 1 m) in * by lia.
  destruct (Z.ltb_spec 512 m); [|lia].
  apply andb_true_iff in Hok as [Hw H1]. apply orb_true_iff in Hw.
  apply Z.eqb_eq in H1. rewrite H1.
  split_and!.
  - eexists. destruct Hw as [Hw|Hw]; apply Z.eqb_eq in Hw; rewrite Hw; eauto.
  - eexists. destruct Hw as [Hw|Hw]; apply Z.eqb_eq in Hw; rewrite Hw; eauto.
  - eauto.
  - vm_compute. reflexivity.
Qed.
End Gif.

(** * The theorems at work on the example server *)

#[local] Existing Instance Demo.runtime.

(** An upload without frames: decoding raises. *)
Lemma preprocess_video_zero_frames_is_error_witness :
  fst (Motion3DPredictor.preprocess_video Demo.self "uploads/t2_driving.mp4"
         100 Demo.submitted_empty)
  = Raise (ValueError "No frames could be extracted from video").
Proof.
  apply (preprocess_video_zero_frames_is_error
           Demo.self "uploads/t2_driving.mp4" 100 Demo.submitted_empty).
  vm_compute. reflexivity.
Defined.

(** C3 as stated fails for [VideoProcessor.extract_frames]: on an upload
    that holds no frame it returns the empty list, where [preprocess_video]
    raises. *)
Lemma extract_frames_returns_empty :
  totalFrames (Motion3DPredictor.capture_at (files Demo.submitted_empty)
                 "uploads/t2_driving.mp4") = 0%nat ∧
  VideoProcessor.extract_frames
    (Motion3DPredictor.capture_at (files Demo.submitted_empty)
       "uploads/t2_driving.mp4") (Some 100) = [] ∧
  VideoProcessor.extract_frames
    (Motion3DPredictor.capture_at (files Demo.submitted_empty)
       "no/such/file.mp4") None = [].
Proof. split_and!; vm_compute; reflexivity. Qed.

(** Three frames under a limit of two, on the cpu: the first two, in
    order. *)
Lemma preprocess_video_truncates_witness :
  fst (Motion3DPredictor.preprocess_video Demo.self "uploads/t1_driving.mp4"
         2 Demo.submitted)
  = Ok [-31; -30].
Proof.
  refine (proj1 (proj2 (preprocess_video_truncates
                   Demo.self "uploads/t1_driving.mp4" 2 Demo.submitted _ _))).
  - vm_compute. lia.
  - lia.
Defined.

(** C4 as stated fails for the limit 0 and for a device string that is
    no device.  With the limit 0 a video of three frames is not decoded to
    [min(3, 0) = 0] frames: [preprocess_video] raises, and
    [VideoProcessor.extract_frames], for which 0 means no limit, returns
    all three.  With the limit 2 and the device string ["auto"], which the
    predictor keeps when it is constructed without a device,
    [preprocess_video] decodes and then raises in [.to("auto")]: no frames
    are returned. *)
Lemma preprocess_video_limit_zero_or_device_auto :
  totalFrames (Motion3DPredictor.capture_at (files Demo.submitted)
                 "uploads/t1_driving.mp4") = 3%nat ∧
  fst (Motion3DPredictor.preprocess_video Demo.self "uploads/t1_driving.mp4"
         0 Demo.submitted)
  = Raise (ValueError "No frames could be extracted from video") ∧
  length (VideoProcessor.extract_frames
            (Motion3DPredictor.capture_at (files Demo.submitted)
               "uploads/t1_driving.mp4") (Some 0)) = 3%nat ∧
  device Demo.self_auto = "auto" ∧
  ∃ msg,
    fst (Motion3DPredictor.preprocess_video Demo.self_auto
           "uploads/t1_driving.mp4" 2 Demo.submitted)
    = Raise (RuntimeError msg).
Proof.
  split_and!; [vm_compute; reflexivity..|]. eexists. vm_compute. reflexivity.
Qed.

(** Two small frames go through the round trip unchanged. *)
Lemma normalize_denormalize_round_trip_witness :
  VideoProcessor.denormalize_frames
    (VideoProcessor.normalize_frames [[0; 17; 255]; [128; 1; 254]])
  = [[0; 17; 255]; [128; 1; 254]].
Proof.
  apply (normalize_denormalize_round_trip [[0; 17; 255]; [128; 1; 254]]).
  - discriminate.
  - repeat constructor; lia.
Defined.

(** A submission to the serving process is accepted and recorded. *)
Lemma generate_motion_submits_witness :
  fst (Api.generate_motion "t1" Demo.image_upload Demo.video_upload "fomm"
         Demo.serving)
  = Ok (mkMotionResponse "t1" "processing" None None) ∧
  current_tasks Demo.submitted !! "t1" = Some (mkTask "processing" 0 None None).
Proof.
  destruct (generate_motion_submits "t1" Demo.image_upload Demo.video_upload
              "fomm" Demo.serving) as [Hok _].
  destruct Hok as (Hr & _ & _ & Ht & _).
  - vm_compute. eauto.
  - reflexivity.
  - split; [exact Hr|]. unfold Demo.submitted. rewrite Ht.
    apply lookup_insert_eq.
Defined.

(** C2 as stated fails when no model could be loaded at startup: two
    well-typed uploads are turned away with HTTP 503, and no task is
    recorded. *)
Lemma generate_motion_without_predictor :
  Api.valid_uploads Demo.image_upload Demo.video_upload = true ∧
  Api.generate_motion "t1" Demo.image_upload Demo.video_upload "fomm"
    Demo.started_bare
  = (Raise (HTTPException 503 "No models loaded"), Demo.started_bare) ∧
  current_tasks Demo.started_bare !! "t1" = None.
Proof. split_and!; vm_compute; reflexivity. Qed.

(** Loading [motion_clone] twice on a fresh process with the
    checkpoint installed: both calls raise [NameError], nothing is cached,
    and two model objects have been constructed.  On the process whose
    cache was filled by hand, loading [fomm] twice returns the cached
    object twice and changes nothing. *)
Lemma load_model_never_fills_cache_witness :
  (let first := ModelManager.load_model "motion_clone" None Demo.boot in
   let second := ModelManager.load_model "motion_clone" None (snd first) in
   fst first = Raise (NameError "name 'os' is not defined") ∧
   fst second = Raise (NameError "name 'os' is not defined") ∧
   loaded_models (model_manager (snd second)) = ∅ ∧
   next_obj (snd second) = 2%nat) ∧
  (let first := ModelManager.load_model "fomm" None Demo.serving in
   let second := ModelManager.load_model "fomm" None (snd first) in
   first = (Ok Demo.fomm_model, Demo.serving) ∧
   second = (Ok Demo.fomm_model, Demo.serving)).
Proof.
  split.
  - intros first second.
    destruct (load_model_never_fills_cache "motion_clone" None Demo.boot)
      as [_ Hmiss].
    destruct (Hmiss ltac:(reflexivity)) as (_ & _ & Hmm & Hp).
    destruct (Hp "/srv/motion3d/models/motion_clone/checkpoint.pth"
                ltac:(reflexivity) ltac:(vm_compute; eauto) ltac:(reflexivity))
      as (H1 & H2 & Hn).
    split_and!; [exact H1|exact H2| |exact Hn].
    subst first second. rewrite Hmm. reflexivity.
  - destruct (load_model_never_fills_cache "fomm" None Demo.serving)
      as [Hhit _].
    exact (Hhit Demo.fomm_model ltac:(reflexivity)).
Defined.


(** A switch to an unknown name on the serving process is turned away
    and leaves manager and predictor as they were. *)
Lemma switch_rejected_keeps_current_witness :
  ∃ e w', Api.switch_model "unknown" Demo.serving = (Raise e, w') ∧
          model_manager w' = model_manager Demo.serving ∧
          predictor w' = predictor Demo.serving.
Proof.
  destruct (switch_rejected_keeps_current "unknown" Demo.serving)
    as (Hrej & Hsame & _).
  destruct Hrej as (e & w' & Heq); [left; reflexivity|].
  exists e, w'. split; [exact Heq|]. exact (Hsame e w' Heq).
Defined.

(** Once the first task is completed, no operation but its cleanup
    changes its status. *)
Lemma terminal_status_is_final_witness :
  EventLoop.task_status Demo.finished "t1" = Some "completed" ∧
  ∀ op s', EventLoop.step op Demo.finished = Some s' →
           EventLoop.task_status s' "t1" = Some "completed" ∨
           (op = EventLoop.OpCleanup "t1" ∧
            current_tasks (EventLoop.world s') !! "t1" = None).
Proof.
  assert (Hst : EventLoop.task_status Demo.finished "t1" = Some "completed")
    by (vm_compute; reflexivity).
  split; [exact Hst|].
  apply (terminal_status_is_final Demo.finished "t1" "completed").
  - exists Demo.server, Demo.first_task. split.
    + vm_compute. split_and!; reflexivity.
    + vm_compute. reflexivity.
  - exact Hst.
  - left. reflexivity.
Defined.



(** Cleaning up a finished task removes its record and its output
    file. *)
Lemma cleanup_task_removes_witness :
  let w := set_current_tasks
             (<["t1" := mkTask "completed" 100 (Some "results/t1.mp4") None]> ∅)
             (set_files (<["results/t1.mp4" := "MP4"]> ∅) Demo.bare) in
  let w' := snd (Api.cleanup_task "t1" w) in
  current_tasks w' !! "t1" = None ∧ files w' !! "results/t1.mp4" = None.
Proof.
  intros w w'.
  destruct (cleanup_task_removes "t1" w) as (_ & Hok & _).
  destruct (Hok "Task cleaned up successfully" w'
              ltac:(vm_compute; reflexivity)) as (Ht & _ & _ & _ & Hf).
  split.
  - rewrite Ht. apply lookup_delete_eq.
  - rewrite (Hf (mkTask "completed" 100 (Some "results/t1.mp4") None)
               ltac:(vm_compute; reflexivity)).
    apply lookup_delete_eq.
Defined.

(** The task with the empty video ends in error, and its download is
    refused. *)
Lemma download_after_run_witness :
  let w' := snd (Api.process_motion_transfer Demo.job_empty
                   Demo.submitted_empty) in
  Api.download_result "t2" w' =
    (Raise (HTTPException 400 "Task not completed"), w').
Proof.
  intros w'.
  destruct (download_after_run Demo.job_empty Demo.submitted_empty
              ltac:(discriminate) ltac:(discriminate))
    as [(frames & content & Hs & _)|(msg & _ & Hd)].
  - exfalso. apply (f_equal (λ out, status <$> from_option Some None
                                      (match fst out with
                                       | Ok t => Some t
                                       | Raise _ => None
                                       end))) in Hs.
    vm_compute in Hs. discriminate Hs.
  - exact Hd.
Defined.

(** A task deleted before its job starts comes back as failed. *)
Lemma cleanup_before_start_does_not_cancel_witness :
  let w1 := snd (Api.generate_motion "t9" Demo.image_upload Demo.video_upload
                   "fomm" Demo.serving) in
  let w2 := snd (Api.cleanup_task "t9" w1) in
  let w3 := snd (Api.process_motion_transfer
                   (mkJob "t9" "uploads/t9_source.png"
                          "uploads/t9_driving.mp4" "fomm") w2) in
  current_tasks w3 !! "t9" = Some (mkTask "error" 0 None (Some "'t9'")) ∧
  files w3 !! "uploads/t9_source.png" = Some "IMGface".
Proof.
  intros w1 w2 w3.
  destruct (cleanup_before_start_does_not_cancel "t9" Demo.image_upload
              Demo.video_upload "fomm" Demo.serving
              ltac:(vm_compute; eauto) ltac:(reflexivity))
    as (_ & _ & _ & Ht & _ & Hs & _).
  split; [exact Ht|exact Hs].
Defined.

(** After two calls of [load_model] on a fresh process with both
    checkpoints installed the cache is still empty, and a switch to fomm
    raises. *)
Lemma cache_never_grows_witness :
  let w := Registry.run [Registry.Load "motion_clone" None;
                         Registry.Load "fomm" None] Demo.boot in
  loaded_models (model_manager w) = ∅ ∧
  is_ok (fst (ModelManager.set_current_model "fomm" w)) = false.
Proof.
  intros w.
  destruct (cache_never_grows w) as [_ H].
  destruct H as (He & _ & _ & Hn).
  - exists Demo.boot, "auto",
      [Registry.Load "motion_clone" None; Registry.Load "fomm" None].
    split; reflexivity.
  - split; [exact He|]. apply (Hn "fomm").
Defined.

(** With both checkpoints installed the server starts without a
    predictor, and a submission is turned away. *)
Lemma startup_event_leaves_no_predictor_witness :
  is_Some (files Demo.boot !! "/srv/motion3d/models/motion_clone/checkpoint.pth") ∧
  is_Some (files Demo.boot !! "/srv/motion3d/models/fomm/vox-cpk.pth.tar") ∧
  predictor Demo.started = None ∧
  fst (Api.generate_motion "t1" Demo.image_upload Demo.video_upload "fomm"
         Demo.started)
  = Raise (HTTPException 503 "No models loaded").
Proof.
  destruct (startup_event_leaves_no_predictor Demo.boot)
    as (_ & _ & _ & _ & _ & _ & H).
  destruct (H ltac:(reflexivity) ltac:(reflexivity))
    as (Hp & _ & Hgen & _).
  split_and!; [vm_compute; eauto|vm_compute; eauto|exact Hp|].
  unfold Demo.started.
  rewrite (Hgen "t1" Demo.image_upload Demo.video_upload "fomm").
  reflexivity.
Defined.

(** With both checkpoints installed fomm is listed, and loading it on a
    fresh process raises [NameError]. *)
Lemma get_available_models_lists_checkpoints_witness :
  ∃ models,
    ModelManager.get_available_models Demo.boot = (Ok models, Demo.boot) ∧
    models !! "fomm" = Some "/srv/motion3d/models/fomm/vox-cpk.pth.tar" ∧
    fst (ModelManager.load_model "fomm" None Demo.boot)
    = Raise (NameError "name 'os' is not defined").
Proof.
  destruct (get_available_models_lists_checkpoints Demo.boot)
    as (models & Heq & Hchar & _ & Hload).
  assert (Hin : models !! "fomm"
                = Some "/srv/motion3d/models/fomm/vox-cpk.pth.tar").
  { apply Hchar. split; [reflexivity|]. vm_compute. eauto. }
  exists models. split_and!; [exact Heq|exact Hin|].
  rewrite (Hload "fomm"); [reflexivity| |reflexivity].
  rewrite Hin. eauto.
Defined.

(** The serving process reports both models as available, on the cpu. *)
Lemma models_endpoint_reports_disk_witness :
  Api.get_available_models Demo.serving =
  (Ok [ mkModelInfo "motion_clone" "cpu" 0 0 true;
        mkModelInfo "fomm" "cpu" 0 0 true ], Demo.serving).
Proof.
  destruct (models_endpoint_reports_disk Demo.serving) as [_ H].
  destruct (H ltac:(vm_compute; eauto)) as [Heq _].
  rewrite Heq. vm_compute. reflexivity.
Defined.

(** A switch to the cached fomm on the serving process keeps motion_clone
    cached. *)
Lemma switch_model_switches_witness :
  let out := Api.switch_model "fomm" Demo.serving in
  fst out = Ok "Switched to fomm" ∧
  is_Some (loaded_models (model_manager (snd out)) !! "motion_clone").
Proof.
  intros out.
  assert (Hout : Api.switch_model "fomm" Demo.serving =
                 (Ok "Switched to fomm", snd out))
    by (vm_compute; reflexivity).
  destruct (switch_model_switches "fomm" "Switched to fomm" Demo.serving
              (snd out) Hout) as (_ & _ & _ & Hkeep & _).
  split; [vm_compute; reflexivity|].
  eexists. apply Hkeep. vm_compute. reflexivity.
Defined.

(** A switch to fomm on the serving process leaves predictor and cache
    in agreement. *)
Lemma predictor_agrees_with_cache_witness :
  Server.agrees (snd (Api.switch_model "fomm" Demo.serving)).
Proof.
  assert (Ha : Server.agrees (EventLoop.world Demo.server)).
  { intros p Hp. vm_compute in Hp. injection Hp as <-.
    split; [eauto|reflexivity]. }
  destruct (predictor_agrees_with_cache Demo.server Ha) as [Hstep _].
  apply (Hstep (EventLoop.OpSwitch "fomm")
               (EventLoop.mkSystem (snd (Api.switch_model "fomm" Demo.serving))
                                   [] [])).
  reflexivity.
Defined.


(** The record of a task just submitted has the shape of a task under
    way. *)
Lemma task_records_well_formed_witness :
  Server.well_formed "t1" (mkTask "processing" 0 None None).
Proof.
  pose (s := EventLoop.mkSystem Demo.submitted [] ["t1"]).
  assert (Hr : EventLoop.reachable s).
  { exists Demo.server,
      [EventLoop.OpGenerate "t1" Demo.image_upload Demo.video_upload "fomm"].
    split.
    - vm_compute. split_and!; reflexivity.
    - vm_compute. reflexivity. }
  destruct (task_records_well_formed s Hr) as [Hwf _].
  apply (Hwf "t1"). vm_compute. reflexivity.
Defined.

(** A benchmark on the serving process leaves the disk as it was. *)
Lemma benchmark_model_removes_temporaries_witness :
  files (snd (Api.benchmark_model "/tmp/a.jpg" "/tmp/b.mp4" Demo.image_upload
                Demo.video_upload "motion_clone" 3 Demo.serving))
  = files Demo.serving.
Proof.
  destruct (benchmark_model_removes_temporaries "/tmp/a.jpg" "/tmp/b.mp4"
              Demo.image_upload Demo.video_upload "motion_clone" 3
              Demo.serving ltac:(vm_compute; eauto) ltac:(discriminate)
              ltac:(reflexivity) ltac:(reflexivity))
    as (_ & _ & _ & H & _).
  apply H; vm_compute; reflexivity.
Defined.

(** A negative limit keeps the first of three frames. *)
Lemma extract_frames_limits_witness :
  VideoProcessor.extract_frames (mkCapture true [10; 20; 30]) (Some (-5))
  = [10].
Proof.
  destruct (extract_frames_limits (RT := Demo.runtime)
              (mkCapture true [10; 20; 30]))
    as (_ & _ & H & _).
  apply (H (-5)). lia.
Defined.

(** The three-frame upload is a valid video, the empty one is not. *)
Lemma is_valid_video_agrees_with_decoders_witness :
  fst (FileValidator.is_valid_video "uploads/t1_driving.mp4" Demo.submitted)
    = Ok true ∧
  fst (FileValidator.is_valid_video "uploads/t2_driving.mp4"
         Demo.submitted_empty) = Ok false.
Proof.
  split.
  - destruct (is_valid_video_agrees_with_decoders "uploads/t1_driving.mp4"
                Demo.submitted) as (valid & Heq & Hv & _).
    rewrite Heq. simpl. f_equal. apply Hv. vm_compute. lia.
  - destruct (is_valid_video_agrees_with_decoders "uploads/t2_driving.mp4"
                Demo.submitted_empty) as (valid & Heq & Hv & _).
    rewrite Heq. simpl. f_equal. destruct valid; [|done].
    exfalso. pose proof (proj1 Hv eq_refl) as H. vm_compute in H. lia.
Defined.

(** A 2 by 2 crop of an image 6 wide and 4 high starts at row 1,
    column 2. *)
Lemma center_crop_fits_witness :
  let image := mkArray 4 6 (λ i j, 10 * i + j) in
  let out := ImageProcessor.center_crop image (2, 2) in
  arr_width out = 2 ∧ arr_height out = 2 ∧ arr_at out 0 0 = 12.
Proof.
  intros image out.
  destruct (center_crop_fits image 2 2 ltac:(simpl; lia) ltac:(simpl; lia))
    as (Hw & Hh & Hat & _).
  split_and!; [exact Hw|exact Hh|]. subst out. rewrite (Hat 0 0).
  reflexivity.
Defined.

(** A crop 6 wide of an image 4 wide keeps one column, the last. *)
Lemma center_crop_oversize_witness :
  let image := mkArray 4 4 (λ i j, 10 * i + j) in
  let out := ImageProcessor.center_crop image (6, 2) in
  arr_width out = 1 ∧ arr_at out 0 0 = 13.
Proof.
  intros image out.
  destruct (center_crop_oversize image 6 2) as [H _].
  destruct (H ltac:(simpl; lia)) as (Hw & _).
  split; [exact Hw|reflexivity].
Defined.

(** Five blocks of 1024 bytes out of 10000: 51 percent, 25 full blocks. *)
Lemma progress_hook_bar_witness :
  ∃ line, DownloadModels.progress_hook 5 1024 10000 = Some line ∧
          DownloadModels.percent line = 51 ∧
          length (DownloadModels.bar line) = 50%nat.
Proof.
  destruct (DownloadModels.progress_hook 5 1024 10000) as [l|] eqn:Hl;
    [|by vm_compute in Hl].
  destruct (progress_hook_bar 5 1024 10000) as [_ H].
  destruct (H ltac:(lia) ltac:(lia) ltac:(lia)) as (line & Heq & _ & _ & Hlen & _).
  exists line. split; [by rewrite <- Hl|]. split; [|exact Hlen].
  rewrite Hl in Heq. injection Heq as <-. vm_compute in Hl.
  injection Hl as <-. reflexivity.
Defined.

(** On an empty disk with a network that delivers, both files are there
    after the run. *)
Lemma download_main_skips_existing_witness :
  let out := DownloadModels.main (λ _, Written "weights") (∅, []) in
  fst out = true ∧
  is_Some (fst (snd out) !! "models/fomm/vox-cpk.pth.tar").
Proof.
  intros out.
  assert (Hok : fst out = true) by (vm_compute; reflexivity).
  destruct (download_main_skips_existing (λ _, Written "weights") (∅, []))
    as (_ & _ & Hready & _).
  specialize (Hready Hok). split; [exact Hok|].
  apply Forall_cons_1 in Hready as [_ Hready].
  apply Forall_cons_1 in Hready as [H _]. exact H.
Defined.

(** The demo on the installed checkpoints returns after the model
    failed to load. *)
Lemma run_demo_never_reaches_inference_witness :
  fst (@RunDemo.main Demo.runtime (λ _, 1000) (λ _, 4000) Z.div
         (λ _ _ _, []) "/srv/motion3d"
         (mkArgs None None "motion_clone" None false false) Demo.boot)
  = Ok tt.
Proof.
  destruct (@run_demo_never_reaches_inference Demo.runtime (λ _, 1000)
              (λ _, 4000) Z.div (λ _ _ _, []) "/srv/motion3d"
              (mkArgs None None "motion_clone" None false false) Demo.boot)
    as (_ & _ & _ & _ & _ & H).
  apply H. reflexivity.
Defined.

(** A full-HD frame is resized to 512 by 288. *)
Lemma gif_size_off_by_one_witness :
  ∃ h, FormatConverter.new_size 1920 1080 = Some (511, h) ∨
       FormatConverter.new_size 1920 1080 = Some (512, h).
Proof.
  destruct (gif_size_off_by_one 1920 1080 ltac:(lia) ltac:(lia)) as [H _].
  exact H.
Defined.
